(** * WebForge auditor: checklist audit, scoring and remediation

    A shallow embedding of [src/auditor.ts] (with the part of
    [templates.ts] it consults) and the properties of its audit
    aggregation, priority queue and [fixSeoIssues] remediation.

    Conventions of the embedding.
    - A JavaScript string is a [string]; each [ascii] stands for one UTF-16
      code unit below 256, and [String.length] is the JavaScript [.length].
    - A JavaScript object that is only read by key (the checklist, the
      response headers, the file system) is a [gmap string _]; an object
      that is iterated with [Object.entries] is an association list in
      insertion order (none of the keys used is an integer index).
    - Counters are [Z]; the one floating-point expression (the score) is
      computed on IEEE binary64 values ([spec_float]). *)

From Stdlib Require Import ZArith Ascii String List Bool Lia Permutation SpecFloat DecimalString.
From stdpp Require Import gmap strings.

Import ListNotations.
Local Open Scope Z_scope.

(** ** JavaScript strings *)

Module JsString.

Definition dq : string := String (ascii_of_nat 34) EmptyString.
Definition LF : string := String (ascii_of_nat 10) EmptyString.

Definition code (c : ascii) : nat := nat_of_ascii c.

Definition in_range (lo hi : nat) (c : ascii) : bool :=
  (lo <=? code c)%nat && (code c <=? hi)%nat.

Definition is_code (n : nat) (c : ascii) : bool := (code c =? n)%nat.

(** [s.length] *)
Definition length (s : string) : Z := Z.of_nat (String.length s).

(** [s.startsWith(p)] *)
Fixpoint startsWith (s p : string) : bool :=
  match p, s with
  | EmptyString, _ => true
  | String a p', String b s' => Ascii.eqb a b && startsWith s' p'
  | String _ _, EmptyString => false
  end.

(** [s.includes(p)] *)
Fixpoint includes (s p : string) : bool :=
  startsWith s p ||
  match s with
  | EmptyString => false
  | String _ s' => includes s' p
  end.

(** [s.substring(0, n)] *)
Fixpoint take (n : nat) (s : string) : string :=
  match n, s with
  | S n', String c s' => String c (take n' s')
  | _, _ => EmptyString
  end.

(** [s.substring(n)] *)
Fixpoint drop (n : nat) (s : string) : string :=
  match n, s with
  | S n', String _ s' => drop n' s'
  | _, _ => s
  end.

(** A value used as a condition: [null] and the empty string are falsy. *)
Definition truthy (v : option string) : bool :=
  match v with
  | Some (String _ _) => true
  | _ => false
  end.

(** [v || d] on an optional string *)
Definition or_else (v : option string) (d : string) : string :=
  match v with
  | Some (String c s) => String c s
  | _ => d
  end.

(** White space of [String.prototype.trim] and of the class [\s], among
    the code units below 256: TAB, LF, VT, FF, CR, SP and NBSP. *)
Definition is_space (c : ascii) : bool :=
  in_range 9 13 c || is_code 32 c || is_code 160 c.

Fixpoint trimStart (s : string) : string :=
  match s with
  | String c s' => if is_space c then trimStart s' else s
  | EmptyString => EmptyString
  end.

(** Drops the trailing white space: a character is kept when something
    that is kept follows it or when it is not white space. *)
Fixpoint trimEnd (s : string) : string :=
  match s with
  | EmptyString => EmptyString
  | String c s' =>
      match trimEnd s' with
      | EmptyString => if is_space c then EmptyString else String c EmptyString
      | t => String c t
      end
  end.

(** [s.trim()] *)
Definition trim (s : string) : string := trimEnd (trimStart s).

(** [s.split(":")[0]]: the text before the first colon. *)
Fixpoint split_colon_head (s : string) : string :=
  match s with
  | EmptyString => EmptyString
  | String c s' => if is_code 58 c then EmptyString else String c (split_colon_head s')
  end.

(** [s.split(":").slice(1).join(":")]: the text after the first colon,
    empty when there is none. *)
Fixpoint split_colon_tail (s : string) : string :=
  match s with
  | EmptyString => EmptyString
  | String c s' => if is_code 58 c then s' else split_colon_tail s'
  end.

(** Decimal rendering of a count inside a template literal. *)
Definition of_Z (n : Z) : string :=
  NilZero.string_of_uint (N.to_uint (Z.to_N n)).

End JsString.

(** ** Regular expressions

    The fragment of the JavaScript regular-expression language that
    [auditor.ts] uses: every quantifier of the source is applied to a
    single character class, and only group 1 is ever read. Matching is
    the backtracking search of the language: alternatives and greedy
    repetitions are tried in priority order, and the first complete match
    wins. *)

Module RegExp.
Import JsString.

Inductive regex : Type :=
| Chr (ok : ascii -> bool)      (* one code unit of a class *)
| Rep (ok : ascii -> bool)      (* greedy [class*] *)
| WordB                         (* [\b] *)
| Empty
| Cat (r1 r2 : regex)
| Alt (r1 r2 : regex)           (* [r1|r2] *)
| Grp (r : regex).              (* the capturing group that is read back *)

(** End of the match and the span of the capturing group. *)
Definition outcome : Type := nat * option (nat * nat).

(** A continuation receives the capture so far, the code unit before the
    current position, the position and the rest of the input. *)
Definition cont : Type :=
  option (nat * nat) -> option ascii -> nat -> string -> option outcome.

Definition is_word (c : ascii) : bool :=
  in_range 97 122 c || in_range 65 90 c || in_range 48 57 c || is_code 95 c.

Definition word_before (prev : option ascii) : bool :=
  match prev with Some c => is_word c | None => false end.

Definition word_after (s : string) : bool :=
  match s with String c _ => is_word c | EmptyString => false end.

Fixpoint rep (ok : ascii -> bool) (k : option ascii -> nat -> string -> option outcome)
    (prev : option ascii) (pos : nat) (s : string) : option outcome :=
  match s with
  | String c s' =>
      if ok c then
        match rep ok k (Some c) (S pos) s' with
        | Some r => Some r
        | None => k prev pos s
        end
      else k prev pos s
  | EmptyString => k prev pos s
  end.

Fixpoint run (r : regex) (k : cont) : cont :=
  fun cap prev pos s =>
  match r with
  | Chr ok =>
      match s with
      | String c s' => if ok c then k cap (Some c) (S pos) s' else None
      | EmptyString => None
      end
  | Rep ok => rep ok (k cap) prev pos s
  | WordB => if xorb (word_before prev) (word_after s) then k cap prev pos s else None
  | Empty => k cap prev pos s
  | Cat r1 r2 => run r1 (run r2 k) cap prev pos s
  | Alt r1 r2 =>
      match run r1 k cap prev pos s with
      | Some o => Some o
      | None => run r2 k cap prev pos s
      end
  | Grp r' => run r' (fun _ prev' pos' s' => k (Some (pos, pos')) prev' pos' s') cap prev pos s
  end.

Definition accept : cont := fun cap _ pos _ => Some (pos, cap).

(** A match anchored at the current position. *)
Definition match_here (r : regex) (prev : option ascii) (pos : nat) (s : string)
  : option outcome :=
  run r accept None prev pos s.

Record found : Type := Found { m_start : nat; m_end : nat; m_group : option (nat * nat) }.

(** The leftmost match at or after the current position. *)
Fixpoint search (r : regex) (prev : option ascii) (pos : nat) (s : string) : option found :=
  match match_here r prev pos s with
  | Some (e, cap) => Some (Found pos e cap)
  | None =>
      match s with
      | String c s' => search r (Some c) (S pos) s'
      | EmptyString => None
      end
  end.

(** [re.exec(s)] for a regular expression without the [g] flag. *)
Definition exec (r : regex) (s : string) : option found := search r None 0%nat s.

(** [re.test(s)] *)
Definition test (r : regex) (s : string) : bool :=
  match exec r s with Some _ => true | None => false end.

(** [s.match(re)] without [g], reduced to what the callers read:
    [m[1]] when there is a match. A group that did not take part in the
    match would read as [undefined]; it is rendered as [None] too. *)
Definition match_group1 (r : regex) (s : string) : option string :=
  match exec r s with
  | Some (Found _ _ (Some (a, b))) => Some (take (b - a) (drop a s))
  | _ => None
  end.

(** [(s.match(re_g) || []).length]: the number of successive matches.
    After a match the scan resumes at its end, or one code unit further
    when the match is empty; [skip] counts the code units still covered
    by the last match. *)
Fixpoint count_from (r : regex) (prev : option ascii) (pos : nat) (s : string)
    (skip : nat) : nat :=
  match skip with
  | S skip' =>
      match s with
      | String c s' => count_from r (Some c) (S pos) s' skip'
      | EmptyString => 0%nat
      end
  | O =>
      match match_here r prev pos s with
      | Some (e, _) =>
          S (match s with
             | String c s' => count_from r (Some c) (S pos) s' (e - pos - 1)
             | EmptyString => 0%nat
             end)
      | None =>
          match s with
          | String c s' => count_from r (Some c) (S pos) s' 0%nat
          | EmptyString => 0%nat
          end
      end
  end.

Definition match_count (r : regex) (s : string) : Z :=
  Z.of_nat (count_from r None 0%nat s 0%nat).

(** The replacement text of [String.prototype.replace] for a string
    replacement ([GetSubstitution]). The patterns this program replaces
    have no capturing group, so a dollar followed by digits or by [<]
    stands for itself; a dollar followed by a dollar, an ampersand, a
    backquote or a single quote is expanded (to a dollar, the match,
    the text before it and the text after it). *)
Fixpoint getSubstitution (matched before after template : string) : string :=
  match template with
  | EmptyString => EmptyString
  | String c t =>
      if is_code 36 c then
        match t with
        | String d t' =>
            if is_code 36 d then String d (getSubstitution matched before after t')
            else if is_code 38 d then matched +:+ getSubstitution matched before after t'
            else if is_code 96 d then before +:+ getSubstitution matched before after t'
            else if is_code 39 d then after +:+ getSubstitution matched before after t'
            else String c (getSubstitution matched before after t)
        | EmptyString => String c EmptyString
        end
      else String c (getSubstitution matched before after t)
  end.

(** The number of leading characters of a template before its first
    dollar sign; they are copied to the replacement text as they are. *)
Fixpoint plain_prefix (template : string) : nat :=
  match template with
  | EmptyString => 0%nat
  | String c t => if is_code 36 c then 0%nat else S (plain_prefix t)
  end.

(** [s.replace(re, template)] for a regular expression without [g]:
    the first match is replaced, and [s] is returned as it is when there
    is none. *)
Definition replace (r : regex) (template : string) (s : string) : string :=
  match exec r s with
  | Some (Found a b _) =>
      let before := take a s in
      let matched := take (b - a) (drop a s) in
      let after := drop b s in
      before +:+ getSubstitution matched before after template +:+ after
  | None => s
  end.

(** *** Building patterns *)

(** Canonical form of a code unit under the [i] flag. A pattern
    character of this program is an ASCII character or the copyright
    sign, and the [i] flag never identifies a non-ASCII code unit with
    an ASCII one, so folding the ASCII letters is exact here. *)
Definition canon (c : ascii) : nat :=
  if in_range 97 122 c then (code c - 32)%nat else code c.

(** One literal character under [i]. *)
Definition chr_i (c : ascii) : regex := Chr (fun d => (canon d =? canon c)%nat).

(** A literal text under [i]. *)
Fixpoint lit (w : string) : regex :=
  match w with
  | EmptyString => Empty
  | String c w' => Cat (chr_i c) (lit w')
  end.

Fixpoint seq_of (rs : list regex) : regex :=
  match rs with
  | [] => Empty
  | r :: rs' => Cat r (seq_of rs')
  end.

Fixpoint mem (c : ascii) (cs : string) : bool :=
  match cs with
  | EmptyString => false
  | String d cs' => Ascii.eqb c d || mem c cs'
  end.

(** Either quote character: the class of a double or a single quote. *)
Definition is_quote (c : ascii) : bool := is_code 34 c || is_code 39 c.
Definition quote : regex := Chr is_quote.
(** Anything but a quote character. *)
Definition not_quote (c : ascii) : bool := negb (is_quote c).
(** [[^>]] and [[^<]] *)
Definition not_gt (c : ascii) : bool := negb (is_code 62 c).
Definition not_lt (c : ascii) : bool := negb (is_code 60 c).
(** [\d] *)
Definition is_digit (c : ascii) : bool := in_range 48 57 c.
(** [[a-z]] under [i] *)
Definition is_letter (c : ascii) : bool := in_range 97 122 c || in_range 65 90 c.
(** [[\s>]] *)
Definition space_or_gt (c : ascii) : bool := is_space c || is_code 62 c.
(** [.]: anything but a line terminator *)
Definition is_dot (c : ascii) : bool := negb (is_code 10 c || is_code 13 c).

(** [x+] and [x?] on a class *)
Definition plus (ok : ascii -> bool) : regex := Cat (Chr ok) (Rep ok).
Definition opt (ok : ascii -> bool) : regex := Alt (Chr ok) Empty.

(** The characters with a meaning of their own in a pattern source. An
    ASCII text without them, spliced into a pattern after a class, is
    matched literally (up to case under [i]). *)
Definition is_syntax_char (c : ascii) : bool :=
  mem c "\^$.*+?()[]{}|".

Fixpoint is_plain (w : string) : bool :=
  match w with
  | EmptyString => true
  | String c w' => (code c <? 128)%nat && negb (is_syntax_char c) && is_plain w'
  end.

(** *** Pattern texts that [new RegExp] rejects

    How the parentheses of a pattern text are read: a backslash takes
    the next character with it, a class runs from an opening bracket to
    the next closing bracket, and outside a class an opening
    parenthesis opens a group that a later closing parenthesis closes.
    [scan_groups] is false for a text that ends in a backslash, that
    closes a group it has not opened, or that leaves a group open at
    its end; [new RegExp] throws a [SyntaxError] on each of them. *)
Fixpoint scan_groups (source : string) (in_class : bool) (depth : nat) : bool :=
  match source with
  | EmptyString => (depth =? 0)%nat
  | String c rest =>
      if is_code 92 c then
        match rest with
        | String _ rest' => scan_groups rest' in_class depth
        | EmptyString => false
        end
      else if in_class then scan_groups rest (negb (is_code 93 c)) depth
      else if is_code 91 c then scan_groups rest true depth
      else if is_code 40 c then scan_groups rest false (S depth)
      else if is_code 41 c then
        match depth with
        | S depth' => scan_groups rest false depth'
        | O => false
        end
      else scan_groups rest false depth
  end.

Definition groups_pair_up (source : string) : bool := scan_groups source false 0%nat.

End RegExp.

(** ** The checklist ([templates.ts])

    The checklist file itself is configuration outside the sources; the
    value [getAuditSections()] returns (the empty object when no checklist
    could be loaded) is a parameter [sections] of the audit. *)

Module Templates.

Record ChecklistItem : Type := {
  check : string;
  priority : string;
  how_to_fix : string;
  status : string
}.

Record ChecklistSection : Type := {
  label : string;
  description : string;
  items : gmap string ChecklistItem
}.

End Templates.

(** ** JavaScript numbers: the score arithmetic on binary64 *)

Module Number.

Definition prec : Z := 53.
Definition emax : Z := 1024.

(** The double of an integer. *)
Definition of_Z (n : Z) : spec_float := binary_normalize prec emax n 0 false.

Definition div : spec_float -> spec_float -> spec_float := SFdiv prec emax.
Definition mul : spec_float -> spec_float -> spec_float := SFmul prec emax.

(** [Math.round]: the nearest integer, ties towards plus infinity; an
    integral or non-finite argument is returned as it is, and a result
    of zero keeps the sign of the argument. A finite [x] is
    [num * 2^e], so for [e < 0] the floor of [x + 1/2] is the quotient
    of [2 num + 2^(-e)] by [2^(1-e)]. *)
Definition round (x : spec_float) : spec_float :=
  match x with
  | S754_finite s m e =>
      if 0 <=? e then x
      else
        let num := if s then Z.neg m else Z.pos m in
        binary_normalize prec emax ((2 * num + 2 ^ (- e)) / 2 ^ (1 - e)) 0 s
  | _ => x
  end.

Definition eqb (x y : spec_float) : bool :=
  match x, y with
  | S754_zero a, S754_zero b => Bool.eqb a b
  | S754_infinity a, S754_infinity b => Bool.eqb a b
  | S754_nan, S754_nan => true
  | S754_finite a m e, S754_finite b n f => Bool.eqb a b && (m =? n)%positive && (e =? f)
  | _, _ => false
  end.

End Number.

(** ** The auditor ([auditor.ts]) *)

Module Auditor.
Import JsString RegExp.

Inductive Status : Type := done | missing | partial | not_applicable.

Module ItemResult.
Record t : Type := {
  check : string;
  priority : string;
  status : Status;
  details : string;
  how_to_fix : string
}.
End ItemResult.

Module SectionResult.
Record t : Type := {
  label : string;
  total : Z;
  passed : Z;
  failed : Z;
  items : list (string * ItemResult.t)
}.
End SectionResult.

Module PriorityFix.
Record t : Type := {
  check_id : string;
  check : string;
  priority : string;
  how_to_fix : string;
  section : string
}.
End PriorityFix.

Module AuditResult.
Record t : Type := {
  url : string;
  timestamp : string;
  total_checks : Z;
  passed : Z;
  failed : Z;
  partial : Z;
  not_applicable : Z;
  score_percentage : spec_float;
  sections : list (string * SectionResult.t);
  priority_fixes : list PriorityFix.t
}.
End AuditResult.

(** [o[k] = v] on an object kept as its entries in insertion order. *)
Fixpoint rec_set {V : Type} (o : list (string * V)) (k : string) (v : V)
  : list (string * V) :=
  match o with
  | [] => [(k, v)]
  | (k', v') :: o' =>
      if String.eqb k' k then (k', v) :: o' else (k', v') :: rec_set o' k v
  end.

(** [o[k]] *)
Fixpoint rec_get {V : Type} (o : list (string * V)) (k : string) : option V :=
  match o with
  | [] => None
  | (k', v) :: o' => if String.eqb k' k then Some v else rec_get o' k
  end.

Definition Checklist : Type := gmap string Templates.ChecklistSection.

(** [sections[key]?.items || {}] *)
Definition items_of (sections : Checklist) (key : string)
  : gmap string Templates.ChecklistItem :=
  match sections !! key with
  | Some s => Templates.items s
  | None => ∅
  end.

(** The object literal every check builds:
    [{ check: items[id]?.check || label, priority, status, details,
       how_to_fix: items[id]?.how_to_fix || <empty> }]. *)
Definition item (items : gmap string Templates.ChecklistItem) (id label priority : string)
    (status : Status) (details : string) : ItemResult.t :=
  {| ItemResult.check := or_else (Templates.check <$> items !! id) label;
     ItemResult.priority := priority;
     ItemResult.status := status;
     ItemResult.details := details;
     ItemResult.how_to_fix := or_else (Templates.how_to_fix <$> items !! id) EmptyString |}.

(** [items[id]?.priority || <high>] *)
Definition priority_of (items : gmap string Templates.ChecklistItem) (id : string) : string :=
  or_else (Templates.priority <$> items !! id) "high".

Definition checkHtml (html : string) (pattern : regex) : bool := test pattern html.

(** The four patterns of [extractMeta]: the attribute [attr] ([name] or
    [property]) before or after [content]. *)
Definition meta_attr_first (attr name : string) : regex :=
  seq_of [lit "<meta"; Chr is_space; Rep not_gt; lit attr; lit "="; quote; lit name; quote;
          Rep not_gt; lit "content="; quote; Grp (Rep not_quote); quote].

Definition meta_content_first (attr name : string) : regex :=
  seq_of [lit "<meta"; Chr is_space; Rep not_gt; lit "content="; quote; Grp (Rep not_quote);
          quote; Rep not_gt; lit attr; lit "="; quote; lit name; quote].

Fixpoint first_match (patterns : list regex) (html : string) : option string :=
  match patterns with
  | [] => None
  | p :: ps =>
      match match_group1 p html with
      | Some m1 => Some m1
      | None => first_match ps html
      end
  end.

(** [extractMeta(html, name)]. The source splices [name] into the
    pattern text; this is its meaning for a [name] that [is_plain]
    accepts, which is matched literally. *)
Definition extractMeta (html name : string) : option string :=
  first_match
    [meta_attr_first "name" name; meta_content_first "name" name;
     meta_attr_first "property" name; meta_content_first "property" name]
    html.

(** [countHeadings(html, level)] for a one-digit level. *)
Definition countHeadings (html : string) (level : Z) : Z :=
  match_count (seq_of [lit "<h"; lit (of_Z level); Chr space_or_gt]) html.

Definition hasSchema (html type : string) : bool :=
  includes html (dq +:+ "@type" +:+ dq) && includes html (dq +:+ type +:+ dq).

Definition cond (b : bool) (yes no : string) : string := if b then yes else no.
Definition done_or_missing (b : bool) : Status := if b then done else missing.

(** *** Audit checks by section *)

Definition auditTechnicalSeo (sections : Checklist) (html : string)
    (headers : gmap string string) (url : string) (robotsTxt sitemapXml : option string)
  : list (string * ItemResult.t) :=
  let results := [] in
  let isHttps := startsWith url "https://" in
  let items := items_of sections "1_technical_seo" in
  let results := rec_set results "1_01_https"
    (item items "1_01_https" "HTTPS" "critical" (done_or_missing isHttps)
       (cond isHttps "Site uses HTTPS" "Site does not use HTTPS")) in
  let results := rec_set results "1_03_robots_txt"
    (item items "1_03_robots_txt" "robots.txt" "critical" (done_or_missing (truthy robotsTxt))
       (cond (truthy robotsTxt) "robots.txt found" "robots.txt not found")) in
  let results := rec_set results "1_04_sitemap_xml"
    (item items "1_04_sitemap_xml" "sitemap.xml" "critical"
       (done_or_missing (truthy sitemapXml))
       (cond (truthy sitemapXml) "sitemap.xml found" "sitemap.xml not found")) in
  let hasCanonical := checkHtml html (seq_of [lit "rel="; quote; lit "canonical"; quote]) in
  let results := rec_set results "1_06_canonical_tags"
    (item items "1_06_canonical_tags" "Canonical tag" "critical" (done_or_missing hasCanonical)
       (cond hasCanonical "Canonical tag found" "No canonical tag")) in
  let metaRobots := extractMeta html "robots" in
  let results := rec_set results "1_07_meta_robots"
    (item items "1_07_meta_robots" "Meta robots" "high" (done_or_missing (truthy metaRobots))
       (if truthy metaRobots then "meta robots: " +:+ or_else metaRobots EmptyString
        else "No meta robots tag")) in
  let hasViewport := checkHtml html (seq_of [lit "name="; quote; lit "viewport"; quote]) in
  let results := rec_set results "1_13_viewport_meta"
    (item items "1_13_viewport_meta" "Viewport meta" "critical" (done_or_missing hasViewport)
       (cond hasViewport "Viewport meta tag found" "No viewport meta tag")) in
  let hasCharset :=
    checkHtml html (seq_of [lit "charset="; opt is_quote; lit "UTF-8"; opt is_quote]) in
  let results := rec_set results "1_14_charset"
    (item items "1_14_charset" "Charset UTF-8" "high" (done_or_missing hasCharset)
       (cond hasCharset "UTF-8 charset found" "No UTF-8 charset")) in
  let hasLang :=
    checkHtml html (seq_of [lit "<html"; Rep not_gt; lit "lang="; quote; Chr is_letter]) in
  let results := rec_set results "1_15_lang_attribute"
    (item items "1_15_lang_attribute" "Lang attribute" "medium" (done_or_missing hasLang)
       (cond hasLang "Lang attribute found" "No lang attribute on <html>")) in
  results.

(** The title text: group 1 of the title pattern, [null] without a match. *)
Definition titleMatch (html : string) : option string :=
  match_group1 (seq_of [lit "<title>"; Grp (Rep not_lt); lit "</title>"]) html.

Definition imgTotal (html : string) : Z :=
  match_count (seq_of [lit "<img"; Chr is_space]) html.

Definition imgWithAlt (html : string) : Z :=
  match_count
    (seq_of [lit "<img"; Chr is_space; Rep not_gt; lit "alt="; quote; plus not_quote; quote])
    html.

Definition img_dims (first second : string) : regex :=
  seq_of [lit "<img"; Chr is_space; Rep not_gt; lit first; lit "="; quote; plus is_digit; quote;
          Rep not_gt; lit second; lit "="; quote; plus is_digit; quote].

Definition imgWithDims (html : string) : Z :=
  match_count (img_dims "width" "height") html + match_count (img_dims "height" "width") html.

Definition auditOnPageSeo (sections : Checklist) (html : string)
  : list (string * ItemResult.t) :=
  let results := [] in
  let items := items_of sections "2_on_page_seo" in
  (* Title tag *)
  let title := titleMatch html in
  let titleLen := if truthy title then length (or_else title EmptyString) else 0 in
  let results := rec_set results "2_01_title_tag"
    (item items "2_01_title_tag" "Title tag" "critical"
       (if truthy title
        then (if (30 <=? titleLen) && (titleLen <=? 70) then done else partial)
        else missing)
       (if truthy title
        then "Title (" +:+ of_Z titleLen +:+ " chars): " +:+ dq +:+ or_else title EmptyString +:+ dq
        else "No title tag found")) in
  (* Meta description *)
  let desc := extractMeta html "description" in
  let descLen := if truthy desc then length (or_else desc EmptyString) else 0 in
  let results := rec_set results "2_02_meta_description"
    (item items "2_02_meta_description" "Meta description" "critical"
       (if truthy desc
        then (if (100 <=? descLen) && (descLen <=? 170) then done else partial)
        else missing)
       (if truthy desc then "Meta description (" +:+ of_Z descLen +:+ " chars)"
        else "No meta description")) in
  (* H1 *)
  let h1Count := countHeadings html 1 in
  let results := rec_set results "2_03_h1_tag"
    (item items "2_03_h1_tag" "H1 tag" "critical"
       (if h1Count =? 1 then done else if 1 <? h1Count then partial else missing)
       ("Found " +:+ of_Z h1Count +:+ " H1 tag(s)")) in
  (* Heading hierarchy *)
  let h2Count := countHeadings html 2 in
  let h3Count := countHeadings html 3 in
  let results := rec_set results "2_04_heading_hierarchy"
    (item items "2_04_heading_hierarchy" "Heading hierarchy" "high"
       (if (1 <=? h1Count) && (1 <=? h2Count) then done else partial)
       ("H1:" +:+ of_Z h1Count +:+ " H2:" +:+ of_Z h2Count +:+ " H3:" +:+ of_Z h3Count)) in
  (* Image alt tags *)
  let imgTotal := imgTotal html in
  let imgWithAlt := imgWithAlt html in
  let results := rec_set results "2_07_image_alt_tags"
    (item items "2_07_image_alt_tags" "Image alt tags" "critical"
       (if imgTotal =? 0 then not_applicable
        else if imgWithAlt =? imgTotal then done
        else if 0 <? imgWithAlt then partial else missing)
       (of_Z imgWithAlt +:+ "/" +:+ of_Z imgTotal +:+ " images have alt text")) in
  (* Image dimensions *)
  let imgWithDims := imgWithDims html in
  let results := rec_set results "2_08_image_dimensions"
    (item items "2_08_image_dimensions" "Image dimensions" "high"
       (if imgTotal =? 0 then not_applicable
        else if imgTotal <=? imgWithDims then done
        else if 0 <? imgWithDims then partial else missing)
       (of_Z imgWithDims +:+ "/" +:+ of_Z imgTotal +:+ " images have dimensions")) in
  (* Lazy loading *)
  let imgWithLazy := match_count (seq_of [lit "loading="; quote; lit "lazy"; quote]) html in
  let results := rec_set results "2_11_image_lazy_loading"
    (item items "2_11_image_lazy_loading" "Lazy loading" "high"
       (if imgTotal <=? 1 then not_applicable
        else if 0 <? imgWithLazy then done else missing)
       (of_Z imgWithLazy +:+ " images with lazy loading")) in
  (* Favicon *)
  let hasFavicon :=
    checkHtml html
      (seq_of [lit "rel="; quote; Alt (lit "icon") (lit "shortcut icon"); quote])
    || checkHtml html (lit "favicon") in
  let results := rec_set results "2_20_favicon"
    (item items "2_20_favicon" "Favicon" "medium" (done_or_missing hasFavicon)
       (cond hasFavicon "Favicon found" "No favicon detected")) in
  results.

Definition auditSchema (sections : Checklist) (html : string)
  : list (string * ItemResult.t) :=
  let items := items_of sections "3_structured_data_schema" in
  let checks :=
    [("3_01_organization_schema", "Organization", "Organization schema");
     ("3_02_local_business_schema", "LocalBusiness", "LocalBusiness schema");
     ("3_03_breadcrumb_schema", "BreadcrumbList", "BreadcrumbList schema");
     ("3_04_faq_schema", "FAQPage", "FAQPage schema");
     ("3_05_article_schema", "Article", "Article schema");
     ("3_10_speakable_schema", "SpeakableSpecification", "Speakable schema")] in
  fold_left
    (fun results '(id, schemaType, label) =>
       let found := hasSchema html schemaType in
       rec_set results id
         (item items id label (priority_of items id) (done_or_missing found)
            (if found then schemaType +:+ " schema found"
             else "No " +:+ schemaType +:+ " schema")))
    checks [].

Definition auditOgTags (sections : Checklist) (html : string)
  : list (string * ItemResult.t) :=
  let items := items_of sections "4_open_graph_social" in
  let checks :=
    [("4_01_og_type", "og:type", "og:type");
     ("4_02_og_title", "og:title", "og:title");
     ("4_03_og_description", "og:description", "og:description");
     ("4_04_og_image", "og:image", "og:image");
     ("4_05_og_url", "og:url", "og:url");
     ("4_08_twitter_card", "twitter:card", "Twitter card")] in
  fold_left
    (fun results '(id, metaName, label) =>
       let value := extractMeta html metaName in
       rec_set results id
         (item items id label (priority_of items id) (done_or_missing (truthy value))
            (if truthy value then label +:+ ": " +:+ take 80 (or_else value EmptyString)
             else "No " +:+ label +:+ " tag")))
    checks [].

Definition auditSecurity (sections : Checklist) (headers : gmap string string)
  : list (string * ItemResult.t) :=
  let items := items_of sections "8_security" in
  let headerChecks :=
    [("8_01_hsts", "strict-transport-security", "HSTS");
     ("8_02_x_content_type", "x-content-type-options", "X-Content-Type-Options");
     ("8_03_x_frame_options", "x-frame-options", "X-Frame-Options");
     ("8_04_xss_protection", "x-xss-protection", "X-XSS-Protection");
     ("8_05_referrer_policy", "referrer-policy", "Referrer-Policy");
     ("8_07_csp", "content-security-policy", "CSP")] in
  fold_left
    (fun results '(id, header, label) =>
       let value := headers !! header in
       rec_set results id
         (item items id label (priority_of items id) (done_or_missing (truthy value))
            (if truthy value then label +:+ ": " +:+ take 80 (or_else value EmptyString)
             else "No " +:+ label +:+ " header")))
    headerChecks [].

Definition auditPerformance (sections : Checklist) (html : string)
    (headers : gmap string string) : list (string * ItemResult.t) :=
  let results := [] in
  let items := items_of sections "7_performance_core_web_vitals" in
  let gzipHeader := or_else (headers !! "content-encoding") EmptyString in
  let results := rec_set results "7_01_gzip_compression"
    (item items "7_01_gzip_compression" "GZIP" "critical"
       (done_or_missing (includes gzipHeader "gzip" || includes gzipHeader "br"))
       (if truthy (Some gzipHeader) then "Encoding: " +:+ gzipHeader
        else "No compression detected")) in
  let hasPreload := checkHtml html (seq_of [lit "rel="; quote; lit "preload"; quote]) in
  let results := rec_set results "7_07_preload_lcp"
    (item items "7_07_preload_lcp" "Preload LCP" "high" (done_or_missing hasPreload)
       (cond hasPreload "Preload hints found" "No preload hints")) in
  let hasPreconnect := checkHtml html (seq_of [lit "rel="; quote; lit "preconnect"; quote]) in
  let results := rec_set results "7_08_preconnect"
    (item items "7_08_preconnect" "Preconnect" "medium" (done_or_missing hasPreconnect)
       (cond hasPreconnect "Preconnect hints found" "No preconnect hints")) in
  let hasDefer :=
    checkHtml html (seq_of [WordB; lit "defer"; WordB])
    || checkHtml html (seq_of [WordB; lit "async"; WordB]) in
  let results := rec_set results "7_09_defer_js"
    (item items "7_09_defer_js" "Defer JS" "high" (done_or_missing hasDefer)
       (cond hasDefer "Deferred/async scripts found" "No deferred scripts")) in
  let hasFontSwap :=
    checkHtml html (lit "display=swap")
    || checkHtml html (seq_of [lit "font-display:"; Rep is_space; lit "swap"]) in
  let results := rec_set results "7_11_font_optimization"
    (item items "7_11_font_optimization" "Font swap" "medium" (done_or_missing hasFontSwap)
       (cond hasFontSwap "font-display:swap found" "No font-display:swap")) in
  results.

Definition auditUxCro (sections : Checklist) (html : string)
  : list (string * ItemResult.t) :=
  let results := [] in
  let items := items_of sections "11_ux_cro" in
  let hasCta :=
    checkHtml html
      (seq_of [lit "class="; quote; Rep not_quote; lit "btn"; Rep not_quote; quote]) in
  let results := rec_set results "11_01_cta_visibility"
    (item items "11_01_cta_visibility" "CTA visibility" "critical" (done_or_missing hasCta)
       (cond hasCta "CTA buttons found" "No CTA buttons detected")) in
  let hasPhone := checkHtml html (seq_of [lit "href="; quote; lit "tel:"]) in
  let results := rec_set results "11_04_phone_clickable"
    (item items "11_04_phone_clickable" "Clickable phone" "high" (done_or_missing hasPhone)
       (cond hasPhone "Clickable phone link found" "No tel: link")) in
  let hasWhatsapp := checkHtml html (lit "wa.me") || checkHtml html (lit "whatsapp") in
  let results := rec_set results "11_05_whatsapp_button"
    (item items "11_05_whatsapp_button" "WhatsApp button" "medium"
       (done_or_missing hasWhatsapp)
       (cond hasWhatsapp "WhatsApp integration found" "No WhatsApp button")) in
  let hasForm := checkHtml html (seq_of [lit "<form"; Chr is_space]) in
  let results := rec_set results "11_03_contact_form"
    (item items "11_03_contact_form" "Contact form" "high" (done_or_missing hasForm)
       (cond hasForm "Contact form found" "No contact form")) in
  let hasCookieBanner :=
    checkHtml html (lit "cookie") && checkHtml html (Alt (lit "accept") (lit "consent")) in
  let results := rec_set results "11_09_cookie_consent"
    (item items "11_09_cookie_consent" "Cookie consent" "medium"
       (done_or_missing hasCookieBanner)
       (cond hasCookieBanner "Cookie consent found" "No cookie consent banner")) in
  results.

Definition auditAccessibility (sections : Checklist) (html : string)
  : list (string * ItemResult.t) :=
  let results := [] in
  let items := items_of sections "15_accessibility" in
  let hasAria := checkHtml html (lit "aria-label") in
  let results := rec_set results "15_01_aria_labels"
    (item items "15_01_aria_labels" "ARIA labels" "high" (done_or_missing hasAria)
       (cond hasAria "ARIA labels found" "No ARIA labels detected")) in
  let hasSemanticHtml :=
    checkHtml html
      (seq_of [lit "<";
               Alt (lit "header") (Alt (lit "nav") (Alt (lit "main") (Alt (lit "section")
                 (Alt (lit "article") (lit "footer")))));
               Chr space_or_gt]) in
  let results := rec_set results "15_06_semantic_html"
    (item items "15_06_semantic_html" "Semantic HTML" "medium"
       (done_or_missing hasSemanticHtml)
       (cond hasSemanticHtml "Semantic HTML5 elements found" "No semantic HTML5 elements")) in
  let hasFormLabels := checkHtml html (seq_of [lit "<label"; Chr is_space]) in
  let results := rec_set results "15_04_form_labels"
    (item items "15_04_form_labels" "Form labels" "high"
       (if hasFormLabels then done
        else if checkHtml html (lit "<form") then missing else not_applicable)
       (cond hasFormLabels "Form labels found" "Forms without labels")) in
  results.

(** The copyright sign of the third pattern, code unit 169. *)
Definition copyright_sign : ascii := ascii_of_nat 169.

Definition auditLegal (sections : Checklist) (html url : string)
  : list (string * ItemResult.t) :=
  let results := [] in
  let items := items_of sections "16_legal_compliance" in
  let hasPrivacyLink := checkHtml html (seq_of [lit "privacy"; opt is_dot; lit "policy"]) in
  let results := rec_set results "16_01_privacy_policy"
    (item items "16_01_privacy_policy" "Privacy Policy" "critical"
       (done_or_missing hasPrivacyLink)
       (cond hasPrivacyLink "Privacy policy link found" "No privacy policy link")) in
  let hasTermsLink :=
    checkHtml html
      (Alt (seq_of [lit "terms"; opt is_dot; Alt (lit "of") (lit "&"); opt is_dot;
                    lit "service"])
           (seq_of [lit "terms"; opt is_dot; lit "conditions"])) in
  let results := rec_set results "16_02_terms_of_service"
    (item items "16_02_terms_of_service" "Terms of Service" "high"
       (done_or_missing hasTermsLink)
       (cond hasTermsLink "Terms link found" "No terms link")) in
  let hasCopyright :=
    checkHtml html (Alt (chr_i copyright_sign) (Alt (lit "&copy;") (lit "copyright"))) in
  let results := rec_set results "16_04_copyright_notice"
    (item items "16_04_copyright_notice" "Copyright" "medium" (done_or_missing hasCopyright)
       (cond hasCopyright "Copyright notice found" "No copyright notice")) in
  results.

(** *** Main audit function *)

(** What reading a key of the object literal [priorityOrder] gives: one
    of its four numbers, [undefined], or a member inherited from
    [Object.prototype] (a function or an object). *)
Inductive member : Type := Num (n : Z) | Undefined | Inherited.

Definition object_prototype_names : list string :=
  ["constructor"; "hasOwnProperty"; "isPrototypeOf"; "propertyIsEnumerable";
   "toLocaleString"; "toString"; "valueOf"; "__proto__"; "__defineGetter__";
   "__defineSetter__"; "__lookupGetter__"; "__lookupSetter__"].

Definition priorityOrder (p : string) : member :=
  if String.eqb p "critical" then Num 0
  else if String.eqb p "high" then Num 1
  else if String.eqb p "medium" then Num 2
  else if String.eqb p "low" then Num 3
  else if existsb (String.eqb p) object_prototype_names then Inherited
  else Undefined.

(** [priorityOrder[p] || 3] as the operand of the subtraction: [0] and
    [undefined] are falsy and give 3; an inherited member is kept and is
    not a number ([None]). *)
Definition rank_or_3 (p : string) : option Z :=
  match priorityOrder p with
  | Num n => Some (if n =? 0 then 3 else n)
  | Undefined => Some 3
  | Inherited => None
  end.

(** The comparator of the sort; [None] is NaN. *)
Definition compare_fixes (a b : PriorityFix.t) : option Z :=
  match rank_or_3 (PriorityFix.priority a), rank_or_3 (PriorityFix.priority b) with
  | Some x, Some y => Some (x - y)
  | _, _ => None
  end.

(** [Array.prototype.sort] with a comparator. The sort is stable and
    reads a NaN from the comparator as 0. Under a comparator that is
    a consistent ordering the result is the unique stable sorted
    arrangement, which this insertion sort computes: the elements are
    inserted from left to right, each one before the first element it is
    strictly smaller than. *)
Section Sort.
Context {A : Type} (comparefn : A -> A -> option Z).

Definition before (x y : A) : bool :=
  match comparefn x y with
  | Some v => v <? 0
  | None => false
  end.

Fixpoint insert (x : A) (sorted : list A) : list A :=
  match sorted with
  | [] => [x]
  | y :: rest => if before x y then x :: y :: rest else y :: insert x rest
  end.

Definition sort (l : list A) : list A :=
  fold_left (fun sorted x => insert x sorted) l [].
End Sort.

(** The mutable locals of [auditWebsite]. *)
Module Counters.
Record t : Type := {
  totalChecks : Z;
  passed : Z;
  failed : Z;
  partial : Z;
  na : Z;
  priorityFixes : list PriorityFix.t
}.
End Counters.

Definition allChecks (sections : Checklist) (url html : string)
    (headers : gmap string string) (robotsTxt sitemapXml : option string)
  : list (string * list (string * ItemResult.t)) :=
  let o := [] in
  let o := rec_set o "1_technical_seo"
             (auditTechnicalSeo sections html headers url robotsTxt sitemapXml) in
  let o := rec_set o "2_on_page_seo" (auditOnPageSeo sections html) in
  let o := rec_set o "3_structured_data_schema" (auditSchema sections html) in
  let o := rec_set o "4_open_graph_social" (auditOgTags sections html) in
  let o := rec_set o "7_performance_core_web_vitals" (auditPerformance sections html headers) in
  let o := rec_set o "8_security" (auditSecurity sections headers) in
  let o := rec_set o "11_ux_cro" (auditUxCro sections html) in
  let o := rec_set o "15_accessibility" (auditAccessibility sections html) in
  let o := rec_set o "16_legal_compliance" (auditLegal sections html url) in
  o.

(** [result.status !== done && result.status !== not_applicable] *)
Definition needs_fix (s : Status) : bool :=
  match s with
  | done | not_applicable => false
  | missing | partial => true
  end.

(** The body of the inner loop, for one entry of a section. *)
Definition count_check (sectionLabel : string) (state : Counters.t * (Z * Z))
    (entry : string * ItemResult.t) : Counters.t * (Z * Z) :=
  let '(c, (sectionPassed, sectionFailed)) := state in
  let '(checkId, result) := entry in
  let totalChecks := Counters.totalChecks c + 1 in
  let '(passed, failed, partial_, na, sectionPassed, sectionFailed) :=
    match ItemResult.status result with
    | done =>
        (Counters.passed c + 1, Counters.failed c, Counters.partial c, Counters.na c,
         sectionPassed + 1, sectionFailed)
    | partial =>
        (Counters.passed c, Counters.failed c, Counters.partial c + 1, Counters.na c,
         sectionPassed, sectionFailed + 1)
    | not_applicable =>
        (Counters.passed c, Counters.failed c, Counters.partial c, Counters.na c + 1,
         sectionPassed, sectionFailed)
    | missing =>
        (Counters.passed c, Counters.failed c + 1, Counters.partial c, Counters.na c,
         sectionPassed, sectionFailed + 1)
    end in
  let priorityFixes :=
    if needs_fix (ItemResult.status result) then
      Counters.priorityFixes c ++
        [{| PriorityFix.check_id := checkId;
            PriorityFix.check := ItemResult.check result;
            PriorityFix.priority := ItemResult.priority result;
            PriorityFix.how_to_fix := ItemResult.how_to_fix result;
            PriorityFix.section := sectionLabel |}]
    else Counters.priorityFixes c in
  ({| Counters.totalChecks := totalChecks; Counters.passed := passed;
      Counters.failed := failed; Counters.partial := partial_; Counters.na := na;
      Counters.priorityFixes := priorityFixes |},
   (sectionPassed, sectionFailed)).

(** [auditSections[sectionKey]?.label || sectionKey] *)
Definition section_label (auditSections : Checklist) (sectionKey : string) : string :=
  or_else (Templates.label <$> auditSections !! sectionKey) sectionKey.

(** The body of the outer loop, for one section. *)
Definition count_section (auditSections : Checklist)
    (state : Counters.t * list (string * SectionResult.t))
    (entry : string * list (string * ItemResult.t))
  : Counters.t * list (string * SectionResult.t) :=
  let '(c, sectionResults) := state in
  let '(sectionKey, checkResults) := entry in
  let sectionLabel := section_label auditSections sectionKey in
  let '(c, (sectionPassed, sectionFailed)) :=
    fold_left (count_check sectionLabel) checkResults (c, (0, 0)) in
  (c,
   rec_set sectionResults sectionKey
     {| SectionResult.label := sectionLabel;
SectionResult.total := Z.of_nat (List.length checkResults);
SectionResult.passed := sectionPassed;
SectionResult.failed := sectionFailed;
SectionResult.items := checkResults |}).

Definition no_counts : Counters.t :=
  {| Counters.totalChecks := 0; Counters.passed := 0; Counters.failed := 0;
     Counters.partial := 0; Counters.na := 0; Counters.priorityFixes := [] |}.

(** [applicable > 0 ? Math.round((passed / applicable) * 100) : 0] *)
Definition scorePercentage (passed applicable : Z) : spec_float :=
  if 0 <? applicable
  then Number.round
         (Number.mul (Number.div (Number.of_Z passed) (Number.of_Z applicable))
            (Number.of_Z 100))
  else Number.of_Z 0.

(** [if (!url.startsWith(http)) url = https:// + url] *)
Definition normalize_url (url : string) : string :=
  if startsWith url "http" then url else "https://" +:+ url.

(** [auditWebsite], from the point where the page, its headers and the
    two optional resources have been fetched; the time stamp is the
    clock reading of the call. *)
Definition auditWebsite (auditSections : Checklist) (url html : string)
    (headers : gmap string string) (robotsTxt sitemapXml : option string)
    (timestamp : string) : AuditResult.t :=
  let url := normalize_url url in
  let '(c, sectionResults) :=
    fold_left (count_section auditSections)
      (allChecks auditSections url html headers robotsTxt sitemapXml) (no_counts, []) in
  (* Sort priority fixes *)
  let priorityFixes := sort compare_fixes (Counters.priorityFixes c) in
  let applicable := Counters.totalChecks c - Counters.na c in
  {| AuditResult.url := url;
     AuditResult.timestamp := timestamp;
     AuditResult.total_checks := Counters.totalChecks c;
     AuditResult.passed := Counters.passed c;
     AuditResult.failed := Counters.failed c;
     AuditResult.partial := Counters.partial c;
     AuditResult.not_applicable := Counters.na c;
     AuditResult.score_percentage := scorePercentage (Counters.passed c) applicable;
     AuditResult.sections := sectionResults;
     AuditResult.priority_fixes := priorityFixes |}.

(** What the call [auditWebsite(url)] throws before the audit proper: the
    [TypeError] of [new URL] on an address that is not a URL, and the
    error of [fetchPage] when the page cannot be fetched. *)
Inductive audit_error : Type := InvalidURL | FetchFailed.

(** The call [auditWebsite(url)]. [is_url] is the URL parser of the
    platform (whether [new URL] returns), and [page] is what [fetchPage]
    gave for the address, [None] when it threw; the two optional
    resources never throw. *)
Definition auditWebsite_call (is_url : string -> bool) (auditSections : Checklist)
    (url : string) (page : option (string * gmap string string))
    (robotsTxt sitemapXml : option string) (timestamp : string)
  : audit_error + AuditResult.t :=
  if is_url (normalize_url url) then
    match page with
    | Some (html, headers) =>
        inr (auditWebsite auditSections url html headers robotsTxt sitemapXml timestamp)
    | None => inl FetchFailed
    end
  else inl InvalidURL.

(** *** Fix SEO issues *)

Module FixIssue.
Record t : Type := {
  check_id : string;
  fix_instruction : string
}.
End FixIssue.

Module FixReport.
Record t : Type := {
  original_size : Z;
  fixed_size : Z;
  changes : list string
}.
End FixReport.

(** What a call can throw: the [File not found] error of the guard, or
    the [SyntaxError] of [new RegExp] on a pattern text that is not a
    pattern. *)
Inductive error : Type :=
| FileNotFound (filePath : string)
| RegExpSyntaxError.

Inductive result (A : Type) : Type :=
| Ok (a : A)
| Throw (e : error).
Arguments Ok {A} a.
Arguments Throw {A} e.

(** [extractMeta(content, name)] where [name] comes from the caller.
    For a [name] with a character that has a meaning in a pattern, or
    that is not ASCII, the outcome is what the regular-expression engine
    makes of the spliced pattern text: it is left open as the parameter
    [engine], which gives the value of the call, or [None] when the
    pattern text is rejected with a [SyntaxError]. *)
Definition Engine : Type := string -> string -> option (option string).

Definition extractMeta_of_caller (engine : Engine) (content name : string)
  : result (option string) :=
  if is_plain name then Ok (extractMeta content name)
  else
    match engine content name with
    | Some value => Ok value
    | None => Throw RegExpSyntaxError
    end.

(** The four pattern texts [extractMeta] hands to [new RegExp], with
    [name] spliced in as it is. *)
Definition either_quote : string := "[" +:+ dq +:+ "']".

Definition meta_source_attr_first (attr name : string) : string :=
  "<meta\s[^>]*" +:+ attr +:+ "=" +:+ either_quote +:+ name +:+ either_quote
    +:+ "[^>]*content=" +:+ either_quote +:+ "([^" +:+ dq +:+ "']*)" +:+ either_quote.

Definition meta_source_content_first (attr name : string) : string :=
  "<meta\s[^>]*content=" +:+ either_quote +:+ "([^" +:+ dq +:+ "']*)" +:+ either_quote
    +:+ "[^>]*" +:+ attr +:+ "=" +:+ either_quote +:+ name +:+ either_quote.

Definition meta_sources (name : string) : list string :=
  [meta_source_attr_first "name" name; meta_source_content_first "name" name;
   meta_source_attr_first "property" name; meta_source_content_first "property" name].

(** An engine of the language rejects a pattern text whose groups do not
    pair up. *)
Definition conforming (engine : Engine) : Prop :=
  forall content name : string,
    forallb groups_pair_up (meta_sources name) = false -> engine content name = None.

(** The document text and the change log while the issues are applied. *)
Definition Draft : Type := string * list string.

Definition nonempty (s : string) : bool :=
  match s with EmptyString => false | String _ _ => true end.

Definition fix_title (check_id fix_instruction : string) (domain businessName : option string)
    (d : Draft) : Draft :=
  let '(content, changes) := d in
  if startsWith check_id "2_01" && negb (includes content "<title>") then
    let titleText :=
      if nonempty fix_instruction then fix_instruction
      else or_else businessName "Website" +:+ " | " +:+ or_else domain EmptyString in
    (replace (lit "<head>") ("<head>" +:+ LF +:+ "    <title>" +:+ titleText +:+ "</title>")
       content,
     changes ++ ["Added title tag: " +:+ dq +:+ titleText +:+ dq])
  else d.

Definition fix_description (check_id fix_instruction : string) (businessName : option string)
    (d : Draft) : Draft :=
  let '(content, changes) := d in
  if startsWith check_id "2_02" && negb (truthy (extractMeta content "description")) then
    let descText :=
      if nonempty fix_instruction then fix_instruction
      else or_else businessName "Website" +:+ " - Professional services. Contact us today." in
    (replace (lit "</title>")
       ("</title>" +:+ LF +:+ "    <meta name=" +:+ dq +:+ "description" +:+ dq +:+ " content="
          +:+ dq +:+ descText +:+ dq +:+ ">")
       content,
     changes ++ ["Added meta description"])
  else d.

Definition fix_canonical (check_id fix_instruction : string) (domain : option string)
    (d : Draft) : Draft :=
  let '(content, changes) := d in
  if startsWith check_id "1_06"
     && negb (includes content ("rel=" +:+ dq +:+ "canonical" +:+ dq))
     && negb (includes content "rel='canonical'") then
    let canonical :=
      if truthy domain then "https://" +:+ or_else domain EmptyString +:+ "/" else fix_instruction in
    (replace (lit "</title>")
       ("</title>" +:+ LF +:+ "    <link rel=" +:+ dq +:+ "canonical" +:+ dq +:+ " href="
          +:+ dq +:+ canonical +:+ dq +:+ ">")
       content,
     changes ++ ["Added canonical tag: " +:+ canonical])
  else d.

Definition fix_robots (check_id : string) (d : Draft) : Draft :=
  let '(content, changes) := d in
  if startsWith check_id "1_07" && negb (truthy (extractMeta content "robots")) then
    (replace (lit "</title>")
       ("</title>" +:+ LF +:+ "    <meta name=" +:+ dq +:+ "robots" +:+ dq +:+ " content="
          +:+ dq +:+ "index, follow" +:+ dq +:+ ">")
       content,
     changes ++ ["Added meta robots: index, follow"])
  else d.

Definition fix_viewport (check_id : string) (d : Draft) : Draft :=
  let '(content, changes) := d in
  if startsWith check_id "1_13" && negb (truthy (extractMeta content "viewport")) then
    (replace (lit "<head>")
       ("<head>" +:+ LF +:+ "    <meta name=" +:+ dq +:+ "viewport" +:+ dq +:+ " content="
          +:+ dq +:+ "width=device-width, initial-scale=1.0" +:+ dq +:+ ">")
       content,
     changes ++ ["Added viewport meta tag"])
  else d.

Definition fix_charset (check_id : string) (d : Draft) : Draft :=
  let '(content, changes) := d in
  if startsWith check_id "1_14" && negb (includes content "charset") then
    (replace (lit "<head>")
       ("<head>" +:+ LF +:+ "    <meta charset=" +:+ dq +:+ "UTF-8" +:+ dq +:+ ">")
       content,
     changes ++ ["Added charset UTF-8"])
  else d.

(** Generic OG tag fix *)
Definition fix_og (engine : Engine) (check_id fix_instruction : string) (d : Draft)
  : result Draft :=
  let '(content, changes) := d in
  if startsWith check_id "4_" && includes check_id "og_" then
    let ogProp := split_colon_head fix_instruction in
    if nonempty ogProp then
      match extractMeta_of_caller engine content ogProp with
      | Throw e => Throw e
      | Ok found =>
          if negb (truthy found) then
            let ogValue := trim (split_colon_tail fix_instruction) in
            if nonempty ogValue then
              Ok (replace (lit "</head>")
                    ("    <meta property=" +:+ dq +:+ ogProp +:+ dq +:+ " content=" +:+ dq
                       +:+ ogValue +:+ dq +:+ ">" +:+ LF +:+ "</head>")
                    content,
                  changes ++ ["Added " +:+ ogProp +:+ " tag"])
            else Ok d
          else Ok d
      end
    else Ok d
  else Ok d.

Definition fix_lang (check_id : string) (d : Draft) : Draft :=
  let '(content, changes) := d in
  if startsWith check_id "1_15"
     && negb (test (seq_of [lit "<html"; Rep not_gt; lit "lang="]) content) then
    (replace (lit "<html") ("<html lang=" +:+ dq +:+ "en" +:+ dq) content,
     changes ++ ["Added lang=" +:+ dq +:+ "en" +:+ dq +:+ " to <html>"])
  else d.

(** The body of the loop: the eight guarded fixes, in the order of the
    source, applied for one issue. *)
Definition apply_issue (engine : Engine) (domain businessName : option string)
    (issue : FixIssue.t) (d : Draft) : result Draft :=
  let check_id := FixIssue.check_id issue in
  let fix_instruction := FixIssue.fix_instruction issue in
  let d := fix_title check_id fix_instruction domain businessName d in
  let d := fix_description check_id fix_instruction businessName d in
  let d := fix_canonical check_id fix_instruction domain d in
  let d := fix_robots check_id d in
  let d := fix_viewport check_id d in
  let d := fix_charset check_id d in
  match fix_og engine check_id fix_instruction d with
  | Throw e => Throw e
  | Ok d => Ok (fix_lang check_id d)
  end.

Fixpoint apply_issues (engine : Engine) (domain businessName : option string)
    (issues : list FixIssue.t) (d : Draft) : result Draft :=
  match issues with
  | [] => Ok d
  | issue :: rest =>
      match apply_issue engine domain businessName issue d with
      | Throw e => Throw e
      | Ok d' => apply_issues engine domain businessName rest d'
      end
  end.

(** [fixSeoIssues]: the outcome of the call and the files after it;
    [files] holds the text of every path that exists. *)
Definition fixSeoIssues (engine : Engine) (files : gmap string string) (filePath : string)
    (issues : list FixIssue.t) (domain businessName : option string)
  : result FixReport.t * gmap string string :=
  match files !! filePath with
  | None => (Throw (FileNotFound filePath), files)
  | Some content =>
      let originalSize := length content in
      match apply_issues engine domain businessName issues (content, []) with
      | Throw e => (Throw e, files)
      | Ok (content', changes) =>
          (Ok {| FixReport.original_size := originalSize;
                 FixReport.fixed_size := length content';
                 FixReport.changes := changes |},
           <[filePath := content']> files)
      end
  end.

End Auditor.

(** ** Loading the checklist ([templates.ts]) *)

Module ChecklistStore.
Import JsString RegExp.

(** A top-level entry of the parsed checklist file: its [items] are absent
    (or falsy) for an entry that is not a section. *)
Record Entry : Type := {
  label : string;
  description : string;
  items : option (gmap string Templates.ChecklistItem)
}.

(** What [JSON.parse] makes of a file: a [SyntaxError], or a value, which
    is [None] when it is falsy ([null] and the like). *)
Inductive parsed : Type :=
| ParseError
| Value (checklist : option (gmap string Entry)).

(** The part of the process the loader reads: two environment variables,
    the directory of the module and the working directory. *)
Record Process : Type := {
  CHECKLIST_PATH : option string;
  HOME : option string;
  dirname : string;
  cwd : string
}.

Section Load.
(** [path.join] and [JSON.parse] belong to the platform. *)
Variable join : string -> string -> string.
Variable parse : string -> parsed.

Definition pathsToTry (env : Process) : list string :=
  (if truthy (CHECKLIST_PATH env) then [or_else (CHECKLIST_PATH env) EmptyString] else [])
  ++ [join (dirname env) "../360_seo_master_checklist.json";
      join (cwd env) "360_seo_master_checklist.json"]
  ++ (if truthy (HOME env)
      then [join (or_else (HOME env) EmptyString)
              "Desktop/LeadHorizon/360_seo_master_checklist.json"]
      else []).

(** The loop over the paths: [Some v] when a file exists and parses to
    [v], which is then returned; a missing file and a parse error both
    move on to the next path. *)
Fixpoint try_paths (files : gmap string string) (paths : list string)
  : option (option (gmap string Entry)) :=
  match paths with
  | [] => None
  | tryPath :: rest =>
      match files !! tryPath with
      | Some raw =>
          match parse raw with
          | Value v => Some v
          | ParseError => try_paths files rest
          end
      | None => try_paths files rest
      end
  end.

(** [loadChecklist()]: the value returned and the new [cachedChecklist]. *)
Definition loadChecklist (env : Process) (files : gmap string string)
    (cachedChecklist : option (gmap string Entry))
  : option (gmap string Entry) * option (gmap string Entry) :=
  match cachedChecklist with
  | Some c => (Some c, cachedChecklist)
  | None =>
      match try_paths files (pathsToTry env) with
      | Some v => (v, v)
      | None => (None, None)
      end
  end.
End Load.

(** [key.match(/^\d+_/)] *)
Definition is_section_key (key : string) : bool :=
  match match_here (seq_of [plus is_digit; lit "_"]) None 0%nat key with
  | Some _ => true
  | None => false
  end.

(** What [getAuditSections] keeps of one entry. *)
Definition section_of (key : string) (e : Entry) : option Templates.ChecklistSection :=
  if is_section_key key && negb (String.eqb key "0_website_builder_system") then
    match items e with
    | Some its =>
        Some {| Templates.label := label e; Templates.description := description e;
                Templates.items := its |}
    | None => None
    end
  else None.

(** [getAuditSections()], given what [loadChecklist()] returned. *)
Definition getAuditSections (checklist : option (gmap string Entry))
  : gmap string Templates.ChecklistSection :=
  match checklist with
  | None => ∅
  | Some c => map_imap section_of c
  end.

End ChecklistStore.

(** ** The tool handler of the remediation ([index.ts]) *)

Module Server.
Import JsString Auditor.

Inductive ErrorCode : Type := InvalidParams | InternalError | MethodNotFound.

(** The message of an error: a text of the program, or the text the
    regular-expression engine gives its [SyntaxError]. *)
Inductive Message : Type :=
| Text (s : string)
| EngineText.

Record McpError : Type := { code : ErrorCode; message : Message }.

(** The arguments of [fix_seo_issues] as the handler casts them. *)
Record FixArgs : Type := {
  file_path : option string;
  issues_list : option (list FixIssue.t);
  domain : option string;
  business_name : option string
}.

(** The object the handler serialises on success. *)
Record FixResponse : Type := {
  status : string;
  file : string;
  report : FixReport.t
}.

(** [err.message] of what [fixSeoIssues] throws. *)
Definition error_message (e : error) : Message :=
  match e with
  | FileNotFound filePath => Text ("File not found: " +:+ filePath)
  | RegExpSyntaxError => EngineText
  end.

(** The case [fix_seo_issues] of the request handler, with the [catch]
    that wraps every error that is not an [McpError]. *)
Definition fix_seo_issues (engine : Engine) (files : gmap string string) (args : FixArgs)
  : (McpError + FixResponse) * gmap string string :=
  match file_path args, issues_list args with
  | Some (String c p), Some issuesList =>
      let filePath := String c p in
      match fixSeoIssues engine files filePath issuesList (domain args) (business_name args) with
      | (Ok result, files') =>
          (inr {| status := "success"; file := filePath; report := result |}, files')
      | (Throw e, files') =>
          (inl {| code := InternalError; message := error_message e |}, files')
      end
  | _, _ =>
      (inl {| code := InvalidParams;
              message := Text "file_path and issues_list are required" |},
       files)
  end.

End Server.

(** ** What the specification says, in terms of the audit's data *)

Module Spec.
Import JsString Auditor.

Definition status_eqb (a b : Status) : bool :=
  match a, b with
  | done, done | missing, missing | partial, partial | not_applicable, not_applicable => true
  | _, _ => false
  end.

(** The evaluated items, in the order the audit goes through them. *)
Definition evaluated (checks : list (string * list (string * ItemResult.t)))
  : list (string * ItemResult.t) :=
  flat_map snd checks.

(** How many evaluated items have a given status. *)
Definition count (s : Status) (entries : list (string * ItemResult.t)) : Z :=
  Z.of_nat (List.length (List.filter (fun e => status_eqb (ItemResult.status (snd e)) s) entries)).

(** The fix entry of one evaluated item. *)
Definition fix_of (sectionLabel : string) (e : string * ItemResult.t) : PriorityFix.t :=
  {| PriorityFix.check_id := fst e;
     PriorityFix.check := ItemResult.check (snd e);
     PriorityFix.priority := ItemResult.priority (snd e);
     PriorityFix.how_to_fix := ItemResult.how_to_fix (snd e);
     PriorityFix.section := sectionLabel |}.

(** One entry for every item that is missing or partial, in evaluation
    order: section by section, and inside a section in the order of its
    entries. *)
Definition fixes_of_section (auditSections : Checklist)
    (entry : string * list (string * ItemResult.t)) : list PriorityFix.t :=
  map (fix_of (section_label auditSections (fst entry)))
      (List.filter (fun e => needs_fix (ItemResult.status (snd e))) (snd entry)).

Definition discovered (auditSections : Checklist)
    (checks : list (string * list (string * ItemResult.t))) : list PriorityFix.t :=
  flat_map (fixes_of_section auditSections) checks.

(** The rank of the specification: critical 0, high 1, medium 2, and low
    or anything else 3. *)
Definition rank (p : string) : Z :=
  if String.eqb p "critical" then 0
  else if String.eqb p "high" then 1
  else if String.eqb p "medium" then 2
  else 3.

Fixpoint nondecreasing (ranks : list Z) : bool :=
  match ranks with
  | a :: ((b :: _) as rest) => (a <=? b) && nondecreasing rest
  | _ => true
  end.

(** The queue is sorted by the rank of the specification. *)
Definition sorted_by_rank (fixes : list PriorityFix.t) : bool :=
  nondecreasing (map (fun f => rank (PriorityFix.priority f)) fixes).

(** [n / d] rounded to the nearest integer, a tie going up. *)
Definition round_half_up (n d : Z) : Z := (2 * n + d) / (2 * d).

(** The score of the specification. *)
Definition score (passed total_checks not_applicable : Z) : Z :=
  let applicable := total_checks - not_applicable in
  if 0 <? applicable then round_half_up (passed * 100) applicable else 0.

(** The computed score agrees with the score of the specification. *)
Definition score_agrees (passed applicable : Z) : bool :=
  Number.eqb (scorePercentage passed applicable)
    (Number.of_Z (round_half_up (passed * 100) applicable)).

(** The agreement for every count of passed checks up to the number of
    applicable ones, for the numbers of applicable checks from [lo] on. *)
Definition score_table (lo : nat) (n : nat) : bool :=
  forallb
    (fun a => forallb (fun p => score_agrees (Z.of_nat p) (Z.of_nat a)) (List.seq 0 (S a)))
    (List.seq lo n).

(** The status the length of a text field gets by the letter of the
    specification: present and inside the range, present and outside, or
    absent. *)
Definition length_status (lo hi : Z) (field : option string) : Status :=
  match field with
  | Some text => if (lo <=? length text) && (length text <=? hi) then done else partial
  | None => missing
  end.


(** The status of a count-based check by the letter of the
    specification, [n] of [m] elements qualifying: not applicable for
    [m = 0], done for [n = m], partial for [0 < n < m], missing for
    [n = 0]; nothing is said of other counts. *)
Definition count_status (n m : Z) : option Status :=
  if m =? 0 then Some not_applicable
  else if n =? m then Some done
  else if (0 <? n) && (n <? m) then Some partial
  else if n =? 0 then Some missing
  else None.

(** The report of a call that returned. *)
Definition report_of (outcome : result FixReport.t) : option FixReport.t :=
  match outcome with
  | Ok report => Some report
  | Throw _ => None
  end.

(** The status of a check in the result of an evaluator. *)
Definition status_of (results : list (string * ItemResult.t)) (id : string) : option Status :=
  ItemResult.status <$> rec_get results id.

(** The details text of a check in the result of an evaluator. *)
Definition details_of (results : list (string * ItemResult.t)) (id : string) : option string :=
  ItemResult.details <$> rec_get results id.

(** An issue that no fix of [fixSeoIssues] is guarded for. *)
Definition unrouted (check_id : string) : bool :=
  negb (startsWith check_id "2_01") && negb (startsWith check_id "2_02")
  && negb (startsWith check_id "1_06") && negb (startsWith check_id "1_07")
  && negb (startsWith check_id "1_13") && negb (startsWith check_id "1_14")
  && negb (startsWith check_id "4_" && includes check_id "og_")
  && negb (startsWith check_id "1_15").

(** An element, given by the text of its tag, has an attribute when the
    attribute name stands in it after a space and before an equals
    sign. *)
Definition has_attribute (element name : string) : bool :=
  includes element (" " +:+ name +:+ "=").

Definition has_dimensions (element : string) : bool :=
  has_attribute element "width" && has_attribute element "height".

(** How many of the elements satisfy a property. *)
Definition qualifying (property : string -> bool) (elements : list string) : Z :=
  Z.of_nat (List.length (List.filter property elements)).

(** The status of a count-based check on a document with the given img
    elements, by the letter of the specification. *)
Definition image_status (property : string -> bool) (elements : list string)
  : option Status :=
  count_status (qualifying property elements) (Z.of_nat (List.length elements)).

(** The counters after a pass over the entries of one section. *)
Record tallied (c c' : Counters.t) (fixes : list PriorityFix.t)
    (entries : list (string * ItemResult.t)) : Prop := {
  tallied_total :
    Counters.totalChecks c' = Counters.totalChecks c + Z.of_nat (List.length entries);
  tallied_passed : Counters.passed c' = Counters.passed c + Spec.count done entries;
  tallied_failed : Counters.failed c' = Counters.failed c + Spec.count missing entries;
  tallied_partial : Counters.partial c' = Counters.partial c + Spec.count partial entries;
  tallied_na : Counters.na c' = Counters.na c + Spec.count not_applicable entries;
  tallied_fixes : Counters.priorityFixes c' = Counters.priorityFixes c ++ fixes
}.

End Spec.

(** ** Sample inputs *)

Module Examples.
Import JsString Auditor.

(** An engine that rejects every pattern; no sample consults it. *)
Definition no_engine : Engine := fun _ _ => None.

Definition path : string := "/var/www/index.html".
Definition timestamp : string := "2024-01-01T00:00:00.000Z".

Definition issue (check_id fix_instruction : string) : FixIssue.t :=
  {| FixIssue.check_id := check_id; FixIssue.fix_instruction := fix_instruction |}.

(** A page with a head but no title, served over plain HTTP. *)
Definition bare_page : string :=
  "<html><head></head><body><h1>Welcome</h1></body></html>".

(** A page without a head element. *)
Definition headless_page : string := "<html><body><h1>Welcome</h1></body></html>".

Definition titled_page : string :=
  "<html><head><title>Example</title></head><body></body></html>".




Definition title_issue : FixIssue.t := issue "2_01_title_tag" "Welcome to Example".

(** A description that starts with a quotation mark. *)
Definition quoted_description_issue : FixIssue.t :=
  issue "2_02_meta_description" "'Best' pizza in town".

Definition og_issue : FixIssue.t := issue "4_02_og_title" "og:title: Example".

Definition unknown_issue : FixIssue.t := issue "9_99_unknown" "anything".

(** An Open Graph issue whose property name opens a group. *)
Definition open_group_issue : FixIssue.t := issue "4_01_og_title" "og(title: Example".

(** A description of 116 characters with an apostrophe in it, and a page
    with a title and this description. *)
Definition apostrophe_description : string :=
  "We're a family bakery in the old town, baking sourdough bread, rye loaves and butter croissants fresh every morning.".

Definition described_page : string :=
  "<html><head><title>Bakery</title><meta name=" +:+ dq +:+ "description" +:+ dq
    +:+ " content=" +:+ dq +:+ apostrophe_description +:+ dq
    +:+ "></head><body></body></html>".

(** A title of 45 characters in a title element that has an attribute. *)
Definition title_of_45 : string := "A page title of exactly forty-five characters".

Definition attributed_title_page : string :=
  "<html><head><title lang='en'>" +:+ title_of_45 +:+ "</title></head></html>".

(** Two img elements, the first with both dimensions and a data
    attribute, the second with neither dimension. *)
Definition sized_img : string := "<img src='a.png' width='10' height='20' data-width='30'>".
Definition unsized_img : string := "<img src='b.png'>".
Definition gallery : list string := [sized_img; unsized_img].
Definition gallery_page : string := "<body>" +:+ sized_img +:+ unsized_img +:+ "</body>".

(** One img element without alt text, with a data attribute. *)
Definition captioned_img : string := "<img src='c.png' data-alt='caption'>".
Definition captioned_page : string := "<body>" +:+ captioned_img +:+ "</body>".

(** A URL parser cut down to the one address the samples audit. *)
Definition is_example_url (url : string) : bool := String.eqb url "https://example.com".

End Examples.

(** ** Readings of the code used by the further properties *)

Module Derived.
Import JsString RegExp Auditor.

(** The rank the comparator of the sort gives a fix, when it is a number. *)
Definition effective_rank (f : PriorityFix.t) : Z :=
  match rank_or_3 (PriorityFix.priority f) with
  | Some n => n
  | None => 3
  end.

(** The comparator gives a number on this fix: its priority is not the
    name of a member of [Object.prototype]. *)
Definition comparable (f : PriorityFix.t) : bool :=
  match rank_or_3 (PriorityFix.priority f) with
  | Some _ => true
  | None => false
  end.

Definition has_rank (k : Z) (f : PriorityFix.t) : bool := effective_rank f =? k.

(** The checks of an audit: the keys the nine evaluators set, section by
    section, in the order they set them. *)
Definition check_ids : list (string * list string) :=
  [("1_technical_seo", ["1_01_https"; "1_03_robots_txt"; "1_04_sitemap_xml";
      "1_06_canonical_tags"; "1_07_meta_robots"; "1_13_viewport_meta"; "1_14_charset";
      "1_15_lang_attribute"]);
   ("2_on_page_seo", ["2_01_title_tag"; "2_02_meta_description"; "2_03_h1_tag";
      "2_04_heading_hierarchy"; "2_07_image_alt_tags"; "2_08_image_dimensions";
      "2_11_image_lazy_loading"; "2_20_favicon"]);
   ("3_structured_data_schema", ["3_01_organization_schema"; "3_02_local_business_schema";
      "3_03_breadcrumb_schema"; "3_04_faq_schema"; "3_05_article_schema";
      "3_10_speakable_schema"]);
   ("4_open_graph_social", ["4_01_og_type"; "4_02_og_title"; "4_03_og_description";
      "4_04_og_image"; "4_05_og_url"; "4_08_twitter_card"]);
   ("7_performance_core_web_vitals", ["7_01_gzip_compression"; "7_07_preload_lcp";
      "7_08_preconnect"; "7_09_defer_js"; "7_11_font_optimization"]);
   ("8_security", ["8_01_hsts"; "8_02_x_content_type"; "8_03_x_frame_options";
      "8_04_xss_protection"; "8_05_referrer_policy"; "8_07_csp"]);
   ("11_ux_cro", ["11_01_cta_visibility"; "11_04_phone_clickable"; "11_05_whatsapp_button";
      "11_03_contact_form"; "11_09_cookie_consent"]);
   ("15_accessibility", ["15_01_aria_labels"; "15_06_semantic_html"; "15_04_form_labels"]);
   ("16_legal_compliance", ["16_01_privacy_policy"; "16_02_terms_of_service";
      "16_04_copyright_notice"])].

(** The entry [sectionResults[sectionKey]] of one section. *)
Definition section_result (auditSections : Checklist)
    (entry : string * list (string * ItemResult.t)) : SectionResult.t :=
  {| SectionResult.label := section_label auditSections (fst entry);
     SectionResult.total := Z.of_nat (List.length (snd entry));
     SectionResult.passed := Spec.count done (snd entry);
     SectionResult.failed := Spec.count missing (snd entry) + Spec.count partial (snd entry);
     SectionResult.items := snd entry |}.

(** The sum of one field over the sections of a result. *)
Definition sum_over (field : SectionResult.t -> Z) (sections : list (string * SectionResult.t))
  : Z :=
  fold_right (fun s acc => field (snd s) + acc) 0 sections.

(** The status of every check, by check id. *)
Definition statuses (entries : list (string * ItemResult.t)) : list (string * Status) :=
  map (fun e => (fst e, ItemResult.status (snd e))) entries.

(** The status of a check in a result. *)
Definition status_in (r : AuditResult.t) (sectionKey checkId : string) : option Status :=
  match rec_get (AuditResult.sections r) sectionKey with
  | Some s => ItemResult.status <$> rec_get (SectionResult.items s) checkId
  | None => None
  end.

(** The extreme scores are reached only by the extreme counts: for every
    count of applicable checks from [lo] on and every count of passed
    ones, the rounded ratio is 100 only when all passed and 0 only when
    none did, and its double is that of 100 or of 0 only then. *)
Definition extremes_agree (passed applicable : Z) : bool :=
  let score := Spec.round_half_up (passed * 100) applicable in
  Bool.eqb (Number.eqb (Number.of_Z score) (Number.of_Z 100)) (passed =? applicable)
  && Bool.eqb (Number.eqb (Number.of_Z score) (Number.of_Z 0)) (passed =? 0).

Definition extremes_table (lo n : nat) : bool :=
  forallb
    (fun a => forallb (fun p => extremes_agree (Z.of_nat p) (Z.of_nat a)) (List.seq 0 (S a)))
    (List.seq lo n).

(** A step of the remediation only appends to the change log, and what it
    appends does not depend on the log so far. *)
Definition framed (f : Draft -> Draft) : Prop :=
  forall (content : string) (changes : list string),
    f (content, changes)
    = (fst (f (content, [])), changes ++ snd (f (content, []))).

(** The same for a step that can throw. *)
Definition framed_result (f : Draft -> result Draft) : Prop :=
  forall (content : string) (changes : list string),
    f (content, changes)
    = match f (content, []) with
      | Ok d => Ok (fst d, changes ++ snd d)
      | Throw e => Throw e
      end.

(** A step that logs nothing leaves the text as it is. *)
Definition quiet (f : Draft -> Draft) : Prop :=
  forall content : string, snd (f (content, [])) = [] -> fst (f (content, [])) = content.

Definition quiet_result (f : Draft -> result Draft) : Prop :=
  forall (content : string) (d : Draft),
    f (content, []) = Ok d -> snd d = [] -> fst d = content.

(** A step logs at most [n] changes. *)
Definition logs_at_most (n : nat) (f : Draft -> Draft) : Prop :=
  forall content : string, (List.length (snd (f (content, []))) <= n)%nat.

Definition logs_at_most_result (n : nat) (f : Draft -> result Draft) : Prop :=
  forall (content : string) (d : Draft),
    f (content, []) = Ok d -> (List.length (snd d) <= n)%nat.

Definition b2n (b : bool) : nat := if b then 1%nat else 0%nat.

(** How many of the eight fixes are guarded for a check id. *)
Definition routes (check_id : string) : nat :=
  (b2n (startsWith check_id "2_01") + b2n (startsWith check_id "2_02")
   + b2n (startsWith check_id "1_06") + b2n (startsWith check_id "1_07")
   + b2n (startsWith check_id "1_13") + b2n (startsWith check_id "1_14")
   + b2n (startsWith check_id "4_" && includes check_id "og_")
   + b2n (startsWith check_id "1_15"))%nat.

(** A text without a dollar sign. *)
Fixpoint dollar_free (t : string) : bool :=
  match t with
  | EmptyString => true
  | String c t' => negb (is_code 36 c) && dollar_free t'
  end.


(** The fixes that are guarded by a plain text search, with the prefix of
    their check ids and the anchor they insert at. *)
Definition anchored_fixes : list (string * string) :=
  [("2_01", "<head>"); ("1_06", "</title>"); ("1_14", "<head>"); ("1_15", "<html")].

(** The pattern has no match at any of the next [n] positions. *)
Definition no_match_ahead (r : regex) (s : string) (n : nat) : Prop :=
  forall (i : nat) prev pos, (i < n)%nat -> match_here r prev pos (drop i s) = None.

(** The pattern of [imgTotal]; the patterns that count the images with a
    property all start with it. *)
Definition img_tag : regex := seq_of [lit "<img"; Chr is_space].

(** The fixes whose check the technical audit reads off the document: the
    prefix of their check ids, the anchor they insert at, and the check. *)
Definition repairs : list (string * string * string) :=
  [("1_06", "</title>", "1_06_canonical_tags"); ("1_13", "<head>", "1_13_viewport_meta");
   ("1_14", "<head>", "1_14_charset"); ("1_15", "<html", "1_15_lang_attribute")].





End Derived.

(** * Properties *)

Import JsString RegExp Auditor.

(** ** The tallies of the audit loops *)

Section Tally.

Lemma count_cons (s : Status) (e : string * ItemResult.t) (l : list (string * ItemResult.t)) :
  Spec.count s (e :: l) =
  (if Spec.status_eqb (ItemResult.status (snd e)) s then 1 else 0) + Spec.count s l.
Proof.
  unfold Spec.count. cbn [List.filter].
  destruct (Spec.status_eqb (ItemResult.status (snd e)) s);
    cbn [List.length]; rewrite ?Nat2Z.inj_succ; lia.
Qed.

Lemma count_app (s : Status) (l1 l2 : list (string * ItemResult.t)) :
  Spec.count s (l1 ++ l2) = Spec.count s l1 + Spec.count s l2.
Proof.
  induction l1 as [|e l1 IH]; [reflexivity|].
  simpl app. rewrite !count_cons, IH. lia.
Qed.

Lemma count_nonneg (s : Status) (l : list (string * ItemResult.t)) : 0 <= Spec.count s l.
Proof. unfold Spec.count. lia. Qed.

(** Every item falls in exactly one of the four statuses. *)
Lemma count_partition (l : list (string * ItemResult.t)) :
  Z.of_nat (List.length l) =
  Spec.count done l + Spec.count missing l + Spec.count partial l
  + Spec.count not_applicable l.
Proof.
  induction l as [|e l IH]; [reflexivity|].
  rewrite !count_cons. simpl List.length. rewrite Nat2Z.inj_succ, IH.
  destruct (ItemResult.status (snd e)); simpl; lia.
Qed.

Lemma tallied_nil (c : Counters.t) : Spec.tallied c c [] [].
Proof.
  split; unfold Spec.count; simpl; try lia. now rewrite app_nil_r.
Qed.

Lemma tallied_trans (c1 c2 c3 : Counters.t) (f1 f2 : list PriorityFix.t)
    (l1 l2 : list (string * ItemResult.t)) :
  Spec.tallied c1 c2 f1 l1 -> Spec.tallied c2 c3 f2 l2 -> Spec.tallied c1 c3 (f1 ++ f2) (l1 ++ l2).
Proof.
  intros [a1 a2 a3 a4 a5 a6] [b1 b2 b3 b4 b5 b6].
  split; rewrite ?count_app, ?length_app, ?Nat2Z.inj_add; try lia.
  now rewrite b6, a6, app_assoc.
Qed.

Lemma count_check_tallied (sectionLabel : string) (c : Counters.t) (sp sf : Z)
    (e : string * ItemResult.t) :
  Spec.tallied c (fst (count_check sectionLabel (c, (sp, sf)) e))
    (map (Spec.fix_of sectionLabel)
       (List.filter (fun e => needs_fix (ItemResult.status (snd e))) [e]))
    [e].
Proof.
  destruct e as [checkId result]. unfold count_check.
  split; rewrite ?count_cons; unfold Spec.count; simpl;
    destruct (ItemResult.status result); simpl; try lia;
    now rewrite ?app_nil_r.
Qed.

Lemma fold_count_check_tallied (sectionLabel : string) (entries : list (string * ItemResult.t)) :
  forall (c : Counters.t) (sp sf : Z),
    Spec.tallied c (fst (fold_left (count_check sectionLabel) entries (c, (sp, sf))))
      (map (Spec.fix_of sectionLabel)
         (List.filter (fun e => needs_fix (ItemResult.status (snd e))) entries))
      entries.
Proof.
  induction entries as [|e entries IH]; intros c sp sf.
  - apply tallied_nil.
  - cbn [fold_left].
    pose proof (count_check_tallied sectionLabel c sp sf e) as Hone.
    destruct (count_check sectionLabel (c, (sp, sf)) e) as [c1 [sp1 sf1]] eqn:E.
    specialize (IH c1 sp1 sf1).
    change (e :: entries) with ([e] ++ entries).
    rewrite List.filter_app, map_app.
    eapply tallied_trans; [exact Hone | exact IH].
Qed.

Lemma count_section_tallied (auditSections : Checklist) (c : Counters.t)
    (sectionResults : list (string * SectionResult.t))
    (entry : string * list (string * ItemResult.t)) :
  Spec.tallied c (fst (count_section auditSections (c, sectionResults) entry))
    (Spec.fixes_of_section auditSections entry) (snd entry).
Proof.
  destruct entry as [sectionKey checkResults]. unfold count_section.
  pose proof (fold_count_check_tallied (section_label auditSections sectionKey)
                checkResults c 0 0) as H.
  destruct (fold_left _ checkResults (c, (0, 0))) as [c1 [sp1 sf1]].
  exact H.
Qed.

Lemma fold_count_section_tallied (auditSections : Checklist)
    (checks : list (string * list (string * ItemResult.t))) :
  forall (c : Counters.t) (sectionResults : list (string * SectionResult.t)),
    Spec.tallied c (fst (fold_left (count_section auditSections) checks (c, sectionResults)))
      (Spec.discovered auditSections checks) (Spec.evaluated checks).
Proof.
  induction checks as [|entry checks IH]; intros c sectionResults.
  - apply tallied_nil.
  - cbn [fold_left].
    pose proof (count_section_tallied auditSections c sectionResults entry) as Hone.
    destruct (count_section auditSections (c, sectionResults) entry) as [c1 sr1].
    unfold Spec.discovered, Spec.evaluated. simpl flat_map.
    eapply tallied_trans; [exact Hone | apply IH].
Qed.

End Tally.

(** ** The sort of the priority queue *)

Section SortFacts.
Context {A : Type} (comparefn : A -> A -> option Z).

Lemma insert_permutation (x : A) (sorted : list A) :
  Permutation (insert comparefn x sorted) (x :: sorted).
Proof.
  induction sorted as [|y rest IH]; cbn [insert].
  - reflexivity.
  - destruct (before comparefn x y).
    + reflexivity.
    + rewrite IH. apply perm_swap.
Qed.

Lemma fold_insert_permutation (l : list A) :
  forall sorted : list A,
    Permutation (fold_left (fun sorted x => insert comparefn x sorted) l sorted) (sorted ++ l).
Proof.
  induction l as [|x l IH]; intros sorted; cbn [fold_left].
  - now rewrite app_nil_r.
  - rewrite IH, insert_permutation. apply Permutation_middle.
Qed.

Lemma sort_permutation (l : list A) : Permutation (sort comparefn l) l.
Proof. unfold sort. now rewrite fold_insert_permutation. Qed.

End SortFacts.

(** ** The result of [auditWebsite] in terms of the evaluated items *)

Lemma auditWebsite_fields (auditSections : Checklist) (url html : string)
    (headers : gmap string string) (robotsTxt sitemapXml : option string) (timestamp : string) :
  let r := auditWebsite auditSections url html headers robotsTxt sitemapXml timestamp in
  let checks :=
    allChecks auditSections (normalize_url url) html headers robotsTxt sitemapXml in
  let entries := Spec.evaluated checks in
  AuditResult.total_checks r = Z.of_nat (List.length entries)
  /\ AuditResult.passed r = Spec.count done entries
  /\ AuditResult.failed r = Spec.count missing entries
  /\ AuditResult.partial r = Spec.count partial entries
  /\ AuditResult.not_applicable r = Spec.count not_applicable entries
  /\ AuditResult.priority_fixes r = sort compare_fixes (Spec.discovered auditSections checks)
  /\ AuditResult.score_percentage r =
     scorePercentage (AuditResult.passed r)
       (AuditResult.total_checks r - AuditResult.not_applicable r).
Proof.
  cbv zeta. unfold auditWebsite.
  pose proof (fold_count_section_tallied auditSections
                (allChecks auditSections (normalize_url url) html headers robotsTxt sitemapXml)
                no_counts []) as H.
  destruct (fold_left _ _ (no_counts, [])) as [c sectionResults].
  destruct H as [h1 h2 h3 h4 h5 h6]. cbn [fst] in *. cbn in h1, h2, h3, h4, h5, h6.
  cbn [AuditResult.total_checks AuditResult.passed AuditResult.failed AuditResult.partial
       AuditResult.not_applicable AuditResult.priority_fixes AuditResult.score_percentage].
  rewrite h1, h2, h3, h4, h5, h6. repeat split; reflexivity.
Qed.

(** C3. In every result of [auditWebsite] the total is exactly the sum of
    the four status counters: the total is the number of evaluated items,
    and each counter is the number of items with its own status (done,
    missing, partial, not applicable), so every item is counted once. *)
Theorem total_checks_is_sum_of_buckets (auditSections : Checklist) (url html : string)
    (headers : gmap string string) (robotsTxt sitemapXml : option string) (timestamp : string) :
  let r := auditWebsite auditSections url html headers robotsTxt sitemapXml timestamp in
  let entries :=
    Spec.evaluated
      (allChecks auditSections (normalize_url url) html headers robotsTxt sitemapXml) in
  AuditResult.total_checks r
  = AuditResult.passed r + AuditResult.failed r + AuditResult.partial r
    + AuditResult.not_applicable r
  /\ AuditResult.total_checks r = Z.of_nat (List.length entries)
  /\ AuditResult.passed r = Spec.count done entries
  /\ AuditResult.failed r = Spec.count missing entries
  /\ AuditResult.partial r = Spec.count partial entries
  /\ AuditResult.not_applicable r = Spec.count not_applicable entries.
Proof.
  cbv zeta.
  destruct (auditWebsite_fields auditSections url html headers robotsTxt sitemapXml timestamp)
    as (Ht & Hp & Hf & Hq & Hn & _).
  cbv zeta in *. rewrite Ht, Hp, Hf, Hq, Hn.
  split; [apply count_partition | repeat split].
Qed.

(** C5. The priority queue holds one entry for each evaluated item whose
    status is neither done nor not applicable, and nothing else: it is a
    rearrangement of the entries of the missing and partial items. *)
Theorem priority_fixes_are_the_failing_checks (auditSections : Checklist) (url html : string)
    (headers : gmap string string) (robotsTxt sitemapXml : option string) (timestamp : string) :
  let r := auditWebsite auditSections url html headers robotsTxt sitemapXml timestamp in
  let checks :=
    allChecks auditSections (normalize_url url) html headers robotsTxt sitemapXml in
  Permutation (AuditResult.priority_fixes r) (Spec.discovered auditSections checks)
  /\ (forall s : Status, needs_fix s = true <-> s <> done /\ s <> not_applicable)
  /\ (forall s : Status, needs_fix s = true <-> s = missing \/ s = partial).
Proof.
  cbv zeta.
  destruct (auditWebsite_fields auditSections url html headers robotsTxt sitemapXml timestamp)
    as (_ & _ & _ & _ & _ & Hfix & _).
  cbv zeta in Hfix. rewrite Hfix.
  split; [apply sort_permutation|].
  split; intros s; destruct s; cbn; intuition congruence.
Qed.

(** ** The shape of an audit: fifty checks, at most four not applicable *)

Lemma evaluated_length (auditSections : Checklist) (url html : string)
    (headers : gmap string string) (robotsTxt sitemapXml : option string) :
  List.length
    (Spec.evaluated (allChecks auditSections url html headers robotsTxt sitemapXml))
  = 50%nat.
Proof. reflexivity. Qed.

Lemma not_applicable_skip (e : string * ItemResult.t) (l : list (string * ItemResult.t))
    (n : Z) :
  ItemResult.status (snd e) <> not_applicable ->
  Spec.count not_applicable l <= n ->
  Spec.count not_applicable (e :: l) <= n.
Proof.
  intros H. rewrite count_cons.
  destruct (ItemResult.status (snd e)); cbn; try lia. congruence.
Qed.

Lemma not_applicable_step (e : string * ItemResult.t) (l : list (string * ItemResult.t))
    (n : Z) :
  Spec.count not_applicable l <= n - 1 ->
  Spec.count not_applicable (e :: l) <= n.
Proof. rewrite count_cons. destruct (Spec.status_eqb _ _); lia. Qed.

(** The status of the item at the head of the goal is built from
    conditionals none of whose branches is [not_applicable]. *)
Ltac never_not_applicable :=
  cbn [snd item ItemResult.status]; unfold done_or_missing;
  repeat match goal with |- context [if ?b then _ else _] => destruct b end;
  discriminate.

Ltac unfold_checks :=
  cbv [Spec.evaluated allChecks auditTechnicalSeo auditOnPageSeo auditSchema auditOgTags
       auditPerformance auditSecurity auditUxCro auditAccessibility auditLegal
       rec_set flat_map snd app fold_left String.eqb Ascii.eqb Bool.eqb].

(** Only the two image checks, the lazy-loading check and the form-label
    check can be not applicable. *)
Lemma not_applicable_at_most_4 (auditSections : Checklist) (url html : string)
    (headers : gmap string string) (robotsTxt sitemapXml : option string) :
  Spec.count not_applicable
    (Spec.evaluated (allChecks auditSections url html headers robotsTxt sitemapXml))
  <= 4.
Proof.
  unfold_checks.
  repeat first [ apply not_applicable_skip; [ never_not_applicable | ]
               | apply not_applicable_step ].
  unfold Spec.count. cbn. lia.
Qed.

(** ** The score *)

Lemma Number_eqb_eq (x y : spec_float) : Number.eqb x y = true -> x = y.
Proof.
  destruct x as [a|a| |a m e], y as [b|b| |b n f]; cbn; try discriminate; try reflexivity.
  - destruct a, b; cbn; congruence.
  - destruct a, b; cbn; congruence.
  - intros H. apply andb_prop in H as [H He]. apply andb_prop in H as [Hs Hm].
    apply Pos.eqb_eq in Hm. apply Z.eqb_eq in He.
    destruct a, b; cbn in Hs; congruence.
Qed.

Lemma score_table_46_50 : Spec.score_table 46 5 = true.
Proof. vm_compute. reflexivity. Qed.

Lemma score_agrees_46_50 (passed applicable : Z) :
  46 <= applicable <= 50 -> 0 <= passed <= applicable ->
  scorePercentage passed applicable
  = Number.of_Z (Spec.round_half_up (passed * 100) applicable).
Proof.
  intros Ha Hp. apply Number_eqb_eq.
  pose proof score_table_46_50 as T. unfold Spec.score_table in T.
  rewrite forallb_forall in T.
  specialize (T (Z.to_nat applicable)).
  rewrite forallb_forall in T.
  specialize (fun H => T H (Z.to_nat passed)).
  rewrite !Z2Nat.id in T by lia.
  apply T; apply in_seq; lia.
Qed.

Lemma round_half_up_percent (passed applicable : Z) :
  0 < applicable -> 0 <= passed <= applicable ->
  0 <= Spec.round_half_up (passed * 100) applicable <= 100.
Proof.
  intros Ha Hp. unfold Spec.round_half_up. split.
  - apply Z.div_pos; lia.
  - apply Z.lt_succ_r. apply Z.div_lt_upper_bound; lia.
Qed.

(** C4. The score of every audit result is the ratio of passed checks to
    applicable checks, in percent, rounded to the nearest integer (a tie
    going up); it is an integer between 0 and 100; and the score is 0
    when no check is applicable. *)
Theorem score_percentage_rounds_pass_ratio (auditSections : Checklist) (url html : string)
    (headers : gmap string string) (robotsTxt sitemapXml : option string) (timestamp : string) :
  let r := auditWebsite auditSections url html headers robotsTxt sitemapXml timestamp in
  let score :=
    Spec.score (AuditResult.passed r) (AuditResult.total_checks r)
      (AuditResult.not_applicable r) in
  AuditResult.score_percentage r = Number.of_Z score
  /\ 0 <= score <= 100
  /\ (forall passed : Z, scorePercentage passed 0 = Number.of_Z 0)
  /\ (forall passed total : Z, Spec.score passed total total = 0).
Proof.
  cbv zeta.
  destruct (auditWebsite_fields auditSections url html headers robotsTxt sitemapXml timestamp)
    as (Ht & Hp & Hf & Hq & Hn & _ & Hs).
  cbv zeta in *.
  pose proof (count_partition
                (Spec.evaluated
                   (allChecks auditSections (normalize_url url) html headers robotsTxt
                      sitemapXml))) as Hsum.
  pose proof (not_applicable_at_most_4 auditSections (normalize_url url) html headers
                robotsTxt sitemapXml) as Hna.
  rewrite evaluated_length in Ht, Hsum.
  set (entries := Spec.evaluated _) in *.
  pose proof (count_nonneg done entries). pose proof (count_nonneg missing entries).
  pose proof (count_nonneg partial entries). pose proof (count_nonneg not_applicable entries).
  rewrite Hs. rewrite Ht, Hp, Hn. unfold Spec.score.
  assert (Happ : (0 <? Z.of_nat 50 - Spec.count not_applicable entries) = true)
    by (apply Z.ltb_lt; lia).
  rewrite Happ.
  split; [apply score_agrees_46_50; lia|].
  split; [apply round_half_up_percent; lia|].
  split.
  - reflexivity.
  - intros passed total. now rewrite Z.sub_diag.
Qed.

(** ** Replacing a literal anchor *)

Section ReplaceFacts.

Lemma length_take (n : nat) (s : string) :
  String.length (take n s) = Nat.min n (String.length s).
Proof.
  revert s; induction n as [|n IH]; intros [|c s]; cbn; try reflexivity.
  now rewrite IH.
Qed.

Lemma length_drop (n : nat) (s : string) :
  String.length (drop n s) = (String.length s - n)%nat.
Proof.
  revert s; induction n as [|n IH]; intros [|c s]; cbn; try reflexivity. apply IH.
Qed.

Lemma length_app_string (s t : string) :
  String.length (s +:+ t) = (String.length s + String.length t)%nat.
Proof.
  induction s as [|c s IH]; [reflexivity|].
  change (S (String.length (s +:+ t)) = S (String.length s + String.length t)).
  now rewrite IH.
Qed.

(** A match of a literal text consumes exactly its length. *)
Lemma run_lit (w : string) :
  forall (k : cont) cap prev pos s o,
    run (lit w) k cap prev pos s = Some o ->
    exists prev' s',
      k cap prev' (pos + String.length w)%nat s' = Some o
      /\ String.length s = (String.length w + String.length s')%nat.
Proof.
  induction w as [|c w IH]; intros k cap prev pos s o H; cbn in H.
  - exists prev, s. rewrite Nat.add_0_r. now split.
  - destruct s as [|d s]; [discriminate|].
    destruct (canon d =? canon c)%nat; [|discriminate].
    apply IH in H as (prev' & s' & Hk & Hlen).
    exists prev', s'. cbn [String.length]. split; [|lia].
    now replace (pos + S (String.length w))%nat with (S pos + String.length w)%nat by lia.
Qed.

Lemma search_lit (w : string) (s : string) :
  forall prev pos a b cap,
    search (lit w) prev pos s = Some (Found a b cap) ->
    (pos <= a)%nat /\ b = (a + String.length w)%nat /\ (b <= pos + String.length s)%nat.
Proof.
  induction s as [|c s IH]; intros prev pos a b cap H; cbn [search] in H.
  - unfold match_here in H.
    destruct (run (lit w) accept None prev pos EmptyString) as [[e g]|] eqn:E;
      [|discriminate].
    apply run_lit in E as (prev' & s' & Hk & Hlen). unfold accept in Hk.
    injection Hk as <- <-. injection H as <- <- <-. cbn in Hlen |- *. lia.
  - unfold match_here in H.
    destruct (run (lit w) accept None prev pos (String c s)) as [[e g]|] eqn:E.
    + apply run_lit in E as (prev' & s' & Hk & Hlen). unfold accept in Hk.
      injection Hk as <- <-. injection H as <- <- <-. cbn in Hlen |- *. lia.
    + apply IH in H. cbn [String.length]. lia.
Qed.

Lemma getSubstitution_length (matched before after template : string) :
  (plain_prefix template <= String.length (getSubstitution matched before after template))%nat.
Proof.
  induction template as [|c t IH]; cbn [plain_prefix getSubstitution]; [lia|].
  destruct (is_code 36 c); [lia|]. cbn [String.length]. lia.
Qed.

Lemma plain_prefix_append (p t : string) :
  (plain_prefix p <= plain_prefix (p +:+ t))%nat.
Proof.
  induction p as [|c p IH]; [cbn; lia|].
  change (String c p +:+ t) with (String c (p +:+ t)). cbn [plain_prefix].
  destruct (is_code 36 c); lia.
Qed.

(** Replacing the first occurrence of a literal anchor by a text that
    starts with at least as many plain characters never shortens the
    document. *)
Lemma replace_lit_length (w template s : string) :
  (String.length w <= plain_prefix template)%nat ->
  (String.length s <= String.length (replace (lit w) template s))%nat.
Proof.
  intros Hw. unfold replace, exec.
  destruct (search (lit w) None 0 s) as [[a b cap]|] eqn:E; [|lia].
  apply search_lit in E as (_ & Hb & Hle).
  rewrite !length_app_string, length_take, length_drop.
  pose proof (getSubstitution_length (take (b - a) (drop a s)) (take a s) (drop b s) template).
  lia.
Qed.

End ReplaceFacts.

(** ** The fixes never shorten the document *)

Section FixesGrow.
Variable engine : Engine.
Variables domain businessName : option string.

(** The template of every fix starts with the anchor it replaces. *)
Ltac anchor_fits :=
  apply replace_lit_length;
  etransitivity; [|apply plain_prefix_append]; vm_compute; lia.

Lemma fix_title_grows (check_id fix_instruction : string) (d : Draft) :
  (String.length (fst d)
   <= String.length (fst (fix_title check_id fix_instruction domain businessName d)))%nat.
Proof.
  destruct d as [content changes]. unfold fix_title.
  destruct (_ && _); cbn [fst]; [anchor_fits | lia].
Qed.

Lemma fix_description_grows (check_id fix_instruction : string) (d : Draft) :
  (String.length (fst d)
   <= String.length (fst (fix_description check_id fix_instruction businessName d)))%nat.
Proof.
  destruct d as [content changes]. unfold fix_description.
  destruct (_ && _); cbn [fst]; [anchor_fits | lia].
Qed.

Lemma fix_canonical_grows (check_id fix_instruction : string) (d : Draft) :
  (String.length (fst d)
   <= String.length (fst (fix_canonical check_id fix_instruction domain d)))%nat.
Proof.
  destruct d as [content changes]. unfold fix_canonical.
  destruct (_ && _); cbn [fst]; [anchor_fits | lia].
Qed.

Lemma fix_robots_grows (check_id : string) (d : Draft) :
  (String.length (fst d) <= String.length (fst (fix_robots check_id d)))%nat.
Proof.
  destruct d as [content changes]. unfold fix_robots.
  destruct (_ && _); cbn [fst]; [anchor_fits | lia].
Qed.

Lemma fix_viewport_grows (check_id : string) (d : Draft) :
  (String.length (fst d) <= String.length (fst (fix_viewport check_id d)))%nat.
Proof.
  destruct d as [content changes]. unfold fix_viewport.
  destruct (_ && _); cbn [fst]; [anchor_fits | lia].
Qed.

Lemma fix_charset_grows (check_id : string) (d : Draft) :
  (String.length (fst d) <= String.length (fst (fix_charset check_id d)))%nat.
Proof.
  destruct d as [content changes]. unfold fix_charset.
  destruct (_ && _); cbn [fst]; [anchor_fits | lia].
Qed.

Lemma fix_lang_grows (check_id : string) (d : Draft) :
  (String.length (fst d) <= String.length (fst (fix_lang check_id d)))%nat.
Proof.
  destruct d as [content changes]. unfold fix_lang.
  destruct (_ && _); cbn [fst]; [anchor_fits | lia].
Qed.

Lemma fix_og_grows (check_id fix_instruction : string) (d d' : Draft) :
  fix_og engine check_id fix_instruction d = Ok d' ->
  (String.length (fst d) <= String.length (fst d'))%nat.
Proof.
  destruct d as [content changes]. unfold fix_og. intros H.
  destruct (_ && _); [|injection H as <-; cbn; lia].
  destruct (nonempty _); [|injection H as <-; cbn; lia].
  destruct (extractMeta_of_caller _ _ _) as [found|e]; [|discriminate].
  destruct (negb _); [|injection H as <-; cbn; lia].
  destruct (nonempty _); injection H as <-; cbn [fst]; [|lia].
  apply (replace_lit_length "</head>").
  etransitivity; [|apply plain_prefix_append]. vm_compute; lia.
Qed.

Lemma apply_issue_grows (issue : FixIssue.t) (d d' : Draft) :
  apply_issue engine domain businessName issue d = Ok d' ->
  (String.length (fst d) <= String.length (fst d'))%nat.
Proof.
  unfold apply_issue. intros H.
  destruct (fix_og _ _ _ _) as [d1|e] eqn:E; [|discriminate].
  injection H as <-. apply fix_og_grows in E.
  pose proof (fix_lang_grows (FixIssue.check_id issue) d1).
  etransitivity; [|eassumption].
  etransitivity; [|eassumption].
  etransitivity; [|apply fix_charset_grows].
  etransitivity; [|apply fix_viewport_grows].
  etransitivity; [|apply fix_robots_grows].
  etransitivity; [|apply fix_canonical_grows].
  etransitivity; [|apply fix_description_grows].
  apply fix_title_grows.
Qed.

Lemma apply_issues_grows (issues : list FixIssue.t) :
  forall d d' : Draft,
    apply_issues engine domain businessName issues d = Ok d' ->
    (String.length (fst d) <= String.length (fst d'))%nat.
Proof.
  induction issues as [|issue rest IH]; intros d d' H; cbn [apply_issues] in H.
  - injection H as <-. lia.
  - destruct (apply_issue _ _ _ issue d) as [d1|e] eqn:E; [|discriminate].
    apply apply_issue_grows in E. apply IH in H. lia.
Qed.

End FixesGrow.

(** C10. Whenever [fixSeoIssues] returns a report, the fixed size is at
    least the original size: the original size is the length of the
    stored document, the fixed size is the length of the document stored
    by the call, and applying an issue never shortens the text (every
    fix replaces its anchor by a text that starts with that anchor). *)
Theorem fixSeoIssues_never_shrinks (engine : Engine) (files files' : gmap string string)
    (filePath : string) (issues : list FixIssue.t) (domain businessName : option string)
    (report : FixReport.t) :
  fixSeoIssues engine files filePath issues domain businessName = (Ok report, files') ->
  FixReport.original_size report <= FixReport.fixed_size report
  /\ (exists content content' : string,
        files !! filePath = Some content
        /\ files' !! filePath = Some content'
        /\ FixReport.original_size report = length content
        /\ FixReport.fixed_size report = length content')
  /\ (forall (issue : FixIssue.t) (d d' : Draft),
        apply_issue engine domain businessName issue d = Ok d' ->
        length (fst d) <= length (fst d')).
Proof.
  unfold fixSeoIssues. intros H.
  destruct (files !! filePath) as [content|] eqn:Hfile; [|discriminate].
  destruct (apply_issues _ _ _ _ _) as [[content' changes]|e] eqn:E; [|discriminate].
  injection H as <- <-. cbn [FixReport.original_size FixReport.fixed_size].
  apply apply_issues_grows in E. cbn [fst] in E.
  split; [unfold length; lia|]. split.
  - exists content, content'. rewrite lookup_insert_eq. repeat split.
  - intros issue d d' Hd. apply apply_issue_grows in Hd. unfold length. lia.
Qed.

(** ** Failures of [fixSeoIssues] *)

Section Failures.
Variable engine : Engine.
Variables domain businessName : option string.

(** An issue no fix is guarded for leaves the text and the change log as
    they are. *)
Lemma apply_issue_unrouted (issue : FixIssue.t) (d : Draft) :
  Spec.unrouted (FixIssue.check_id issue) = true ->
  apply_issue engine domain businessName issue d = Ok d.
Proof.
  unfold Spec.unrouted. intros H.
  repeat (apply andb_prop in H as [H ?]).
  repeat match goal with
         | h : negb _ = true |- _ => apply negb_true_iff in h
         end.
  destruct d as [content changes].
  unfold apply_issue, fix_title, fix_description, fix_canonical, fix_robots, fix_viewport,
    fix_charset, fix_og, fix_lang.
  repeat match goal with
         | h : startsWith _ _ = false |- _ => rewrite h; clear h
         | h : _ && _ = false |- _ => rewrite h; clear h
         end.
  reflexivity.
Qed.





End Failures.

(** C7, evaluated. On an existing document an Open Graph issue whose
    property name opens a group makes the call fail: the pattern text
    built from the name has a group that is never closed, the engine
    rejects it, and the call throws that syntax error (not the
    file-not-found error) although the path exists. The files are left
    as they were. *)
Theorem og_name_with_open_group_throws (engine : Engine) (files : gmap string string)
    (filePath content : string) (domain businessName : option string) :
  conforming engine ->
  files !! filePath = Some content ->
  split_colon_head (FixIssue.fix_instruction Examples.open_group_issue) = "og(title"
  /\ map groups_pair_up (meta_sources "og(title") = [false; false; false; false]
  /\ fixSeoIssues engine files filePath [Examples.open_group_issue] domain businessName
     = (Throw RegExpSyntaxError, files).
Proof.
  intros Hengine Hfile.
  assert (Hsources : map groups_pair_up (meta_sources "og(title") = [false; false; false; false])
    by (vm_compute; reflexivity).
  split; [reflexivity|]. split; [exact Hsources|].
  unfold fixSeoIssues. rewrite Hfile.
  cbn [apply_issues]. unfold apply_issue, Examples.open_group_issue, Examples.issue.
  cbn [FixIssue.check_id FixIssue.fix_instruction].
  unfold fix_title, fix_description, fix_canonical, fix_robots, fix_viewport, fix_charset.
  cbn [startsWith Ascii.eqb Bool.eqb andb].
  unfold fix_og, extractMeta_of_caller.
  change (split_colon_head "og(title: Example") with "og(title".
  change (startsWith "4_01_og_title" "4_" && includes "4_01_og_title" "og_") with true.
  change (nonempty "og(title") with true.
  change (is_plain "og(title") with false.
  cbv iota.
  rewrite (Hengine content "og(title") by (vm_compute; reflexivity).
  reflexivity.
Qed.

Lemma og_name_with_open_group_throws_witness :
  fixSeoIssues Examples.no_engine {[ Examples.path := Examples.bare_page ]} Examples.path
    [Examples.open_group_issue] None None
  = (Throw RegExpSyntaxError, {[ Examples.path := Examples.bare_page ]}).
Proof.
  apply (og_name_with_open_group_throws Examples.no_engine
           {[ Examples.path := Examples.bare_page ]} Examples.path Examples.bare_page
           None None).
  - intros content name _. reflexivity.
  - vm_compute. reflexivity.
Defined.

(** ** Length thresholds of the title and the meta description *)

Ltac read_status :=
  cbv [Spec.status_of auditOnPageSeo rec_set rec_get String.eqb Ascii.eqb Bool.eqb
       fmap option_fmap option_map item ItemResult.status].


(** C8, evaluated. A description of 116 characters, inside the range
    100..170, with an apostrophe in it is read only up to the apostrophe:
    the check measures 2 characters, says so in its details, and is
    partial where the specification gives done. A title of 45 characters
    in a title element that has an attribute is not read at all: the
    check is missing where the specification gives done. *)
Theorem description_is_cut_at_an_apostrophe (auditSections : Checklist) :
  let described := auditOnPageSeo auditSections Examples.described_page in
  let titled := auditOnPageSeo auditSections Examples.attributed_title_page in
  length Examples.apostrophe_description = 116
  /\ Spec.length_status 100 170 (Some Examples.apostrophe_description) = done
  /\ extractMeta Examples.described_page "description" = Some "We"
  /\ Spec.status_of described "2_02_meta_description" = Some partial
  /\ Spec.details_of described "2_02_meta_description" = Some "Meta description (2 chars)"
  /\ length Examples.title_of_45 = 45
  /\ Spec.length_status 30 70 (Some Examples.title_of_45) = done
  /\ titleMatch Examples.attributed_title_page = None
  /\ Spec.status_of titled "2_01_title_tag" = Some missing
  /\ Spec.details_of titled "2_01_title_tag" = Some "No title tag found".
Proof.
  cbv zeta.
  repeat split; try (vm_compute; reflexivity);
    cbv [Spec.status_of Spec.details_of auditOnPageSeo rec_set rec_get String.eqb Ascii.eqb
         Bool.eqb fmap option_fmap option_map item ItemResult.status ItemResult.details];
    vm_compute; reflexivity.
Qed.

(** ** Count-based image checks *)

Lemma discovered_evaluated (auditSections : Checklist)
    (checks : list (string * list (string * ItemResult.t))) (f : PriorityFix.t) :
  In f (Spec.discovered auditSections checks) ->
  exists e : string * ItemResult.t,
    In e (Spec.evaluated checks)
    /\ needs_fix (ItemResult.status (snd e)) = true
    /\ PriorityFix.check_id f = fst e.
Proof.
  unfold Spec.discovered, Spec.evaluated. intros H.
  apply in_flat_map in H as ([key entries] & Hsec & Hf).
  unfold Spec.fixes_of_section in Hf. cbn [fst snd] in Hf.
  apply in_map_iff in Hf as (e & <- & He).
  apply List.filter_In in He as [He Hneeds].
  exists e. split; [|split; [exact Hneeds | reflexivity]].
  apply in_flat_map. exists (key, entries). now split.
Qed.

(** Without a counted img element neither image check is applicable,
    and neither has an entry in the priority queue. *)
Lemma no_counted_image_no_image_fix (auditSections : Checklist) (url html : string)
    (headers : gmap string string) (robotsTxt sitemapXml : option string) (timestamp : string) :
  let results := auditOnPageSeo auditSections html in
  let r := auditWebsite auditSections url html headers robotsTxt sitemapXml timestamp in
  imgTotal html = 0 ->
  Spec.status_of results "2_07_image_alt_tags" = Some not_applicable
  /\ Spec.status_of results "2_08_image_dimensions" = Some not_applicable
  /\ forall f : PriorityFix.t,
       In f (AuditResult.priority_fixes r) ->
       PriorityFix.check_id f <> "2_07_image_alt_tags"
       /\ PriorityFix.check_id f <> "2_08_image_dimensions".
Proof.
  cbv zeta. intros Hm.
  split; [read_status; now rewrite Hm|].
  split; [read_status; now rewrite Hm|].
  intros f Hf.
  destruct (auditWebsite_fields auditSections url html headers robotsTxt sitemapXml timestamp)
    as (_ & _ & _ & _ & _ & Hfix & _).
  cbv zeta in Hfix. rewrite Hfix in Hf.
  apply (Permutation_in _ (sort_permutation compare_fixes _)) in Hf.
  apply discovered_evaluated in Hf as (e & He & Hneeds & ->).
  revert He. unfold_checks. cbn [In].
  intros He.
  repeat (destruct He as [<- | He]; [cbn [fst]; try (split; discriminate)|]);
    try contradiction;
    cbn [snd item ItemResult.status] in Hneeds; rewrite Hm in Hneeds; discriminate.
Qed.

(** C9, evaluated. On a page with two img elements of which only the
    first has a width and a height, the dimensions check is done, not
    partial: the first element is counted once for each order of the two
    attributes, because the width of its data attribute is read as a
    width, and the check reports 2 of 2 images. On a page whose one img
    element has no alt attribute but a data attribute ending in alt, the
    alt-text check is done, not missing. *)
Theorem image_dimensions_are_counted_twice (auditSections : Checklist) :
  let sized := auditOnPageSeo auditSections Examples.gallery_page in
  let captioned := auditOnPageSeo auditSections Examples.captioned_page in
  map Spec.has_dimensions Examples.gallery = [true; false]
  /\ Spec.image_status Spec.has_dimensions Examples.gallery = Some partial
  /\ imgTotal Examples.gallery_page = 2
  /\ imgWithDims Examples.gallery_page = 2
  /\ Spec.status_of sized "2_08_image_dimensions" = Some done
  /\ Spec.details_of sized "2_08_image_dimensions" = Some "2/2 images have dimensions"
  /\ Spec.has_attribute Examples.captioned_img "alt" = false
  /\ Spec.image_status (fun element => Spec.has_attribute element "alt")
       [Examples.captioned_img]
     = Some missing
  /\ imgTotal Examples.captioned_page = 1
  /\ imgWithAlt Examples.captioned_page = 1
  /\ Spec.status_of captioned "2_07_image_alt_tags" = Some done
  /\ Spec.details_of captioned "2_07_image_alt_tags" = Some "1/1 images have alt text".
Proof.
  cbv zeta.
  repeat split; try (vm_compute; reflexivity);
    cbv [Spec.status_of Spec.details_of auditOnPageSeo rec_set rec_get String.eqb Ascii.eqb
         Bool.eqb fmap option_fmap option_map item ItemResult.status ItemResult.details];
    vm_compute; reflexivity.
Qed.

(** ** The order of the priority queue on a sample audit *)

(** C1, evaluated. On the audit of a bare page served over plain HTTP the
    queue starts with a fix of priority high, the first critical fix
    comes only at position 35, after every high and medium one, and the
    queue is not sorted by the rank critical 0, high 1, medium 2, low 3:
    the comparator reads the rank 0 of critical as absent and gives it
    rank 3. *)
Theorem critical_fixes_sorted_after_high :
  let r :=
    auditWebsite ∅ "http://example.com" Examples.bare_page ∅ None None Examples.timestamp in
  let label := fun f => (PriorityFix.check_id f, PriorityFix.priority f) in
  (label <$> nth_error (AuditResult.priority_fixes r) 0) = Some ("1_07_meta_robots", "high")
  /\ (label <$> nth_error (AuditResult.priority_fixes r) 34)
     = Some ("16_04_copyright_notice", "medium")
  /\ (label <$> nth_error (AuditResult.priority_fixes r) 35) = Some ("1_01_https", "critical")
  /\ Spec.sorted_by_rank (AuditResult.priority_fixes r) = false
  /\ rank_or_3 "critical" = Some 3
  /\ rank_or_3 "low" = Some 3
  /\ compare_fixes
       {| PriorityFix.check_id := "1_01_https"; PriorityFix.check := "HTTPS";
          PriorityFix.priority := "critical"; PriorityFix.how_to_fix := EmptyString;
          PriorityFix.section := "1_technical_seo" |}
       {| PriorityFix.check_id := "1_07_meta_robots"; PriorityFix.check := "Meta robots";
          PriorityFix.priority := "high"; PriorityFix.how_to_fix := EmptyString;
          PriorityFix.section := "1_technical_seo" |}
     = Some 2.
Proof. vm_compute. repeat split. Qed.

(** ** Remediation on sample documents *)

Lemma startsWith_cons (s p : string) (a : ascii) :
  startsWith s (String a p) = true ->
  exists s' : string, s = String a s' /\ startsWith s' p = true.
Proof.
  destruct s as [|b s']; cbn [startsWith]; [discriminate|].
  intros H. apply andb_prop in H as [Hab Hp].
  apply Ascii.eqb_eq in Hab. subst b. now exists s'.
Qed.

(** The other half of the title fix: on a document that holds the text
    of an opening title tag, an issue of the title family changes neither
    the text nor the change log. *)
Lemma title_issue_on_titled_document (engine : Engine) (domain businessName : option string)
    (issue : FixIssue.t) (content : string) (changes : list string) :
  startsWith (FixIssue.check_id issue) "2_01" = true ->
  includes content "<title>" = true ->
  apply_issue engine domain businessName issue (content, changes) = Ok (content, changes).
Proof.
  intros Hid Htitle. destruct issue as [check_id fix_instruction]. cbn [FixIssue.check_id] in Hid.
  apply startsWith_cons in Hid as (s1 & -> & Hid).
  apply startsWith_cons in Hid as (s2 & -> & Hid).
  apply startsWith_cons in Hid as (s3 & -> & Hid).
  apply startsWith_cons in Hid as (s4 & -> & _).
  unfold apply_issue, fix_title, fix_description, fix_canonical, fix_robots, fix_viewport,
    fix_charset, fix_og, fix_lang.
  cbn [FixIssue.check_id FixIssue.fix_instruction].
  rewrite Htitle. destruct s4; cbn [startsWith Ascii.eqb Bool.eqb andb negb]; reflexivity.
Qed.

(** C6, evaluated. On a document without a title and without a head
    element the title fix inserts nothing, and still logs that a title
    tag was added. *)
Theorem fix_title_logs_without_inserting (engine : Engine) :
  let files : gmap string string := {[ Examples.path := Examples.headless_page ]} in
  let outcome :=
    fixSeoIssues engine files Examples.path [Examples.title_issue] None None in
  includes Examples.headless_page "<title>" = false
  /\ snd outcome !! Examples.path = Some Examples.headless_page
  /\ (FixReport.changes <$> Spec.report_of (fst outcome))
     = Some ["Added title tag: " +:+ dq +:+ "Welcome to Example" +:+ dq]
  /\ (FixReport.fixed_size <$> Spec.report_of (fst outcome))
     = (FixReport.original_size <$> Spec.report_of (fst outcome)).
Proof. vm_compute. repeat split. Qed.

(** C2, evaluated. A second run with the same issues is not always
    silent. On a document without a head element both runs log the same
    change; and a description that starts with a quotation mark is
    inserted again by the second run, because the inserted tag reads back
    as an empty description. *)
Theorem fixSeoIssues_second_run_changes_again (engine : Engine) :
  let run := fun (files : gmap string string) (issue : FixIssue.t) =>
    fixSeoIssues engine files Examples.path [issue] None None in
  let first := run {[ Examples.path := Examples.headless_page ]} Examples.title_issue in
  let second := run (snd first) Examples.title_issue in
  let first' :=
    run {[ Examples.path := Examples.titled_page ]} Examples.quoted_description_issue in
  let second' := run (snd first') Examples.quoted_description_issue in
  snd second !! Examples.path = snd first !! Examples.path
  /\ (FixReport.changes <$> Spec.report_of (fst second))
     = Some ["Added title tag: " +:+ dq +:+ "Welcome to Example" +:+ dq]
  /\ (FixReport.changes <$> Spec.report_of (fst second')) = Some ["Added meta description"]
  /\ (FixReport.original_size <$> Spec.report_of (fst second')) = Some 122
  /\ (FixReport.fixed_size <$> Spec.report_of (fst second')) = Some 183
  /\ snd second' !! Examples.path <> snd first' !! Examples.path.
Proof. vm_compute. repeat split. discriminate. Qed.

(** ** A sample run of the size theorem *)

Lemma fixSeoIssues_never_shrinks_witness :
  55 <= 143.
Proof.
  apply (fixSeoIssues_never_shrinks Examples.no_engine
           {[ Examples.path := Examples.bare_page ]}
           (snd (fixSeoIssues Examples.no_engine {[ Examples.path := Examples.bare_page ]}
Examples.path [Examples.title_issue; Examples.og_issue] None None))
Examples.path [Examples.title_issue; Examples.og_issue] None None
{| FixReport.original_size := 55; FixReport.fixed_size := 143;
   FixReport.changes :=
     ["Added title tag: " +:+ dq +:+ "Welcome to Example" +:+ dq; "Added og tag"] |}).
vm_compute. reflexivity.
Defined.

(** * Further properties *)

(** ** The order the sort really gives the queue *)

Section SortOrder.
Context {A : Type} (comparefn : A -> A -> option Z) (rank : A -> Z) (ok : A -> bool).
Hypothesis before_rank :
  forall x y : A, ok x = true -> ok y = true -> before comparefn x y = (rank x <? rank y).

Lemma nondecreasing_cons (a : Z) (l : list Z) :
  Spec.nondecreasing (a :: l) = true <->
  (forall b, hd_error l = Some b -> a <= b) /\ Spec.nondecreasing l = true.
Proof.
  destruct l as [|b l]; cbn [Spec.nondecreasing hd_error].
  - split; [intros _; split; [discriminate | reflexivity] | reflexivity].
  - rewrite andb_true_iff, Z.leb_le. split.
    + intros [H1 H2]. split; [|exact H2]. intros b' Hb. injection Hb as <-. exact H1.
    + intros [H1 H2]. split; [apply H1; reflexivity | exact H2].
Qed.

Lemma nondecreasing_lower (a : Z) (l : list Z) :
  Spec.nondecreasing (a :: l) = true -> Forall (fun b => a <= b) l.
Proof.
  revert a. induction l as [|b l IH]; intros a H; [constructor|].
  apply nondecreasing_cons in H as [Hab Hl].
  specialize (Hab b eq_refl). constructor; [exact Hab|].
  apply IH in Hl. revert Hl. apply List.Forall_impl. intros c Hc. lia.
Qed.

Lemma insert_sorted (x : A) (l : list A) :
  ok x = true -> forallb ok l = true ->
  Spec.nondecreasing (map rank l) = true ->
  Spec.nondecreasing (map rank (insert comparefn x l)) = true.
Proof.
  intros Hx. induction l as [|y l IH]; intros Hl Hs; [reflexivity|].
  cbn [forallb] in Hl. apply andb_prop in Hl as [Hy Hl].
  cbn [insert]. rewrite (before_rank x y Hx Hy).
  destruct (rank x <? rank y) eqn:E.
  - apply Z.ltb_lt in E. cbn [map]. apply nondecreasing_cons. split; [|exact Hs].
    cbn [hd_error map]. intros b Hb. injection Hb as <-. lia.
  - apply Z.ltb_ge in E. cbn [map] in Hs |- *.
    apply nondecreasing_cons in Hs as [Hhd Hs]. apply nondecreasing_cons.
    split; [|now apply IH].
    destruct l as [|z l]; cbn [insert map hd_error]; intros b Hb.
    + injection Hb as <-. exact E.
    + destruct (before comparefn x z); cbn [map hd_error] in Hb; injection Hb as <-;
        [exact E | apply Hhd; reflexivity].
Qed.

Lemma insert_ok (x : A) (l : list A) :
  ok x = true -> forallb ok l = true -> forallb ok (insert comparefn x l) = true.
Proof.
  intros Hx. induction l as [|y l IH]; intros Hl; cbn [insert forallb].
  - now rewrite Hx.
  - cbn [forallb] in Hl. apply andb_prop in Hl as [Hy Hl].
    destruct (before comparefn x y); cbn [forallb]; rewrite ?Hx, ?Hy, ?Hl, ?IH; auto.
Qed.

Lemma filter_above (k : Z) (l : list A) :
  Forall (fun b => k < b) (map rank l) ->
  List.filter (fun y => rank y =? k) l = [].
Proof.
  induction l as [|y l IH]; intros H; [reflexivity|].
  cbn [map] in H. inversion H as [|? ? Hy Hl]; subst.
  cbn [List.filter]. replace (rank y =? k) with false by (symmetry; apply Z.eqb_neq; lia).
  now apply IH.
Qed.

(** An element is inserted behind the elements of its own rank. *)
Lemma insert_filter (k : Z) (x : A) (l : list A) :
  ok x = true -> forallb ok l = true ->
  Spec.nondecreasing (map rank l) = true ->
  List.filter (fun y => rank y =? k) (insert comparefn x l)
  = List.filter (fun y => rank y =? k) l ++ (if rank x =? k then [x] else []).
Proof.
  intros Hx. induction l as [|y l IH]; intros Hl Hs.
  - cbn. destruct (rank x =? k); reflexivity.
  - cbn [forallb] in Hl. apply andb_prop in Hl as [Hy Hl].
    cbn [insert]. rewrite (before_rank x y Hx Hy).
    destruct (rank x <? rank y) eqn:E.
    + apply Z.ltb_lt in E.
      destruct (rank x =? k) eqn:Ek; [|cbn [List.filter]; rewrite Ek; now rewrite app_nil_r].
      apply Z.eqb_eq in Ek.
      assert (Hnone : List.filter (fun y0 => rank y0 =? k) (y :: l) = []).
      { apply filter_above. cbn [map] in Hs. apply nondecreasing_lower in Hs.
        cbn [map]. constructor; [lia|].
        revert Hs. apply List.Forall_impl. intros c Hc. lia. }
      cbn [List.filter] in Hnone |- *. rewrite Hnone.
      replace (rank x =? k) with true by (symmetry; apply Z.eqb_eq; exact Ek).
      reflexivity.
    + cbn [map] in Hs. apply nondecreasing_cons in Hs as [_ Hs].
      cbn [List.filter]. rewrite (IH Hl Hs).
      destruct (rank y =? k); reflexivity.
Qed.

Lemma fold_insert_order (k : Z) (l : list A) :
  forall sorted : list A,
    forallb ok sorted = true -> forallb ok l = true ->
    Spec.nondecreasing (map rank sorted) = true ->
    let result := fold_left (fun sorted x => insert comparefn x sorted) l sorted in
    Spec.nondecreasing (map rank result) = true
    /\ List.filter (fun y => rank y =? k) result
       = List.filter (fun y => rank y =? k) sorted ++ List.filter (fun y => rank y =? k) l.
Proof.
  induction l as [|x l IH]; intros sorted Hacc Hl Hs; cbn [fold_left].
  - cbn. now rewrite app_nil_r.
  - cbn [forallb] in Hl. apply andb_prop in Hl as [Hx Hl].
    destruct (IH (insert comparefn x sorted) (insert_ok x sorted Hx Hacc) Hl
                (insert_sorted x sorted Hx Hacc Hs)) as [H1 H2].
    split; [exact H1|]. cbv zeta in H2. rewrite H2, (insert_filter k x sorted Hx Hacc Hs).
    cbn [List.filter]. rewrite <- app_assoc. destruct (rank x =? k); reflexivity.
Qed.

End SortOrder.

Lemma before_compare_fixes (x y : PriorityFix.t) :
  Derived.comparable x = true -> Derived.comparable y = true ->
  before compare_fixes x y = (Derived.effective_rank x <? Derived.effective_rank y).
Proof.
  unfold Derived.comparable, Derived.effective_rank, before, compare_fixes.
  destruct (rank_or_3 (PriorityFix.priority x)) as [a|]; [|discriminate].
  destruct (rank_or_3 (PriorityFix.priority y)) as [b|]; [|discriminate].
  intros _ _. destruct (a <? b) eqn:E.
  - apply Z.ltb_lt in E. apply Z.ltb_lt. lia.
  - apply Z.ltb_ge in E. apply Z.ltb_ge. lia.
Qed.

(** X1. When no priority is the name of an inherited object member, the
    queue of an audit is sorted by the rank the comparator really uses
    (high 1, medium 2, and critical, low and every other text 3), and the
    fixes of one rank keep their order of discovery. *)
Theorem priority_fixes_effective_order (auditSections : Checklist) (url html : string)
    (headers : gmap string string) (robotsTxt sitemapXml : option string) (timestamp : string) :
  let r := auditWebsite auditSections url html headers robotsTxt sitemapXml timestamp in
  let found :=
    Spec.discovered auditSections
      (allChecks auditSections (normalize_url url) html headers robotsTxt sitemapXml) in
  forallb Derived.comparable found = true ->
  Spec.nondecreasing (map Derived.effective_rank (AuditResult.priority_fixes r)) = true
  /\ (forall k : Z,
        List.filter (Derived.has_rank k) (AuditResult.priority_fixes r)
        = List.filter (Derived.has_rank k) found)
  /\ (forall f : PriorityFix.t,
        Derived.effective_rank f
        = if String.eqb (PriorityFix.priority f) "high" then 1
          else if String.eqb (PriorityFix.priority f) "medium" then 2
          else 3).
Proof.
  cbv zeta. intros Hok.
  destruct (auditWebsite_fields auditSections url html headers robotsTxt sitemapXml timestamp)
    as (_ & _ & _ & _ & _ & Hfix & _).
  cbv zeta in Hfix. rewrite Hfix. unfold sort.
  split; [|split].
  - apply (fold_insert_order compare_fixes Derived.effective_rank Derived.comparable
             before_compare_fixes 0 _ [] eq_refl Hok eq_refl).
  - intros k.
    apply (fold_insert_order compare_fixes Derived.effective_rank Derived.comparable
             before_compare_fixes k _ [] eq_refl Hok eq_refl).
  - intros f. unfold Derived.effective_rank, rank_or_3, priorityOrder.
    destruct (String.eqb_spec (PriorityFix.priority f) "critical") as [->|]; [reflexivity|].
    destruct (String.eqb (PriorityFix.priority f) "high"); [reflexivity|].
    destruct (String.eqb (PriorityFix.priority f) "medium"); [reflexivity|].
    destruct (String.eqb (PriorityFix.priority f) "low"); [reflexivity|].
    destruct (existsb _ _); reflexivity.
Qed.

Lemma priority_fixes_effective_order_witness :
  Spec.nondecreasing
    (map Derived.effective_rank
       (AuditResult.priority_fixes
          (auditWebsite ∅ "http://example.com" Examples.bare_page ∅ None None
             Examples.timestamp)))
  = true.
Proof.
  apply (priority_fixes_effective_order ∅ "http://example.com" Examples.bare_page ∅ None None
           Examples.timestamp).
  vm_compute. reflexivity.
Defined.

(** ** The fixed shape of an audit *)

(** X2. Whatever the page, the headers and the checklist are, an audit
    evaluates the same fifty checks, in the same nine sections and the
    same order; at most four of them are not applicable. *)
Theorem audit_has_fixed_checks (auditSections : Checklist) (url html : string)
    (headers : gmap string string) (robotsTxt sitemapXml : option string) (timestamp : string) :
  let r := auditWebsite auditSections url html headers robotsTxt sitemapXml timestamp in
  let checks :=
    allChecks auditSections (normalize_url url) html headers robotsTxt sitemapXml in
  map (fun e => (fst e, map fst (snd e))) checks = Derived.check_ids
  /\ AuditResult.total_checks r = 50
  /\ 0 <= AuditResult.not_applicable r <= 4
  /\ 46 <= AuditResult.total_checks r - AuditResult.not_applicable r.
Proof.
  cbv zeta.
  destruct (auditWebsite_fields auditSections url html headers robotsTxt sitemapXml timestamp)
    as (Ht & _ & _ & _ & Hn & _).
  cbv zeta in *. rewrite Ht, Hn, evaluated_length.
  pose proof (not_applicable_at_most_4 auditSections (normalize_url url) html headers
                robotsTxt sitemapXml) as Hna.
  pose proof (count_nonneg not_applicable
                (Spec.evaluated
                   (allChecks auditSections (normalize_url url) html headers robotsTxt
                      sitemapXml))) as Hpos.
  split; [reflexivity|]. split; [reflexivity|]. lia.
Qed.

(** ** The section results *)

Lemma fold_count_check_section (sectionLabel : string) (entries : list (string * ItemResult.t)) :
  forall (c : Counters.t) (sp sf : Z),
    snd (fold_left (count_check sectionLabel) entries (c, (sp, sf)))
    = (sp + Spec.count done entries,
       sf + (Spec.count missing entries + Spec.count partial entries)).
Proof.
  induction entries as [|e entries IH]; intros c sp sf.
  - unfold Spec.count. cbn. f_equal; lia.
  - cbn [fold_left]. destruct e as [checkId result].
    rewrite !count_cons. cbn [snd].
    unfold count_check at 2.
    destruct (ItemResult.status result); rewrite IH; cbn [Spec.status_eqb]; f_equal; lia.
Qed.

Lemma count_section_result (auditSections : Checklist) (c : Counters.t)
    (sectionResults : list (string * SectionResult.t))
    (entry : string * list (string * ItemResult.t)) :
  snd (count_section auditSections (c, sectionResults) entry)
  = rec_set sectionResults (fst entry) (Derived.section_result auditSections entry).
Proof.
  destruct entry as [sectionKey checkResults]. unfold count_section.
  pose proof (fold_count_check_section (section_label auditSections sectionKey)
                checkResults c 0 0) as H.
  destruct (fold_left _ checkResults (c, (0, 0))) as [c1 [sp1 sf1]].
  cbn [snd] in H. injection H as -> ->. reflexivity.
Qed.

Lemma fold_count_section_results (auditSections : Checklist)
    (checks : list (string * list (string * ItemResult.t))) :
  forall (c : Counters.t) (sectionResults : list (string * SectionResult.t)),
    snd (fold_left (count_section auditSections) checks (c, sectionResults))
    = fold_left (fun sr e => rec_set sr (fst e) (Derived.section_result auditSections e))
        checks sectionResults.
Proof.
  induction checks as [|entry checks IH]; intros c sectionResults; [reflexivity|].
  cbn [fold_left].
  pose proof (count_section_result auditSections c sectionResults entry) as H.
  destruct (count_section auditSections (c, sectionResults) entry) as [c1 sr1].
  cbn [snd] in H. subst sr1. apply IH.
Qed.

Lemma auditWebsite_sections (auditSections : Checklist) (url html : string)
    (headers : gmap string string) (robotsTxt sitemapXml : option string) (timestamp : string) :
  AuditResult.sections
    (auditWebsite auditSections url html headers robotsTxt sitemapXml timestamp)
  = map (fun e => (fst e, Derived.section_result auditSections e))
      (allChecks auditSections (normalize_url url) html headers robotsTxt sitemapXml).
Proof.
  unfold auditWebsite.
  pose proof (fold_count_section_results auditSections
                (allChecks auditSections (normalize_url url) html headers robotsTxt sitemapXml)
                no_counts []) as H.
  destruct (fold_left _ _ (no_counts, [])) as [c sectionResults].
  cbn [snd] in H. cbn [AuditResult.sections]. rewrite H.
  cbv [allChecks rec_set fold_left map fst String.eqb Ascii.eqb Bool.eqb]. reflexivity.
Qed.

(** X3. The result has one section result per section, in the order of
    the audit; its items are what the evaluator returned, its total is
    their number, its passed count the number of done items and its
    failed count the number of missing and partial items together, so in
    every section total = passed + failed + the not-applicable items. *)
Theorem section_results_tally (auditSections : Checklist) (url html : string)
    (headers : gmap string string) (robotsTxt sitemapXml : option string) (timestamp : string) :
  let r := auditWebsite auditSections url html headers robotsTxt sitemapXml timestamp in
  let checks :=
    allChecks auditSections (normalize_url url) html headers robotsTxt sitemapXml in
  map fst (AuditResult.sections r) = map fst Derived.check_ids
  /\ map (fun s => SectionResult.items (snd s)) (AuditResult.sections r) = map snd checks
  /\ Forall
       (fun s =>
          let items := SectionResult.items (snd s) in
          SectionResult.total (snd s) = Z.of_nat (List.length items)
          /\ SectionResult.passed (snd s) = Spec.count done items
          /\ SectionResult.failed (snd s) = Spec.count missing items + Spec.count partial items
          /\ SectionResult.total (snd s)
             = SectionResult.passed (snd s) + SectionResult.failed (snd s)
               + Spec.count not_applicable items
          /\ SectionResult.label (snd s) = section_label auditSections (fst s))
       (AuditResult.sections r).
Proof.
  cbv zeta. rewrite auditWebsite_sections. split; [reflexivity|].
  split; [rewrite map_map; reflexivity|].
  apply List.Forall_forall. intros s Hs. apply in_map_iff in Hs as (e & <- & _).
  cbn [fst snd Derived.section_result SectionResult.items SectionResult.total
       SectionResult.passed SectionResult.failed SectionResult.label].
  pose proof (count_partition (snd e)). repeat split; try reflexivity. lia.
Qed.

Lemma sum_over_sections (auditSections : Checklist)
    (checks : list (string * list (string * ItemResult.t))) (s : Status) :
  Derived.sum_over (fun sr => Spec.count s (SectionResult.items sr))
    (map (fun e => (fst e, Derived.section_result auditSections e)) checks)
  = Spec.count s (Spec.evaluated checks).
Proof.
  induction checks as [|e checks IH]; [reflexivity|].
  unfold Spec.evaluated in *. cbn [map Derived.sum_over fold_right flat_map snd
    Derived.section_result SectionResult.items] in *.
  rewrite count_app. unfold Derived.sum_over in IH. rewrite IH. reflexivity.
Qed.

Lemma sum_over_ext (f g : SectionResult.t -> Z) (sections : list (string * SectionResult.t)) :
  Forall (fun s => f (snd s) = g (snd s)) sections ->
  Derived.sum_over f sections = Derived.sum_over g sections.
Proof.
  induction 1 as [|s sections Hs _ IH]; [reflexivity|].
  unfold Derived.sum_over in *. cbn [fold_right]. now rewrite Hs, IH.
Qed.

Lemma sum_over_plus (f g : SectionResult.t -> Z) (sections : list (string * SectionResult.t)) :
  Derived.sum_over (fun s => f s + g s) sections
  = Derived.sum_over f sections + Derived.sum_over g sections.
Proof.
  induction sections as [|s sections IH]; [reflexivity|].
  unfold Derived.sum_over in *. cbn [fold_right]. rewrite IH. lia.
Qed.

(** X4. The section tallies add up to the totals of the result: the
    section totals to [total_checks], the section passed counts to
    [passed], and the section failed counts to [failed + partial], a
    partial item being a failure of its section and a partial of the
    result. *)
Theorem section_tallies_add_up (auditSections : Checklist) (url html : string)
    (headers : gmap string string) (robotsTxt sitemapXml : option string) (timestamp : string) :
  let r := auditWebsite auditSections url html headers robotsTxt sitemapXml timestamp in
  Derived.sum_over SectionResult.total (AuditResult.sections r) = AuditResult.total_checks r
  /\ Derived.sum_over SectionResult.passed (AuditResult.sections r) = AuditResult.passed r
  /\ Derived.sum_over SectionResult.failed (AuditResult.sections r)
     = AuditResult.failed r + AuditResult.partial r.
Proof.
  cbv zeta.
  destruct (auditWebsite_fields auditSections url html headers robotsTxt sitemapXml timestamp)
    as (Ht & Hp & Hf & Hq & _).
  cbv zeta in *. rewrite Ht, Hp, Hf, Hq, auditWebsite_sections.
  set (checks := allChecks _ _ _ _ _ _).
  rewrite (count_partition (Spec.evaluated checks)).
  rewrite <- !(sum_over_sections auditSections checks).
  rewrite <- !sum_over_plus.
  repeat split; apply sum_over_ext; apply List.Forall_forall; intros s Hs;
    apply in_map_iff in Hs as (e & <- & _);
    cbn [snd Derived.section_result SectionResult.items SectionResult.total
         SectionResult.passed SectionResult.failed];
    try reflexivity.
  apply count_partition.
Qed.

(** ** What the checklist cannot change *)

Lemma statuses_independent (auditSections auditSections' : Checklist) (url html : string)
    (headers : gmap string string) (robotsTxt sitemapXml : option string) :
  Derived.statuses
    (Spec.evaluated (allChecks auditSections url html headers robotsTxt sitemapXml))
  = Derived.statuses
      (Spec.evaluated (allChecks auditSections' url html headers robotsTxt sitemapXml)).
Proof. unfold_checks. reflexivity. Qed.

Lemma count_statuses (s : Status) (l1 : list (string * ItemResult.t)) :
  forall l2 : list (string * ItemResult.t),
    Derived.statuses l1 = Derived.statuses l2 -> Spec.count s l1 = Spec.count s l2.
Proof.
  induction l1 as [|e1 l1 IH]; intros [|e2 l2] H; try discriminate; [reflexivity|].
  unfold Derived.statuses in H. cbn [map] in H. injection H as _ Hst Hrest.
  rewrite !count_cons, Hst. f_equal. apply IH. exact Hrest.
Qed.

(** X5. The checklist and the time of the call decide no outcome: two
    audits of the same fetched page under different checklists give every
    check the same status, and the same counters and score. *)
Theorem outcomes_do_not_depend_on_checklist (auditSections auditSections' : Checklist)
    (url html : string) (headers : gmap string string) (robotsTxt sitemapXml : option string)
    (timestamp timestamp' : string) :
  let r := auditWebsite auditSections url html headers robotsTxt sitemapXml timestamp in
  let r' := auditWebsite auditSections' url html headers robotsTxt sitemapXml timestamp' in
  Derived.statuses
    (Spec.evaluated
       (allChecks auditSections (normalize_url url) html headers robotsTxt sitemapXml))
  = Derived.statuses
      (Spec.evaluated
         (allChecks auditSections' (normalize_url url) html headers robotsTxt sitemapXml))
  /\ AuditResult.total_checks r = AuditResult.total_checks r'
  /\ AuditResult.passed r = AuditResult.passed r'
  /\ AuditResult.failed r = AuditResult.failed r'
  /\ AuditResult.partial r = AuditResult.partial r'
  /\ AuditResult.not_applicable r = AuditResult.not_applicable r'
  /\ AuditResult.score_percentage r = AuditResult.score_percentage r'.
Proof.
  cbv zeta.
  pose proof (statuses_independent auditSections auditSections' (normalize_url url) html
                headers robotsTxt sitemapXml) as Hst.
  destruct (auditWebsite_fields auditSections url html headers robotsTxt sitemapXml timestamp)
    as (Ht & Hp & Hf & Hq & Hn & _ & Hs).
  destruct (auditWebsite_fields auditSections' url html headers robotsTxt sitemapXml timestamp')
    as (Ht' & Hp' & Hf' & Hq' & Hn' & _ & Hs').
  cbv zeta in *.
  assert (Et : AuditResult.total_checks
                 (auditWebsite auditSections url html headers robotsTxt sitemapXml timestamp)
               = AuditResult.total_checks
                   (auditWebsite auditSections' url html headers robotsTxt sitemapXml
                      timestamp'))
    by (rewrite Ht, Ht', !evaluated_length; reflexivity).
  assert (Ep : AuditResult.passed
                 (auditWebsite auditSections url html headers robotsTxt sitemapXml timestamp)
               = AuditResult.passed
                   (auditWebsite auditSections' url html headers robotsTxt sitemapXml
                      timestamp'))
    by (rewrite Hp, Hp'; now apply count_statuses).
  assert (En : AuditResult.not_applicable
                 (auditWebsite auditSections url html headers robotsTxt sitemapXml timestamp)
               = AuditResult.not_applicable
                   (auditWebsite auditSections' url html headers robotsTxt sitemapXml
                      timestamp'))
    by (rewrite Hn, Hn'; now apply count_statuses).
  split; [exact Hst|]. split; [exact Et|]. split; [exact Ep|].
  split; [rewrite Hf, Hf'; now apply count_statuses|].
  split; [rewrite Hq, Hq'; now apply count_statuses|].
  split; [exact En|].
  rewrite Hs, Hs', Et, Ep, En. reflexivity.
Qed.

(** ** The extreme scores *)

Lemma Number_eqb_refl (x : spec_float) : Number.eqb x x = true.
Proof.
  destruct x as [a|a| |a m e]; cbn; try reflexivity.
  - now destruct a.
  - now destruct a.
  - rewrite Pos.eqb_refl, Z.eqb_refl. now destruct a.
Qed.

Lemma extremes_table_46_50 : Derived.extremes_table 46 5 = true.
Proof. vm_compute. reflexivity. Qed.

Lemma extremes_46_50 (passed applicable : Z) :
  46 <= applicable <= 50 -> 0 <= passed <= applicable ->
  Derived.extremes_agree passed applicable = true.
Proof.
  intros Ha Hp.
  pose proof extremes_table_46_50 as T. unfold Derived.extremes_table in T.
  rewrite forallb_forall in T.
  specialize (T (Z.to_nat applicable)).
  rewrite forallb_forall in T.
  specialize (fun H => T H (Z.to_nat passed)).
  rewrite !Z2Nat.id in T by lia.
  apply T; apply in_seq; lia.
Qed.

(** X6. An audit scores 100 exactly when no check is missing or partial,
    and 0 exactly when no check is done. *)
Theorem score_extremes (auditSections : Checklist) (url html : string)
    (headers : gmap string string) (robotsTxt sitemapXml : option string) (timestamp : string) :
  let r := auditWebsite auditSections url html headers robotsTxt sitemapXml timestamp in
  (AuditResult.score_percentage r = Number.of_Z 100
   <-> AuditResult.failed r = 0 /\ AuditResult.partial r = 0)
  /\ (AuditResult.score_percentage r = Number.of_Z 0 <-> AuditResult.passed r = 0).
Proof.
  cbv zeta.
  destruct (auditWebsite_fields auditSections url html headers robotsTxt sitemapXml timestamp)
    as (Ht & Hp & Hf & Hq & Hn & _ & Hs).
  cbv zeta in *.
  pose proof (count_partition
                (Spec.evaluated
                   (allChecks auditSections (normalize_url url) html headers robotsTxt
                      sitemapXml))) as Hsum.
  pose proof (not_applicable_at_most_4 auditSections (normalize_url url) html headers
                robotsTxt sitemapXml) as Hna.
  rewrite evaluated_length in Ht, Hsum.
  set (entries := Spec.evaluated _) in *.
  pose proof (count_nonneg done entries). pose proof (count_nonneg missing entries).
  pose proof (count_nonneg partial entries). pose proof (count_nonneg not_applicable entries).
  rewrite Hs, Ht, Hp, Hf, Hq, Hn.
  set (p := Spec.count done entries) in *.
  set (a := Z.of_nat 50 - Spec.count not_applicable entries).
  assert (Ha : 46 <= a <= 50) by (unfold a; lia).
  assert (Hpa : 0 <= p <= a) by (unfold a; lia).
  rewrite (score_agrees_46_50 p a Ha Hpa).
  pose proof (extremes_46_50 p a Ha Hpa) as E. unfold Derived.extremes_agree in E.
  apply andb_prop in E as [E100 E0].
  apply Bool.eqb_prop in E100. apply Bool.eqb_prop in E0.
  split; split.
  - intros Hx. rewrite Hx, Number_eqb_refl in E100. symmetry in E100.
    apply Z.eqb_eq in E100. unfold a in E100. lia.
  - intros [Hf0 Hq0]. apply Number_eqb_eq. rewrite E100. apply Z.eqb_eq. unfold a. lia.
  - intros Hx. rewrite Hx, Number_eqb_refl in E0. symmetry in E0. now apply Z.eqb_eq in E0.
  - intros Hx. apply Number_eqb_eq. rewrite E0. now apply Z.eqb_eq.
Qed.

(** ** The address that is audited *)

Lemma startsWith_nil (s : string) : startsWith s EmptyString = true.
Proof. now destruct s. Qed.

Lemma startsWith_append (p q s : string) :
  startsWith p q = true -> startsWith (p +:+ s) q = true.
Proof.
  revert q. induction p as [|c p IH]; intros [|d q] H; try discriminate.
  - apply startsWith_nil.
  - apply startsWith_nil.
  - change (String c p +:+ s) with (String c (p +:+ s)). cbn [startsWith] in H |- *.
    apply andb_prop in H as [Hc Hq]. rewrite Hc. now apply IH.
Qed.

Lemma startsWith_normalize_url (url : string) :
  startsWith (normalize_url url) "https://"
  = startsWith url "https://" || negb (startsWith url "http").
Proof.
  unfold normalize_url. destruct (startsWith url "http") eqn:E.
  - now rewrite orb_false_r.
  - rewrite orb_true_r. now apply startsWith_append.
Qed.

(** X7. A call of [auditWebsite] returns a result only for an address
    that, after normalisation, is a URL; otherwise it throws before
    anything is audited. In a result, an address that does not start with
    [http] has been audited as its [https://] address, so its HTTPS check
    is done; the check is missing exactly for an address that starts with
    [http] but not with [https://]. The address of the result is
    normalised, and normalising it again changes nothing. *)
Theorem https_check_follows_the_address (is_url : string -> bool) (auditSections : Checklist)
    (url : string) (page : option (string * gmap string string))
    (robotsTxt sitemapXml : option string) (timestamp : string) :
  let call := auditWebsite_call is_url auditSections url page robotsTxt sitemapXml timestamp in
  (is_url (normalize_url url) = false -> call = inl InvalidURL)
  /\ (forall r : AuditResult.t,
        call = inr r ->
        is_url (if startsWith url "http" then url else "https://" +:+ url) = true
        /\ Derived.status_in r "1_technical_seo" "1_01_https"
           = Some (if startsWith url "https://" || negb (startsWith url "http")
                   then done else missing)
        /\ AuditResult.url r = (if startsWith url "http" then url else "https://" +:+ url)
        /\ normalize_url (AuditResult.url r) = AuditResult.url r).
Proof.
  cbv zeta. unfold auditWebsite_call. split.
  - intros ->. reflexivity.
  - intros r. destruct (is_url (normalize_url url)) eqn:Hurl; [|discriminate].
    destruct page as [[html headers]|]; [|discriminate].
    intros H. injection H as <-.
    assert (Haddress : AuditResult.url
                         (auditWebsite auditSections url html headers robotsTxt sitemapXml
                            timestamp)
                       = normalize_url url).
    { unfold auditWebsite. destruct (fold_left _ _ _). reflexivity. }
    split; [exact Hurl|]. split; [|split].
    + unfold Derived.status_in. rewrite auditWebsite_sections.
      rewrite <- startsWith_normalize_url.
      cbv [allChecks rec_set rec_get map fst String.eqb Ascii.eqb Bool.eqb].
      cbn [Derived.section_result SectionResult.items snd].
      cbv [auditTechnicalSeo rec_set rec_get String.eqb Ascii.eqb Bool.eqb fmap option_fmap
           option_map item ItemResult.status done_or_missing].
      reflexivity.
    + exact Haddress.
    + rewrite Haddress. unfold normalize_url at 1.
      destruct (startsWith (normalize_url url) "http") eqn:E; [reflexivity|].
      unfold normalize_url in E. destruct (startsWith url "http") eqn:E'; [congruence|].
      rewrite startsWith_append in E by reflexivity. discriminate.
Qed.

Lemma https_check_follows_the_address_witness :
  Derived.status_in
    (auditWebsite ∅ "example.com" Examples.bare_page ∅ None None Examples.timestamp)
    "1_technical_seo" "1_01_https"
  = Some done
  /\ auditWebsite_call Examples.is_example_url ∅ "httpbin.org" (Some (Examples.bare_page, ∅))
       None None Examples.timestamp
     = inl InvalidURL.
Proof.
  split.
  - apply (proj2 (https_check_follows_the_address Examples.is_example_url ∅ "example.com"
                    (Some (Examples.bare_page, ∅)) None None Examples.timestamp)
             (auditWebsite ∅ "example.com" Examples.bare_page ∅ None None Examples.timestamp)).
    vm_compute. reflexivity.
  - apply (proj1 (https_check_follows_the_address Examples.is_example_url ∅ "httpbin.org"
                    (Some (Examples.bare_page, ∅)) None None Examples.timestamp)).
    vm_compute. reflexivity.
Defined.

(** ** The change log of the remediation *)

Section ChangeLog.
Variable engine : Engine.
Variables domain businessName : option string.

Lemma framed_compose (f g : Draft -> Draft) :
  Derived.framed f -> Derived.framed g -> Derived.framed (fun d => g (f d)).
Proof.
  intros Hf Hg content changes. cbv beta.
  rewrite (Hf content changes), Hg.
  destruct (f (content, [])) as [c1 l1] eqn:E. cbn [fst snd].
  rewrite (Hg c1 l1). cbn [fst snd]. now rewrite app_assoc.
Qed.

Lemma framed_then_result (f : Draft -> Draft) (g : Draft -> result Draft) :
  Derived.framed f -> Derived.framed_result g -> Derived.framed_result (fun d => g (f d)).
Proof.
  intros Hf Hg content changes. cbv beta.
  rewrite (Hf content changes), Hg.
  destruct (f (content, [])) as [c1 l1] eqn:E. cbn [fst snd].
  rewrite (Hg c1 l1).
  destruct (g (c1, [])) as [[c2 l2]|e]; cbn [fst snd]; [|reflexivity].
  now rewrite app_assoc.
Qed.

Lemma framed_result_then (f : Draft -> result Draft) (g : Draft -> Draft) :
  Derived.framed_result f -> Derived.framed g ->
  Derived.framed_result
    (fun d => match f d with Ok d' => Ok (g d') | Throw e => Throw e end).
Proof.
  intros Hf Hg content changes. cbv beta.
  rewrite (Hf content changes).
  destruct (f (content, [])) as [[c1 l1]|e]; cbn [fst snd]; [|reflexivity].
  rewrite Hg, (Hg c1 l1). cbn [fst snd]. now rewrite app_assoc.
Qed.

Lemma quiet_compose (f g : Draft -> Draft) :
  Derived.framed g -> Derived.quiet f -> Derived.quiet g ->
  Derived.quiet (fun d => g (f d)).
Proof.
  intros Fg Qf Qg content. cbv beta.
  specialize (Qf content). destruct (f (content, [])) as [c1 l1] eqn:E. cbn [fst snd] in Qf.
  rewrite (Fg c1 l1). cbn [fst snd]. intros H.
  apply app_eq_nil in H as [H1 H2]. rewrite (Qg c1 H2). now apply Qf.
Qed.

Lemma quiet_then_result (f : Draft -> Draft) (g : Draft -> result Draft) :
  Derived.framed_result g -> Derived.quiet f -> Derived.quiet_result g ->
  Derived.quiet_result (fun d => g (f d)).
Proof.
  intros Fg Qf Qg content d. cbv beta.
  specialize (Qf content). destruct (f (content, [])) as [c1 l1] eqn:E. cbn [fst snd] in Qf.
  rewrite (Fg c1 l1).
  destruct (g (c1, [])) as [[c2 l2]|e] eqn:Eg; [|discriminate].
  intros H. injection H as <-. cbn [fst snd]. intros H.
  apply app_eq_nil in H as [H1 H2].
  rewrite <- (Qf H1). apply (Qg c1 (c2, l2) Eg H2).
Qed.

Lemma quiet_result_then (f : Draft -> result Draft) (g : Draft -> Draft) :
  Derived.framed g -> Derived.quiet_result f -> Derived.quiet g ->
  Derived.quiet_result
    (fun d => match f d with Ok d' => Ok (g d') | Throw e => Throw e end).
Proof.
  intros Fg Qf Qg content d. cbv beta.
  destruct (f (content, [])) as [[c1 l1]|e] eqn:Ef; [|discriminate].
  intros H. injection H as <-. rewrite (Fg c1 l1). cbn [fst snd]. intros H.
  apply app_eq_nil in H as [H1 H2].
  rewrite (Qg c1 H2). apply (Qf content (c1, l1) Ef H1).
Qed.

Lemma logs_compose (n m : nat) (f g : Draft -> Draft) :
  Derived.framed g -> Derived.logs_at_most n f -> Derived.logs_at_most m g ->
  Derived.logs_at_most (n + m) (fun d => g (f d)).
Proof.
  intros Fg Lf Lg content. cbv beta.
  specialize (Lf content). destruct (f (content, [])) as [c1 l1] eqn:E. cbn [fst snd] in Lf.
  rewrite (Fg c1 l1). cbn [snd]. rewrite length_app. specialize (Lg c1). lia.
Qed.

Lemma logs_then_result (n m : nat) (f : Draft -> Draft) (g : Draft -> result Draft) :
  Derived.framed_result g -> Derived.logs_at_most n f -> Derived.logs_at_most_result m g ->
  Derived.logs_at_most_result (n + m) (fun d => g (f d)).
Proof.
  intros Fg Lf Lg content d. cbv beta.
  specialize (Lf content). destruct (f (content, [])) as [c1 l1] eqn:E. cbn [fst snd] in Lf.
  rewrite (Fg c1 l1).
  destruct (g (c1, [])) as [[c2 l2]|e] eqn:Eg; [|discriminate].
  intros H. injection H as <-. cbn [snd]. rewrite length_app.
  specialize (Lg c1 (c2, l2) Eg). cbn [snd] in Lg. lia.
Qed.

Lemma logs_result_then (n m : nat) (f : Draft -> result Draft) (g : Draft -> Draft) :
  Derived.framed g -> Derived.logs_at_most_result n f -> Derived.logs_at_most m g ->
  Derived.logs_at_most_result (n + m)
    (fun d => match f d with Ok d' => Ok (g d') | Throw e => Throw e end).
Proof.
  intros Fg Lf Lg content d. cbv beta.
  destruct (f (content, [])) as [[c1 l1]|e] eqn:Ef; [|discriminate].
  intros H. injection H as <-. rewrite (Fg c1 l1). cbn [snd]. rewrite length_app.
  specialize (Lf content (c1, l1) Ef). specialize (Lg c1). cbn [snd] in Lf. lia.
Qed.

(** Each of the eight fixes is a guarded step of this kind. *)
Ltac guarded_step :=
  intros content; intros;
  match goal with
  | |- context [if ?g then _ else _] => destruct g
  end;
  cbn [fst snd Derived.b2n List.length app]; rewrite ?app_nil_r; auto; try lia; try discriminate.

Lemma fix_title_step (check_id fix_instruction : string) :
  let f := fix_title check_id fix_instruction domain businessName in
  Derived.framed f /\ Derived.quiet f
  /\ Derived.logs_at_most (Derived.b2n (startsWith check_id "2_01")) f.
Proof.
  cbv zeta. unfold Derived.framed, Derived.quiet, Derived.logs_at_most, fix_title.
  split; [|split].
  - guarded_step.
  - guarded_step.
  - intros content. destruct (startsWith check_id "2_01"); cbn [andb];
      [destruct (negb _)|]; cbn; lia.
Qed.

Lemma fix_description_step (check_id fix_instruction : string) :
  let f := fix_description check_id fix_instruction businessName in
  Derived.framed f /\ Derived.quiet f
  /\ Derived.logs_at_most (Derived.b2n (startsWith check_id "2_02")) f.
Proof.
  cbv zeta. unfold Derived.framed, Derived.quiet, Derived.logs_at_most, fix_description.
  split; [|split].
  - guarded_step.
  - guarded_step.
  - intros content. destruct (startsWith check_id "2_02"); cbn [andb];
      [destruct (negb _)|]; cbn; lia.
Qed.

Lemma fix_canonical_step (check_id fix_instruction : string) :
  let f := fix_canonical check_id fix_instruction domain in
  Derived.framed f /\ Derived.quiet f
  /\ Derived.logs_at_most (Derived.b2n (startsWith check_id "1_06")) f.
Proof.
  cbv zeta. unfold Derived.framed, Derived.quiet, Derived.logs_at_most, fix_canonical.
  split; [|split].
  - guarded_step.
  - guarded_step.
  - intros content. destruct (startsWith check_id "1_06"); cbn [andb];
      [destruct (negb _ && negb _)|]; cbn; lia.
Qed.

Lemma fix_robots_step (check_id : string) :
  let f := fix_robots check_id in
  Derived.framed f /\ Derived.quiet f
  /\ Derived.logs_at_most (Derived.b2n (startsWith check_id "1_07")) f.
Proof.
  cbv zeta. unfold Derived.framed, Derived.quiet, Derived.logs_at_most, fix_robots.
  split; [|split].
  - guarded_step.
  - guarded_step.
  - intros content. destruct (startsWith check_id "1_07"); cbn [andb];
      [destruct (negb _)|]; cbn; lia.
Qed.

Lemma fix_viewport_step (check_id : string) :
  let f := fix_viewport check_id in
  Derived.framed f /\ Derived.quiet f
  /\ Derived.logs_at_most (Derived.b2n (startsWith check_id "1_13")) f.
Proof.
  cbv zeta. unfold Derived.framed, Derived.quiet, Derived.logs_at_most, fix_viewport.
  split; [|split].
  - guarded_step.
  - guarded_step.
  - intros content. destruct (startsWith check_id "1_13"); cbn [andb];
      [destruct (negb _)|]; cbn; lia.
Qed.

Lemma fix_charset_step (check_id : string) :
  let f := fix_charset check_id in
  Derived.framed f /\ Derived.quiet f
  /\ Derived.logs_at_most (Derived.b2n (startsWith check_id "1_14")) f.
Proof.
  cbv zeta. unfold Derived.framed, Derived.quiet, Derived.logs_at_most, fix_charset.
  split; [|split].
  - guarded_step.
  - guarded_step.
  - intros content. destruct (startsWith check_id "1_14"); cbn [andb];
      [destruct (negb _)|]; cbn; lia.
Qed.

Lemma fix_lang_step (check_id : string) :
  let f := fix_lang check_id in
  Derived.framed f /\ Derived.quiet f
  /\ Derived.logs_at_most (Derived.b2n (startsWith check_id "1_15")) f.
Proof.
  cbv zeta. unfold Derived.framed, Derived.quiet, Derived.logs_at_most, fix_lang.
  split; [|split].
  - guarded_step.
  - guarded_step.
  - intros content. destruct (startsWith check_id "1_15"); cbn [andb];
      [destruct (negb _)|]; cbn; lia.
Qed.

Lemma fix_og_step (check_id fix_instruction : string) :
  let f := fix_og engine check_id fix_instruction in
  Derived.framed_result f /\ Derived.quiet_result f
  /\ Derived.logs_at_most_result
       (Derived.b2n (startsWith check_id "4_" && includes check_id "og_")) f.
Proof.
  cbv zeta.
  unfold Derived.framed_result, Derived.quiet_result, Derived.logs_at_most_result, fix_og.
  split; [|split]; intros content; intros;
    destruct (startsWith check_id "4_" && includes check_id "og_");
    repeat match goal with
           | H : Ok _ = Ok _ |- _ => injection H as <-
           | H : Throw _ = Ok _ |- _ => discriminate H
           | H : context [match ?x with _ => _ end] |- _ => destruct x
           | |- context [match ?x with _ => _ end] => destruct x
           end;
    cbn [fst snd Derived.b2n List.length app] in *; rewrite ?app_nil_r;
    auto; try lia; try discriminate.
Qed.

End ChangeLog.

(** ** One fix per issue *)

(** The prefixes of the eight fixes exclude one another. *)
Lemma at_most_one_route (check_id : string) : (Derived.routes check_id <= 1)%nat.
Proof.
  unfold Derived.routes.
  destruct (startsWith check_id "2_01") eqn:E1;
    [repeat (apply startsWith_cons in E1 as (? & -> & E1)); cbn; lia|].
  destruct (startsWith check_id "2_02") eqn:E2;
    [repeat (apply startsWith_cons in E2 as (? & -> & E2)); cbn; lia|].
  destruct (startsWith check_id "1_06") eqn:E3;
    [repeat (apply startsWith_cons in E3 as (? & -> & E3)); cbn; lia|].
  destruct (startsWith check_id "1_07") eqn:E4;
    [repeat (apply startsWith_cons in E4 as (? & -> & E4)); cbn; lia|].
  destruct (startsWith check_id "1_13") eqn:E5;
    [repeat (apply startsWith_cons in E5 as (? & -> & E5)); cbn; lia|].
  destruct (startsWith check_id "1_14") eqn:E6;
    [repeat (apply startsWith_cons in E6 as (? & -> & E6)); cbn; lia|].
  destruct (startsWith check_id "4_") eqn:E7;
    [repeat (apply startsWith_cons in E7 as (? & -> & E7)); cbn;
     destruct (includes _ _); cbn; lia|].
  cbn. destruct (startsWith check_id "1_15"); cbn; lia.
Qed.

Section IssueSteps.
Variable engine : Engine.
Variables domain businessName : option string.

Lemma apply_issue_step (issue : FixIssue.t) :
  let f := apply_issue engine domain businessName issue in
  Derived.framed_result f /\ Derived.quiet_result f /\ Derived.logs_at_most_result 1 f.
Proof.
  cbv zeta.
  set (id := FixIssue.check_id issue). set (fi := FixIssue.fix_instruction issue).
  destruct (fix_title_step domain businessName id fi) as (F1 & Q1 & L1).
  destruct (fix_description_step businessName id fi) as (F2 & Q2 & L2).
  destruct (fix_canonical_step domain id fi) as (F3 & Q3 & L3).
  destruct (fix_robots_step id) as (F4 & Q4 & L4).
  destruct (fix_viewport_step id) as (F5 & Q5 & L5).
  destruct (fix_charset_step id) as (F6 & Q6 & L6).
  destruct (fix_og_step engine id fi) as (F7 & Q7 & L7).
  destruct (fix_lang_step id) as (F8 & Q8 & L8).
  cbv zeta in *.
  pose proof (framed_compose _ _ F1 F2) as G2.
  pose proof (framed_compose _ _ G2 F3) as G3.
  pose proof (framed_compose _ _ G3 F4) as G4.
  pose proof (framed_compose _ _ G4 F5) as G5.
  pose proof (framed_compose _ _ G5 F6) as G6.
  pose proof (framed_then_result _ _ G6 F7) as G7.
  pose proof (framed_result_then _ _ G7 F8) as G8.
  pose proof (quiet_compose _ _ F2 Q1 Q2) as R2.
  pose proof (quiet_compose _ _ F3 R2 Q3) as R3.
  pose proof (quiet_compose _ _ F4 R3 Q4) as R4.
  pose proof (quiet_compose _ _ F5 R4 Q5) as R5.
  pose proof (quiet_compose _ _ F6 R5 Q6) as R6.
  pose proof (quiet_then_result _ _ F7 R6 Q7) as R7.
  pose proof (quiet_result_then _ _ F8 R7 Q8) as R8.
  pose proof (logs_compose _ _ _ _ F2 L1 L2) as M2.
  pose proof (logs_compose _ _ _ _ F3 M2 L3) as M3.
  pose proof (logs_compose _ _ _ _ F4 M3 L4) as M4.
  pose proof (logs_compose _ _ _ _ F5 M4 L5) as M5.
  pose proof (logs_compose _ _ _ _ F6 M5 L6) as M6.
  pose proof (logs_then_result _ _ _ _ F7 M6 L7) as M7.
  pose proof (logs_result_then _ _ _ _ F8 M7 L8) as M8.
  cbv beta in *.
  split; [exact G8|]. split; [exact R8|].
  intros content d Hd. specialize (M8 content d Hd).
  pose proof (at_most_one_route id) as Hone. unfold Derived.routes in Hone. lia.
Qed.

Lemma apply_issues_step (issues : list FixIssue.t) :
  let f := apply_issues engine domain businessName issues in
  Derived.framed_result f /\ Derived.quiet_result f
  /\ Derived.logs_at_most_result (List.length issues) f.
Proof.
  cbv zeta. induction issues as [|issue rest (F & Q & L)].
  - split; [|split].
    + intros content changes. cbn. now rewrite app_nil_r.
    + intros content d H. injection H as <-. reflexivity.
    + intros content d H. injection H as <-. cbn. lia.
  - destruct (apply_issue_step issue) as (F1 & Q1 & L1). cbv zeta in *.
    split; [|split].
    + intros content changes. cbn [apply_issues]. rewrite (F1 content changes).
      destruct (apply_issue _ _ _ issue (content, [])) as [[c1 l1]|e]; [|reflexivity].
      cbn [fst snd]. rewrite F, (F c1 l1).
      destruct (apply_issues _ _ _ rest (c1, [])) as [[c2 l2]|e]; [|reflexivity].
      cbn [fst snd]. now rewrite app_assoc.
    + intros content d. cbn [apply_issues].
      destruct (apply_issue _ _ _ issue (content, [])) as [[c1 l1]|e] eqn:E1; [|discriminate].
      rewrite (F c1 l1).
      destruct (apply_issues _ _ _ rest (c1, [])) as [[c2 l2]|e] eqn:E2; [|discriminate].
      intros H. injection H as <-. cbn [fst snd]. intros H.
      apply app_eq_nil in H as [H1 H2].
      rewrite <- (Q1 content (c1, l1) E1 H1). apply (Q c1 (c2, l2) E2 H2).
    + intros content d. cbn [apply_issues].
      destruct (apply_issue _ _ _ issue (content, [])) as [[c1 l1]|e] eqn:E1; [|discriminate].
      rewrite (F c1 l1).
      destruct (apply_issues _ _ _ rest (c1, [])) as [[c2 l2]|e] eqn:E2; [|discriminate].
      intros H. injection H as <-. cbn [snd List.length]. rewrite length_app.
      specialize (L1 content (c1, l1) E1). specialize (L c1 (c2, l2) E2).
      cbn [snd] in *. lia.
Qed.

Lemma apply_issues_app (l1 l2 : list FixIssue.t) (d : Draft) :
  apply_issues engine domain businessName (l1 ++ l2) d
  = match apply_issues engine domain businessName l1 d with
    | Ok d1 => apply_issues engine domain businessName l2 d1
    | Throw e => Throw e
    end.
Proof.
  revert d. induction l1 as [|issue l1 IH]; intros d; [reflexivity|].
  cbn [app apply_issues].
  destruct (apply_issue _ _ _ issue d) as [d1|e]; [apply IH | reflexivity].
Qed.

End IssueSteps.

(** X8. A call logs at most one change for each issue it is given. *)
Theorem one_change_per_issue_at_most (engine : Engine) (files files' : gmap string string)
    (filePath : string) (issues : list FixIssue.t) (domain businessName : option string)
    (report : FixReport.t) :
  fixSeoIssues engine files filePath issues domain businessName = (Ok report, files') ->
  (List.length (FixReport.changes report) <= List.length issues)%nat.
Proof.
  unfold fixSeoIssues. intros H.
  destruct (files !! filePath) as [content|]; [|discriminate].
  destruct (apply_issues _ _ _ _ _) as [[content' changes]|e] eqn:E; [|discriminate].
  injection H as <- <-. cbn [FixReport.changes].
  destruct (apply_issues_step engine domain businessName issues) as (_ & _ & L).
  apply (L content (content', changes) E).
Qed.

Lemma one_change_per_issue_at_most_witness :
  (List.length
     ["Added title tag: " +:+ dq +:+ "Welcome to Example" +:+ dq; "Added og tag"]
   <= List.length [Examples.title_issue; Examples.og_issue; Examples.unknown_issue])%nat.
Proof.
  apply (one_change_per_issue_at_most Examples.no_engine
           {[ Examples.path := Examples.bare_page ]}
           (snd (fixSeoIssues Examples.no_engine {[ Examples.path := Examples.bare_page ]}
                   Examples.path
                   [Examples.title_issue; Examples.og_issue; Examples.unknown_issue]
                   None None))
           Examples.path [Examples.title_issue; Examples.og_issue; Examples.unknown_issue]
           None None
           {| FixReport.original_size := 55; FixReport.fixed_size := 143;
              FixReport.changes :=
                ["Added title tag: " +:+ dq +:+ "Welcome to Example" +:+ dq; "Added og tag"] |}).
  vm_compute. reflexivity.
Defined.

(** X9. No edit goes unlogged: when the change log of a call is empty, the
    files are exactly as they were before the call. *)
Theorem empty_log_means_unchanged (engine : Engine) (files files' : gmap string string)
    (filePath : string) (issues : list FixIssue.t) (domain businessName : option string)
    (report : FixReport.t) :
  fixSeoIssues engine files filePath issues domain businessName = (Ok report, files') ->
  FixReport.changes report = [] ->
  files' = files /\ FixReport.fixed_size report = FixReport.original_size report.
Proof.
  unfold fixSeoIssues. intros H.
  destruct (files !! filePath) as [content|] eqn:Hfile; [|discriminate].
  destruct (apply_issues _ _ _ _ _) as [[content' changes]|e] eqn:E; [|discriminate].
  injection H as <- <-. cbn [FixReport.changes FixReport.fixed_size FixReport.original_size].
  intros ->.
  destruct (apply_issues_step engine domain businessName issues) as (_ & Q & _).
  pose proof (Q content (content', []) E eq_refl) as Hc. cbn [fst] in Hc. subst content'.
  split; [now apply insert_id | reflexivity].
Qed.

Lemma empty_log_means_unchanged_witness :
  snd (fixSeoIssues Examples.no_engine {[ Examples.path := Examples.titled_page ]}
         Examples.path [Examples.title_issue; Examples.unknown_issue] None None)
  = {[ Examples.path := Examples.titled_page ]}.
Proof.
  apply (empty_log_means_unchanged Examples.no_engine
           {[ Examples.path := Examples.titled_page ]}
           (snd (fixSeoIssues Examples.no_engine {[ Examples.path := Examples.titled_page ]}
                   Examples.path [Examples.title_issue; Examples.unknown_issue] None None))
           Examples.path [Examples.title_issue; Examples.unknown_issue] None None
           {| FixReport.original_size := 61; FixReport.fixed_size := 61;
              FixReport.changes := [] |}).
  - vm_compute. reflexivity.
  - reflexivity.
Defined.

(** X10. Issues can be applied in instalments: a call with the issues of
    two successive calls, one after the other, stores the same document
    as the second of them, reports the original size of the first and the
    fixed size of the second, and logs the changes of both in order. *)
Theorem fixSeoIssues_in_instalments (engine : Engine) (files files1 files2 : gmap string string)
    (filePath : string) (issues1 issues2 : list FixIssue.t)
    (domain businessName : option string) (report1 report2 : FixReport.t) :
  fixSeoIssues engine files filePath issues1 domain businessName = (Ok report1, files1) ->
  fixSeoIssues engine files1 filePath issues2 domain businessName = (Ok report2, files2) ->
  fixSeoIssues engine files filePath (issues1 ++ issues2) domain businessName
  = (Ok {| FixReport.original_size := FixReport.original_size report1;
           FixReport.fixed_size := FixReport.fixed_size report2;
           FixReport.changes := FixReport.changes report1 ++ FixReport.changes report2 |},
     files2).
Proof.
  unfold fixSeoIssues. intros H1 H2.
  destruct (files !! filePath) as [content|] eqn:Hfile; [|discriminate].
  destruct (apply_issues _ _ _ issues1 _) as [[c1 l1]|e] eqn:E1; [|discriminate].
  injection H1 as <- <-. rewrite lookup_insert_eq in H2.
  destruct (apply_issues _ _ _ issues2 _) as [[c2 l2]|e] eqn:E2; [|discriminate].
  injection H2 as <- <-.
  rewrite apply_issues_app, E1.
  destruct (apply_issues_step engine domain businessName issues2) as (F & _).
  rewrite (F c1 l1), E2. cbn [fst snd FixReport.original_size FixReport.fixed_size
    FixReport.changes]. now rewrite insert_insert_eq.
Qed.

Lemma fixSeoIssues_in_instalments_witness :
  fst (fixSeoIssues Examples.no_engine {[ Examples.path := Examples.bare_page ]} Examples.path
         ([Examples.title_issue] ++ [Examples.og_issue]) None None)
  = Ok {| FixReport.original_size := 55; FixReport.fixed_size := 143;
          FixReport.changes :=
            ["Added title tag: " +:+ dq +:+ "Welcome to Example" +:+ dq] ++ ["Added og tag"] |}.
Proof.
  pose proof (fixSeoIssues_in_instalments Examples.no_engine
                {[ Examples.path := Examples.bare_page ]}
                (snd (fixSeoIssues Examples.no_engine {[ Examples.path := Examples.bare_page ]}
                        Examples.path [Examples.title_issue] None None))
                (snd (fixSeoIssues Examples.no_engine {[ Examples.path := Examples.bare_page ]}
                        Examples.path [Examples.title_issue; Examples.og_issue] None None))
                Examples.path [Examples.title_issue] [Examples.og_issue] None None
                {| FixReport.original_size := 55; FixReport.fixed_size := 93;
                   FixReport.changes :=
                     ["Added title tag: " +:+ dq +:+ "Welcome to Example" +:+ dq] |}
                {| FixReport.original_size := 93; FixReport.fixed_size := 143;
                   FixReport.changes := ["Added og tag"] |}) as H.
  rewrite H.
  - reflexivity.
  - vm_compute. reflexivity.
  - vm_compute. reflexivity.
Defined.

(** X11. A call whose issues are all outside the eight fixes (an empty
    list among them) returns an empty change log and equal sizes, and
    leaves the files exactly as they were. *)
Theorem unrouted_issues_change_nothing (engine : Engine) (files : gmap string string)
    (filePath content : string) (issues : list FixIssue.t)
    (domain businessName : option string) :
  files !! filePath = Some content ->
  Forall (fun issue => Spec.unrouted (FixIssue.check_id issue) = true) issues ->
  fixSeoIssues engine files filePath issues domain businessName
  = (Ok {| FixReport.original_size := length content;
           FixReport.fixed_size := length content;
           FixReport.changes := [] |},
     files).
Proof.
  intros Hfile Hall. unfold fixSeoIssues. rewrite Hfile.
  assert (E : apply_issues engine domain businessName issues (content, [])
              = Ok (content, [])).
  { induction Hall as [|issue rest Hun _ IH]; [reflexivity|].
    cbn [apply_issues]. now rewrite (apply_issue_unrouted engine domain businessName issue). }
  rewrite E. now rewrite insert_id.
Qed.

Lemma unrouted_issues_change_nothing_witness :
  fixSeoIssues Examples.no_engine {[ Examples.path := Examples.bare_page ]} Examples.path
    [Examples.unknown_issue] None None
  = (Ok {| FixReport.original_size := length Examples.bare_page;
           FixReport.fixed_size := length Examples.bare_page;
           FixReport.changes := [] |},
     {[ Examples.path := Examples.bare_page ]}).
Proof.
  apply (unrouted_issues_change_nothing Examples.no_engine
           {[ Examples.path := Examples.bare_page ]} Examples.path Examples.bare_page
           [Examples.unknown_issue] None None).
  - vm_compute. reflexivity.
  - repeat constructor.
Defined.

(** ** The Open Graph fix and the names the audit reads *)



(** ** The fixes that insert at an anchor *)

Section Anchors.

Lemma includes_append_r (s t m : string) :
  includes t m = true -> includes (s +:+ t) m = true.
Proof.
  intros H. induction s as [|c s IH]; [exact H|].
  change (String c s +:+ t) with (String c (s +:+ t)). cbn [includes].
  rewrite IH. apply orb_true_r.
Qed.

Lemma includes_append_l (s t m : string) :
  includes s m = true -> includes (s +:+ t) m = true.
Proof.
  induction s as [|c s IH]; intros H.
  - cbn [includes] in H. rewrite orb_false_r in H.
    destruct m; [|discriminate]. destruct t; reflexivity.
  - change (String c s +:+ t) with (String c (s +:+ t)).
    cbn [includes] in H |- *. apply orb_true_iff in H as [H|H].
    + change (String c (s +:+ t)) with (String c s +:+ t).
      rewrite (startsWith_append _ _ t H). reflexivity.
    + rewrite (IH H). apply orb_true_r.
Qed.

Lemma getSubstitution_plain_append (matched before after p t : string) :
  Derived.dollar_free p = true ->
  getSubstitution matched before after (p +:+ t)
  = p +:+ getSubstitution matched before after t.
Proof.
  induction p as [|c p IH]; intros H; [reflexivity|].
  cbn [Derived.dollar_free] in H. apply andb_prop in H as [Hc Hp].
  apply negb_true_iff in Hc.
  change (String c p +:+ t) with (String c (p +:+ t)).
  cbn [getSubstitution]. rewrite Hc, (IH Hp). reflexivity.
Qed.

Lemma getSubstitution_dollar_free (matched before after t : string) :
  Derived.dollar_free t = true -> getSubstitution matched before after t = t.
Proof.
  induction t as [|c t IH]; intros H; [reflexivity|].
  cbn [Derived.dollar_free] in H. apply andb_prop in H as [Hc Hp].
  apply negb_true_iff in Hc. cbn [getSubstitution]. rewrite Hc, (IH Hp). reflexivity.
Qed.

Lemma dollar_free_append (p t : string) :
  Derived.dollar_free p = true -> Derived.dollar_free t = true ->
  Derived.dollar_free (p +:+ t) = true.
Proof.
  induction p as [|c p IH]; intros Hp Ht; [exact Ht|].
  change (String c p +:+ t) with (String c (p +:+ t)).
  cbn [Derived.dollar_free] in *. apply andb_prop in Hp as [Hc Hp].
  now rewrite Hc, IH.
Qed.

(** After a replacement at a literal anchor the document holds every text
    that the plain head of the template holds. *)
Lemma replace_lit_includes (w p rest marker s : string) :
  test (lit w) s = true ->
  Derived.dollar_free p = true ->
  includes p marker = true ->
  includes (replace (lit w) (p +:+ rest) s) marker = true.
Proof.
  unfold test, replace. intros Ht Hp Hm.
  destruct (exec (lit w) s) as [[a b g]|]; [|discriminate].
  rewrite getSubstitution_plain_append by exact Hp.
  apply includes_append_r. apply includes_append_l. now apply includes_append_l.
Qed.

End Anchors.

(** An issue goes through exactly the fix of its prefix. *)
Section Routing.
Variable engine : Engine.
Variables domain businessName : option string.

Ltac route H :=
  repeat (apply startsWith_cons in H as (? & -> & H));
  unfold apply_issue;
  cbn [FixIssue.check_id FixIssue.fix_instruction].

Lemma title_route (issue : FixIssue.t) (d : Draft) :
  startsWith (FixIssue.check_id issue) "2_01" = true ->
  apply_issue engine domain businessName issue d
  = Ok (fix_title (FixIssue.check_id issue) (FixIssue.fix_instruction issue) domain
          businessName d).
Proof.
  intros H. destruct issue as [id fi]. cbn [FixIssue.check_id] in H. route H.
  destruct (fix_title _ fi domain businessName d) as [c l].
  unfold fix_description, fix_canonical, fix_robots, fix_viewport, fix_charset, fix_og, fix_lang.
  cbn [startsWith Ascii.eqb Bool.eqb andb]. reflexivity.
Qed.

Lemma canonical_route (issue : FixIssue.t) (d : Draft) :
  startsWith (FixIssue.check_id issue) "1_06" = true ->
  apply_issue engine domain businessName issue d
  = Ok (fix_canonical (FixIssue.check_id issue) (FixIssue.fix_instruction issue) domain d).
Proof.
  intros H. destruct issue as [id fi]. cbn [FixIssue.check_id] in H. route H.
  destruct d as [c0 l0].
  unfold fix_title, fix_description. cbn [startsWith Ascii.eqb Bool.eqb andb].
  destruct (fix_canonical _ fi domain (c0, l0)) as [c l].
  unfold fix_robots, fix_viewport, fix_charset, fix_og, fix_lang.
  cbn [startsWith Ascii.eqb Bool.eqb andb]. reflexivity.
Qed.

Lemma charset_route (issue : FixIssue.t) (d : Draft) :
  startsWith (FixIssue.check_id issue) "1_14" = true ->
  apply_issue engine domain businessName issue d
  = Ok (fix_charset (FixIssue.check_id issue) d).
Proof.
  intros H. destruct issue as [id fi]. cbn [FixIssue.check_id] in H. route H.
  destruct d as [c0 l0].
  unfold fix_title, fix_description, fix_canonical, fix_robots, fix_viewport.
  cbn [startsWith Ascii.eqb Bool.eqb andb].
  destruct (fix_charset _ (c0, l0)) as [c l].
  unfold fix_og, fix_lang.
  cbn [startsWith Ascii.eqb Bool.eqb andb]. reflexivity.
Qed.

Lemma lang_route (issue : FixIssue.t) (d : Draft) :
  startsWith (FixIssue.check_id issue) "1_15" = true ->
  apply_issue engine domain businessName issue d
  = Ok (fix_lang (FixIssue.check_id issue) d).
Proof.
  intros H. destruct issue as [id fi]. cbn [FixIssue.check_id] in H. route H.
  destruct d as [c0 l0].
  unfold fix_title, fix_description, fix_canonical, fix_robots, fix_viewport, fix_charset,
    fix_og.
  cbn [startsWith Ascii.eqb Bool.eqb andb]. reflexivity.
Qed.

Lemma viewport_route (issue : FixIssue.t) (d : Draft) :
  startsWith (FixIssue.check_id issue) "1_13" = true ->
  apply_issue engine domain businessName issue d
  = Ok (fix_viewport (FixIssue.check_id issue) d).
Proof.
  intros H. destruct issue as [id fi]. cbn [FixIssue.check_id] in H. route H.
  destruct d as [c0 l0].
  unfold fix_title, fix_description, fix_canonical, fix_robots.
  cbn [startsWith Ascii.eqb Bool.eqb andb].
  destruct (fix_viewport _ (c0, l0)) as [c l].
  unfold fix_charset, fix_og, fix_lang.
  cbn [startsWith Ascii.eqb Bool.eqb andb]. reflexivity.
Qed.

End Routing.

Section Twice.

Lemma search_append (r : regex) (x : string) :
  (forall prev pos, match_here r prev pos x <> None) ->
  forall (pre : string) prev pos, search r prev pos (pre +:+ x) <> None.
Proof.
  intros Hx. induction pre as [|c pre IH]; intros prev pos.
  - change (EmptyString +:+ x) with x. destruct x as [|d x]; cbn [search];
      specialize (Hx prev pos); destruct (match_here r prev pos _) as [[e g]|];
      congruence.
  - change (String c pre +:+ x) with (String c (pre +:+ x)). cbn [search].
    destruct (match_here r prev pos _) as [[e g]|]; [discriminate | apply IH].
Qed.

Lemma rep_succeeds (ok : ascii -> bool) (k : option ascii -> nat -> string -> option outcome)
    (s : string) :
  forall prev pos, k prev pos s <> None -> rep ok k prev pos s <> None.
Proof.
  destruct s as [|c s]; intros prev pos H; cbn [rep]; [exact H|].
  destruct (ok c); [|exact H].
  destruct (rep ok k (Some c) (S pos) s); [discriminate | exact H].
Qed.

Lemma rep_one (ok : ascii -> bool) (k : option ascii -> nat -> string -> option outcome)
    (c : ascii) (s : string) prev pos :
  ok c = true -> k (Some c) (S pos) s <> None -> rep ok k prev pos (String c s) <> None.
Proof.
  intros Hc H. cbn [rep]. rewrite Hc.
  pose proof (rep_succeeds ok k s (Some c) (S pos) H) as Hr.
  destruct (rep ok k (Some c) (S pos) s); [discriminate | contradiction].
Qed.

(** A literal pattern matches its own text. *)
Lemma run_lit_self (w : string) :
  forall (k : cont) cap prev pos s,
    exists prev', run (lit w) k cap prev pos (w +:+ s) = k cap prev' (pos + String.length w)%nat s.
Proof.
  induction w as [|c w IH]; intros k cap prev pos s.
  - exists prev. cbn. now rewrite Nat.add_0_r.
  - change (String c w +:+ s) with (String c (w +:+ s)).
    cbn [lit run chr_i String.length]. rewrite Nat.eqb_refl.
    destruct (IH k cap (Some c) (S pos) s) as [prev' H]. exists prev'. rewrite H.
    f_equal. lia.
Qed.

(** The tag the language fix writes is one the guard of the fix finds. *)
Lemma lang_tag_found (post : string) prev pos :
  match_here (seq_of [lit "<html"; Rep not_gt; lit "lang="]) prev pos
    (("<html lang=" +:+ dq +:+ "en" +:+ dq) +:+ post)
  <> None.
Proof.
  unfold match_here.
  change (("<html lang=" +:+ dq +:+ "en" +:+ dq) +:+ post)
    with ("<html" +:+ String " " ("lang=" +:+ (dq +:+ "en" +:+ dq +:+ post))).
  cbn [seq_of run].
  match goal with
  | |- run (lit "<html") ?k ?cap ?pv ?ps (_ +:+ ?rest) <> None =>
      destruct (run_lit_self "<html" k cap pv ps rest) as [p1 ->]
  end.
  apply rep_one; [reflexivity|].
  match goal with
  | |- run (lit "lang=") ?k ?cap ?pv ?ps (_ +:+ ?rest) <> None =>
      destruct (run_lit_self "lang=" k cap pv ps rest) as [p2 ->]
  end.
  unfold accept. discriminate.
Qed.

Lemma test_iff_exec (r : regex) (s : string) : test r s = true <-> exec r s <> None.
Proof. unfold test. destruct (exec r s); split; congruence. Qed.

Lemma lang_fix_found (content : string) :
  test (lit "<html") content = true ->
  test (seq_of [lit "<html"; Rep not_gt; lit "lang="])
    (replace (lit "<html") ("<html lang=" +:+ dq +:+ "en" +:+ dq) content)
  = true.
Proof.
  intros Ht. apply test_iff_exec. unfold replace.
  destruct (exec (lit "<html") content) as [[a b g]|] eqn:E;
    [|unfold test in Ht; rewrite E in Ht; discriminate].
  rewrite getSubstitution_dollar_free by reflexivity.
  unfold exec. apply search_append. intros prev pos. apply lang_tag_found.
Qed.

(** Applied to its own result, an anchored fix does nothing more. *)
Lemma fix_title_twice (check_id fix_instruction : string) (domain businessName : option string)
    (content : string) (changes : list string) :
  test (lit "<head>") content = true ->
  let f := fix_title check_id fix_instruction domain businessName in
  f (f (content, changes)) = f (content, changes).
Proof.
  intros Ht. cbv zeta. unfold fix_title.
  destruct (startsWith check_id "2_01" && negb (includes content "<title>")) eqn:G;
    [|now rewrite G].
  match goal with
  | |- context [includes (replace ?r ?t ?s) ?m] =>
      assert (H : includes (replace r t s) m = true)
        by (apply (replace_lit_includes "<head>" ("<head>" +:+ LF +:+ "    <title>")
                     _ "<title>" content Ht eq_refl eq_refl))
  end.
  rewrite H. cbn [negb]. now rewrite andb_false_r.
Qed.

Lemma fix_canonical_twice (check_id fix_instruction : string) (domain : option string)
    (content : string) (changes : list string) :
  test (lit "</title>") content = true ->
  let f := fix_canonical check_id fix_instruction domain in
  f (f (content, changes)) = f (content, changes).
Proof.
  intros Ht. cbv zeta. unfold fix_canonical.
  destruct (_ && _) eqn:G; [|now rewrite G].
  match goal with
  | |- context [includes (replace ?r ?t ?s) ("rel=" +:+ dq +:+ "canonical" +:+ dq)] =>
      assert (H : includes (replace r t s) ("rel=" +:+ dq +:+ "canonical" +:+ dq) = true)
        by (apply (replace_lit_includes "</title>"
                     ("</title>" +:+ LF +:+ "    <link rel=" +:+ dq +:+ "canonical" +:+ dq)
                     _ ("rel=" +:+ dq +:+ "canonical" +:+ dq) content Ht eq_refl eq_refl))
  end.
  rewrite H. cbn [negb]. now rewrite andb_false_r.
Qed.

Lemma fix_charset_twice (check_id : string) (content : string) (changes : list string) :
  test (lit "<head>") content = true ->
  let f := fix_charset check_id in
  f (f (content, changes)) = f (content, changes).
Proof.
  intros Ht. cbv zeta. unfold fix_charset.
  destruct (_ && _) eqn:G; [|now rewrite G].
  match goal with
  | |- context [includes (replace ?r ?t ?s) ?m] =>
      assert (H : includes (replace r t s) m = true)
        by (apply (replace_lit_includes "<head>"
                     ("<head>" +:+ LF +:+ "    <meta charset=") _ "charset" content Ht
                     eq_refl eq_refl))
  end.
  rewrite H. cbn [negb]. now rewrite andb_false_r.
Qed.

Lemma fix_lang_twice (check_id : string) (content : string) (changes : list string) :
  test (lit "<html") content = true ->
  let f := fix_lang check_id in
  f (f (content, changes)) = f (content, changes).
Proof.
  intros Ht. cbv zeta. unfold fix_lang.
  destruct (_ && _) eqn:G; [|now rewrite G].
  rewrite (lang_fix_found content Ht). cbn [negb]. now rewrite andb_false_r.
Qed.

End Twice.

(** X13. On a document without the text of a title tag, an issue of the
    title family with a title text free of dollar signs rewrites the first
    head tag, in whatever case it is written, to a lower-case head tag
    followed by a line with the new title, keeps everything before and
    after it, and logs the one change. *)
Theorem title_fix_inserts_after_head (engine : Engine) (domain businessName : option string)
    (issue : FixIssue.t) (content : string) (changes : list string)
    (a b : nat) (g : option (nat * nat)) :
  let titleText :=
    if nonempty (FixIssue.fix_instruction issue) then FixIssue.fix_instruction issue
    else or_else businessName "Website" +:+ " | " +:+ or_else domain EmptyString in
  startsWith (FixIssue.check_id issue) "2_01" = true ->
  includes content "<title>" = false ->
  exec (lit "<head>") content = Some (Found a b g) ->
  Derived.dollar_free titleText = true ->
  b = (a + 6)%nat
  /\ apply_issue engine domain businessName issue (content, changes)
     = Ok (take a content
             +:+ ("<head>" +:+ LF +:+ "    <title>" +:+ titleText +:+ "</title>")
             +:+ drop (a + 6) content,
           changes ++ ["Added title tag: " +:+ dq +:+ titleText +:+ dq]).
Proof.
  cbv zeta. intros Hid Hno Hexec Hfree.
  assert (Hb : b = (a + 6)%nat).
  { unfold exec in Hexec. apply search_lit in Hexec as (_ & Hb & _). exact Hb. }
  split; [exact Hb|].
  rewrite (title_route engine domain businessName issue (content, changes) Hid).
  unfold fix_title. rewrite Hid, Hno. cbn [negb andb].
  unfold replace. rewrite Hexec, <- Hb.
  rewrite getSubstitution_dollar_free; [reflexivity|].
  change (Derived.dollar_free
            (("<head>" +:+ LF +:+ "    <title>")
               +:+ ((if nonempty (FixIssue.fix_instruction issue)
                     then FixIssue.fix_instruction issue
                     else or_else businessName "Website" +:+ " | "
                            +:+ or_else domain EmptyString)
                      +:+ "</title>")) = true).
  apply dollar_free_append; [reflexivity|].
  apply dollar_free_append; [exact Hfree | reflexivity].
Qed.

Lemma title_fix_inserts_after_head_witness :
  apply_issue Examples.no_engine None None Examples.title_issue (Examples.bare_page, [])
  = Ok (take 6 Examples.bare_page
          +:+ ("<head>" +:+ LF +:+ "    <title>" +:+ "Welcome to Example" +:+ "</title>")
          +:+ drop (6 + 6) Examples.bare_page,
        [] ++ ["Added title tag: " +:+ dq +:+ "Welcome to Example" +:+ dq]).
Proof.
  apply (title_fix_inserts_after_head Examples.no_engine None None Examples.title_issue
           Examples.bare_page [] 6 12 None).
  - reflexivity.
  - vm_compute. reflexivity.
  - vm_compute. reflexivity.
  - vm_compute. reflexivity.
Defined.

(** X14. The title, canonical, charset and language fixes are idempotent
    on a document that holds their anchor: applying the same issue to the
    result of its first application changes neither the text nor the
    change log. *)
Theorem anchored_fixes_are_idempotent (engine : Engine) (domain businessName : option string)
    (issue : FixIssue.t) (content : string) (changes : list string) (d : Draft)
    (prefix anchor : string) :
  In (prefix, anchor) Derived.anchored_fixes ->
  startsWith (FixIssue.check_id issue) prefix = true ->
  test (lit anchor) content = true ->
  apply_issue engine domain businessName issue (content, changes) = Ok d ->
  apply_issue engine domain businessName issue d = Ok d.
Proof.
  intros Hin Hid Ht H. cbn [In Derived.anchored_fixes] in Hin.
  destruct Hin as [E|[E|[E|[E|[]]]]]; injection E as <- <-.
  - rewrite title_route in H |- * by exact Hid. injection H as <-.
    f_equal. apply (fix_title_twice _ _ _ _ content changes Ht).
  - rewrite canonical_route in H |- * by exact Hid. injection H as <-.
    f_equal. apply (fix_canonical_twice _ _ _ content changes Ht).
  - rewrite charset_route in H |- * by exact Hid. injection H as <-.
    f_equal. apply (fix_charset_twice _ content changes Ht).
  - rewrite lang_route in H |- * by exact Hid. injection H as <-.
    f_equal. apply (fix_lang_twice _ content changes Ht).
Qed.

Lemma anchored_fixes_are_idempotent_witness :
  apply_issue Examples.no_engine None None Examples.title_issue
    (take 6 Examples.bare_page
       +:+ ("<head>" +:+ LF +:+ "    <title>" +:+ "Welcome to Example" +:+ "</title>")
       +:+ drop 12 Examples.bare_page,
     ["Added title tag: " +:+ dq +:+ "Welcome to Example" +:+ dq])
  = Ok (take 6 Examples.bare_page
          +:+ ("<head>" +:+ LF +:+ "    <title>" +:+ "Welcome to Example" +:+ "</title>")
          +:+ drop 12 Examples.bare_page,
        ["Added title tag: " +:+ dq +:+ "Welcome to Example" +:+ dq]).
Proof.
  apply (anchored_fixes_are_idempotent Examples.no_engine None None Examples.title_issue
           Examples.bare_page [] _ "2_01" "<head>").
  - left. reflexivity.
  - reflexivity.
  - vm_compute. reflexivity.
  - vm_compute. reflexivity.
Defined.

(** ** The tool handler *)

(** X15. The handler of [fix_seo_issues] answers with an invalid-params
    error exactly when the file path is absent or empty or the issue list
    is absent, and with an internal error carrying the text
    [File not found: <path>] when the document does not exist; whenever it
    answers with an error the files are untouched, and a success carries
    the report and the files of [fixSeoIssues]. *)
Theorem fix_seo_issues_handler (engine : Engine) (files : gmap string string)
    (args : Server.FixArgs) :
  let answer := Server.fix_seo_issues engine files args in
  ((exists m, fst answer = inl {| Server.code := Server.InvalidParams; Server.message := m |})
   <-> truthy (Server.file_path args) = false \/ Server.issues_list args = None)
  /\ (forall e : Server.McpError, fst answer = inl e -> snd answer = files)
  /\ (forall (filePath : string) (issues : list FixIssue.t),
        Server.file_path args = Some filePath -> nonempty filePath = true ->
        Server.issues_list args = Some issues ->
        files !! filePath = None ->
        fst answer
        = inl {| Server.code := Server.InternalError;
                 Server.message := Server.Text ("File not found: " +:+ filePath) |})
  /\ (forall response : Server.FixResponse,
        fst answer = inr response ->
        exists issues : list FixIssue.t,
          Server.file_path args = Some (Server.file response)
          /\ Server.issues_list args = Some issues
          /\ Server.status response = "success"
          /\ fixSeoIssues engine files (Server.file response) issues (Server.domain args)
               (Server.business_name args)
             = (Ok (Server.report response), snd answer)).
Proof.
  cbv zeta. unfold Server.fix_seo_issues.
  assert (Hbad : forall m,
            truthy (Server.file_path args) = false \/ Server.issues_list args = None ->
            let answer :=
              (inl {| Server.code := Server.InvalidParams; Server.message := m |}
                 : Server.McpError + Server.FixResponse, files) in
            ((exists m', fst answer
                         = inl {| Server.code := Server.InvalidParams;
                                  Server.message := m' |})
             <-> truthy (Server.file_path args) = false \/ Server.issues_list args = None)
            /\ (forall e : Server.McpError, fst answer = inl e -> snd answer = files)
            /\ (forall (filePath : string) (issues : list FixIssue.t),
                  Server.file_path args = Some filePath -> nonempty filePath = true ->
                  Server.issues_list args = Some issues ->
                  files !! filePath = None ->
                  fst answer
                  = inl {| Server.code := Server.InternalError;
                           Server.message := Server.Text ("File not found: " +:+ filePath) |})
            /\ (forall response : Server.FixResponse,
                  fst answer = inr response ->
                  exists issues : list FixIssue.t,
                    Server.file_path args = Some (Server.file response)
                    /\ Server.issues_list args = Some issues
                    /\ Server.status response = "success"
                    /\ fixSeoIssues engine files (Server.file response) issues
                         (Server.domain args) (Server.business_name args)
                       = (Ok (Server.report response), snd answer))).
  { intros m Hor. cbv zeta. cbn [fst snd].
    split; [split; [intros _; exact Hor | intros _; eauto]|].
    split; [reflexivity|].
    split; [|discriminate].
    intros fp iss Hfp Hne Hiss _. destruct Hor as [H|H]; [|congruence].
    rewrite Hfp in H. destruct fp; discriminate. }
  destruct (Server.file_path args) as [[|c p]|] eqn:Hpath;
    [apply Hbad; left; reflexivity | | apply Hbad; left; reflexivity].
  destruct (Server.issues_list args) as [issues|] eqn:Hissues;
    [|apply Hbad; right; reflexivity].
  clear Hbad. cbn [truthy].
  unfold fixSeoIssues.
  destruct (files !! String c p) as [content|] eqn:Hfile.
  - destruct (apply_issues _ _ _ _ _) as [[c' l']|e] eqn:E; cbn [fst snd].
    + split; [split; [intros [m Hm]; discriminate | intros [H|H]; discriminate]|].
      split; [discriminate|].
      split; [intros fp iss Hfp _ _ Hnone; injection Hfp as <-; congruence|].
      intros response H. injection H as <-. cbn [Server.file Server.status Server.report].
      exists issues. rewrite Hfile, E. repeat split.
    + split; [split; [intros [m Hm]; discriminate | intros [H|H]; discriminate]|].
      split; [reflexivity|].
      split; [intros fp iss Hfp _ _ Hnone; injection Hfp as <-; congruence|].
      discriminate.
  - cbn [fst snd].
    split; [split; [intros [m Hm]; discriminate | intros [H|H]; discriminate]|].
    split; [reflexivity|].
    split; [intros fp iss Hfp _ _ _; injection Hfp as <-; reflexivity|].
    discriminate.
Qed.

Lemma fix_seo_issues_handler_witness :
  fst (Server.fix_seo_issues Examples.no_engine ∅
         {| Server.file_path := Some Examples.path;
            Server.issues_list := Some [Examples.title_issue];
            Server.domain := None; Server.business_name := None |})
  = inl {| Server.code := Server.InternalError;
           Server.message := Server.Text ("File not found: " +:+ Examples.path) |}.
Proof.
  apply (proj1 (proj2 (proj2
           (fix_seo_issues_handler Examples.no_engine ∅
              {| Server.file_path := Some Examples.path;
                 Server.issues_list := Some [Examples.title_issue];
                 Server.domain := None; Server.business_name := None |})))
           Examples.path [Examples.title_issue]); reflexivity.
Defined.

(** ** Loading the checklist *)

Section Loading.
Variable join : string -> string -> string.
Variable parse : string -> ChecklistStore.parsed.

(** X16. A checklist is loaded once: after a call that returned a
    checklist, every later call returns the same one, whatever has become
    of the environment and the files; a call that found none leaves the
    cache empty, so that the next call searches again. *)
Theorem loadChecklist_caches_success (env env' : ChecklistStore.Process)
    (files files' : gmap string string)
    (cachedChecklist : option (gmap string ChecklistStore.Entry)) :
  let first := ChecklistStore.loadChecklist join parse env files cachedChecklist in
  snd first = fst first
  /\ (forall c, fst first = Some c ->
        ChecklistStore.loadChecklist join parse env' files' (snd first) = (Some c, Some c))
  /\ (fst first = None ->
      cachedChecklist = None
      /\ ChecklistStore.loadChecklist join parse env' files' (snd first)
         = ChecklistStore.loadChecklist join parse env' files' None).
Proof.
  cbv zeta. unfold ChecklistStore.loadChecklist.
  destruct cachedChecklist as [c0|]; cbn [fst snd].
  - split; [reflexivity|]. split; [intros c H; injection H as <-; reflexivity | discriminate].
  - destruct (ChecklistStore.try_paths parse files (ChecklistStore.pathsToTry join env))
      as [[v|]|]; cbn [fst snd].
    + split; [reflexivity|]. split; [intros c H; injection H as <-; reflexivity | discriminate].
    + split; [reflexivity|]. split; [discriminate | intros _; split; reflexivity].
    + split; [reflexivity|]. split; [discriminate | intros _; split; reflexivity].
Qed.

(** X17. The search takes the first usable file. With an empty cache, a
    non-empty [CHECKLIST_PATH] whose file parses to a checklist wins over
    every other location; a path whose file is missing or does not parse
    is passed over; and a file that parses to a falsy value ends the
    search with no checklist, even when a later file would have served. *)
Theorem loadChecklist_first_usable_path (env : ChecklistStore.Process)
    (files : gmap string string) :
  (forall (p raw : string) (c : gmap string ChecklistStore.Entry),
     ChecklistStore.CHECKLIST_PATH env = Some p -> nonempty p = true ->
     files !! p = Some raw -> parse raw = ChecklistStore.Value (Some c) ->
     ChecklistStore.loadChecklist join parse env files None = (Some c, Some c))
  /\ (forall (p : string) (rest : list string),
        (files !! p = None
         \/ exists raw, files !! p = Some raw /\ parse raw = ChecklistStore.ParseError) ->
        ChecklistStore.try_paths parse files (p :: rest)
        = ChecklistStore.try_paths parse files rest)
  /\ (forall (p raw : string) (rest : list string),
        files !! p = Some raw -> parse raw = ChecklistStore.Value None ->
        ChecklistStore.try_paths parse files (p :: rest) = Some None)
  /\ (forall paths : list string,
        Forall (fun p => files !! p = None) paths ->
        ChecklistStore.try_paths parse files paths = None).
Proof.
  split; [|split; [|split]].
  - intros p raw c Hp Hne Hfile Hparse.
    unfold ChecklistStore.loadChecklist, ChecklistStore.pathsToTry.
    rewrite Hp. destruct p as [|ch p]; [discriminate|].
    cbn [truthy or_else app ChecklistStore.try_paths]. now rewrite Hfile, Hparse.
  - intros p rest [H|(raw & H1 & H2)]; cbn [ChecklistStore.try_paths].
    + now rewrite H.
    + now rewrite H1, H2.
  - intros p raw rest H1 H2. cbn [ChecklistStore.try_paths]. now rewrite H1, H2.
  - induction 1 as [|p paths Hp _ IH]; [reflexivity|].
    cbn [ChecklistStore.try_paths]. now rewrite Hp.
Qed.

End Loading.

(** X18. [getAuditSections] gives nothing without a checklist, so that
    every label of the audit falls back to its default. Of a checklist it
    keeps an entry, as it is, exactly when the entry has items and its
    key starts with digits and an underscore, the builder entry excepted;
    the nine section keys the audit reads all pass this test. *)
Theorem getAuditSections_keeps_sections (c : gmap string ChecklistStore.Entry) :
  ChecklistStore.getAuditSections None = ∅
  /\ (forall k : string, section_label (ChecklistStore.getAuditSections None) k = k)
  /\ (forall k : string,
        In k (map fst Derived.check_ids) ->
        ChecklistStore.getAuditSections (Some c) !! k
        = c !! k ≫= (fun e =>
            (fun its =>
               {| Templates.label := ChecklistStore.label e;
                  Templates.description := ChecklistStore.description e;
                  Templates.items := its |}) <$> ChecklistStore.items e))
  /\ ChecklistStore.getAuditSections (Some c) !! "0_website_builder_system" = None
  /\ (forall (k : string) (s : Templates.ChecklistSection),
        ChecklistStore.getAuditSections (Some c) !! k = Some s
        <-> ChecklistStore.is_section_key k = true
            /\ k <> "0_website_builder_system"
            /\ exists e, c !! k = Some e
                         /\ ChecklistStore.items e = Some (Templates.items s)
                         /\ ChecklistStore.label e = Templates.label s
                         /\ ChecklistStore.description e = Templates.description s).
Proof.
  split; [reflexivity|]. split.
  { intros k. reflexivity. }
  split.
  { intros k Hk. cbn [ChecklistStore.getAuditSections]. rewrite map_lookup_imap.
    cbn [map fst Derived.check_ids In] in Hk.
    repeat (destruct Hk as [<-|Hk];
            [destruct (c !! _) as [e|]; [|reflexivity]; cbn; unfold ChecklistStore.section_of;
             destruct (ChecklistStore.items e); reflexivity|]).
    contradiction. }
  split.
  { cbn [ChecklistStore.getAuditSections]. rewrite map_lookup_imap.
    destruct (c !! _) as [e|]; reflexivity. }
  intros k s. cbn [ChecklistStore.getAuditSections]. rewrite map_lookup_imap. split.
  - intros H. destruct (c !! k) as [e|] eqn:Hc; [|discriminate]. cbn in H.
    unfold ChecklistStore.section_of in H.
    destruct (ChecklistStore.is_section_key k) eqn:Hkey; [|discriminate].
    destruct (String.eqb k "0_website_builder_system") eqn:Hb; cbn [andb negb] in H;
      [discriminate|].
    destruct (ChecklistStore.items e) as [its|] eqn:Hits; [|discriminate].
    injection H as <-. split; [reflexivity|].
    split; [now apply String.eqb_neq|].
    exists e. repeat split. exact Hits.
  - intros (Hkey & Hb & e & Hc & Hits & Hlabel & Hdescription).
    rewrite Hc. cbn. unfold ChecklistStore.section_of.
    apply String.eqb_neq in Hb. rewrite Hkey, Hb, Hits. cbn [andb negb].
    destruct s as [l d its]. cbn [Templates.label Templates.description Templates.items] in *.
    now rewrite Hlabel, Hdescription.
Qed.

(** ** Counting images *)

Section Monotone.

Lemma rep_mono (ok : ascii -> bool)
    (k1 k0 : option ascii -> nat -> string -> option outcome) (s : string) :
  (forall prev pos s', k1 prev pos s' <> None -> k0 prev pos s' <> None) ->
  forall prev pos, rep ok k1 prev pos s <> None -> rep ok k0 prev pos s <> None.
Proof.
  intros Hk. induction s as [|c s IH]; intros prev pos; cbn [rep]; [apply Hk|].
  destruct (ok c); [|apply Hk].
  specialize (IH (Some c) (S pos)).
  destruct (rep ok k1 (Some c) (S pos) s).
  - intros _. destruct (rep ok k0 (Some c) (S pos) s); [discriminate|].
    exfalso. apply IH; [discriminate | reflexivity].
  - intros H. destruct (rep ok k0 (Some c) (S pos) s); [discriminate | now apply Hk].
Qed.

(** A pattern that matches with one continuation matches with every
    continuation that succeeds wherever the first does. *)
Lemma run_mono (r : regex) :
  forall k1 k0 : cont,
    (forall cap prev pos s, k1 cap prev pos s <> None ->
                            forall cap', k0 cap' prev pos s <> None) ->
    forall cap prev pos s,
      run r k1 cap prev pos s <> None -> forall cap', run r k0 cap' prev pos s <> None.
Proof.
  induction r as [ok|ok| | |r1 IH1 r2 IH2|r1 IH1 r2 IH2|r IH];
    intros k1 k0 Hk cap prev pos s H cap'; cbn [run] in H |- *.
  - destruct s as [|c s]; [exact H|]. destruct (ok c); [|exact H]. now apply (Hk cap).
  - revert H. apply rep_mono. intros p ps s' Hs. now apply (Hk cap).
  - destruct (xorb _ _); [|exact H]. now apply (Hk cap).
  - now apply (Hk cap).
  - apply (IH1 (run r2 k1) (run r2 k0)) with (cap := cap); [|exact H].
    intros c p ps s' Hs c'. apply (IH2 k1 k0 Hk c p ps s' Hs).
  - destruct (run r1 k1 cap prev pos s) eqn:E1.
    + assert (Hr : run r1 k0 cap' prev pos s <> None)
        by (apply (IH1 k1 k0 Hk cap); congruence).
      destruct (run r1 k0 cap' prev pos s); [discriminate | contradiction].
    + destruct (run r1 k0 cap' prev pos s); [discriminate|].
      now apply (IH2 k1 k0 Hk cap).
  - apply (IH (fun _ prev' pos' s' => k1 (Some (pos, pos')) prev' pos' s')
              (fun _ prev' pos' s' => k0 (Some (pos, pos')) prev' pos' s'))
      with (cap := cap); [|exact H].
    intros c p ps s' Hs c'. apply (Hk (Some (pos, ps)) p ps s' Hs).
Qed.

End Monotone.

Section CountBound.
Variables r1 r0 : regex.
Hypothesis starts_alike :
  forall prev pos s, match_here r1 prev pos s <> None -> match_here r0 prev pos s <> None.
Hypothesis no_overlap :
  forall prev pos s e g,
    match_here r0 prev pos s = Some (e, g) ->
    Derived.no_match_ahead r0 (drop 1 s) (e - pos - 1).

Lemma no_match_ahead_tail (c : ascii) (s : string) (n : nat) :
  Derived.no_match_ahead r0 (String c s) (S n) -> Derived.no_match_ahead r0 s n.
Proof.
  intros H i prev pos Hi. apply (H (S i) prev pos). lia.
Qed.

Lemma count_from_le (s : string) :
  forall prev pos skip1 skip0,
    Derived.no_match_ahead r0 s skip0 ->
    (count_from r1 prev pos s skip1 <= count_from r0 prev pos s skip0)%nat.
Proof.
  induction s as [|c s IH]; intros prev pos skip1 skip0 Hclear.
  - cbn [count_from]. destruct skip1 as [|k1]; [|lia].
    destruct (match_here r1 prev pos EmptyString) as [[e1 g1]|] eqn:E1; [|lia].
    assert (M0 : match_here r0 prev pos EmptyString <> None)
      by (apply starts_alike; congruence).
    destruct skip0 as [|k0].
    + destruct (match_here r0 prev pos EmptyString) as [[e0 g0]|]; [lia | contradiction].
    + exfalso. apply M0. apply (Hclear 0%nat prev pos). lia.
  - assert (Hrest : forall k1,
              (count_from r1 (Some c) (S pos) s k1
               <= count_from r0 prev pos (String c s) skip0)%nat).
    { intros k1. cbn [count_from]. destruct skip0 as [|k0].
      - destruct (match_here r0 prev pos (String c s)) as [[e0 g0]|] eqn:E0.
        + apply Nat.le_le_succ_r. apply IH.
          apply (no_overlap prev pos (String c s) e0 g0 E0).
        + apply IH. intros i p ps Hi. lia.
      - apply IH. now apply (no_match_ahead_tail c). }
    destruct skip1 as [|k1];
      [|change (count_from r1 prev pos (String c s) (S k1))
          with (count_from r1 (Some c) (S pos) s k1); apply Hrest].
    change (count_from r1 prev pos (String c s) 0)
      with (match match_here r1 prev pos (String c s) with
            | Some (e, _) => S (count_from r1 (Some c) (S pos) s (e - pos - 1))
            | None => count_from r1 (Some c) (S pos) s 0
            end).
    destruct (match_here r1 prev pos (String c s)) as [[e1 g1]|] eqn:E1; [|apply Hrest].
    assert (M0 : match_here r0 prev pos (String c s) <> None)
      by (apply starts_alike; congruence).
    destruct skip0 as [|k0].
    + cbn [count_from].
      destruct (match_here r0 prev pos (String c s)) as [[e0 g0]|] eqn:E0; [|contradiction].
      apply le_n_S. apply IH. apply (no_overlap prev pos (String c s) e0 g0 E0).
    + exfalso. apply M0. apply (Hclear 0%nat prev pos). lia.
Qed.

End CountBound.

Section ImageTags.

(** Every counting pattern starts with the pattern of an image tag. *)
Lemma starts_with_img_tag (rest : regex) prev pos s :
  match_here (Cat (lit "<img") (Cat (Chr is_space) rest)) prev pos s <> None ->
  match_here Derived.img_tag prev pos s <> None.
Proof.
  unfold match_here, Derived.img_tag. cbn [seq_of]. intros H.
  change (run (Cat (lit "<img") (Cat (Chr is_space) rest)) accept None prev pos s)
    with (run (lit "<img") (run (Cat (Chr is_space) rest) accept) None prev pos s) in H.
  change (run (Cat (lit "<img") (Cat (Chr is_space) Empty)) accept None prev pos s)
    with (run (lit "<img") (run (Cat (Chr is_space) Empty) accept) None prev pos s).
  apply (run_mono (lit "<img") (run (Cat (Chr is_space) rest) accept)
           (run (Cat (Chr is_space) Empty) accept)) with (cap := None); [|exact H].
  intros cap p ps s' Hs cap'.
  change (run (Cat (Chr is_space) rest) accept cap p ps s')
    with (run (Chr is_space) (run rest accept) cap p ps s') in Hs.
  change (run (Cat (Chr is_space) Empty) accept cap' p ps s')
    with (run (Chr is_space) (run Empty accept) cap' p ps s').
  apply (run_mono (Chr is_space) (run rest accept) (run Empty accept)) with (cap := cap);
    [|exact Hs].
  intros. cbn [run]. unfold accept. discriminate.
Qed.

Lemma space_is_not_lt (c : ascii) : is_space c = true -> (canon c =? canon "<")%nat = false.
Proof.
  destruct c as [[] [] [] [] [] [] [] []]; vm_compute; intros H; congruence.
Qed.

(** The shape of a match of the image-tag pattern. *)
Lemma img_tag_match prev pos s e g :
  match_here Derived.img_tag prev pos s = Some (e, g) ->
  exists c1 c2 c3 c4 c5 rest,
    s = String c1 (String c2 (String c3 (String c4 (String c5 rest))))
    /\ (canon c2 =? canon "<")%nat = false
    /\ (canon c3 =? canon "<")%nat = false
    /\ (canon c4 =? canon "<")%nat = false
    /\ (canon c5 =? canon "<")%nat = false
    /\ e = (pos + 5)%nat.
Proof.
  unfold match_here, Derived.img_tag. cbn [seq_of run lit chr_i]. intros H.
  destruct s as [|c1 s]; [discriminate|].
  destruct (canon c1 =? canon "<")%nat; [|discriminate].
  destruct s as [|c2 s]; [discriminate|].
  destruct (canon c2 =? canon "i")%nat eqn:E2; [|discriminate].
  destruct s as [|c3 s]; [discriminate|].
  destruct (canon c3 =? canon "m")%nat eqn:E3; [|discriminate].
  destruct s as [|c4 s]; [discriminate|].
  destruct (canon c4 =? canon "g")%nat eqn:E4; [|discriminate].
  destruct s as [|c5 s]; [discriminate|].
  destruct (is_space c5) eqn:E5; [|discriminate].
  unfold accept in H. injection H as <- <-.
  apply Nat.eqb_eq in E2, E3, E4.
  exists c1, c2, c3, c4, c5, s. rewrite E2, E3, E4.
  repeat split; try reflexivity; [now apply space_is_not_lt | lia].
Qed.

Lemma img_tag_needs_lt prev pos (c : ascii) (s : string) :
  (canon c =? canon "<")%nat = false ->
  match_here Derived.img_tag prev pos (String c s) = None.
Proof.
  intros H. unfold match_here, Derived.img_tag. cbn [seq_of run lit chr_i]. now rewrite H.
Qed.

(** Two image tags do not overlap. *)
Lemma img_tag_no_overlap prev pos s e g :
  match_here Derived.img_tag prev pos s = Some (e, g) ->
  Derived.no_match_ahead Derived.img_tag (drop 1 s) (e - pos - 1).
Proof.
  intros H. apply img_tag_match in H as (c1 & c2 & c3 & c4 & c5 & rest & -> & N2 & N3 & N4 & N5 & ->).
  intros i prev' pos' Hi. cbn [drop].
  destruct i as [|[|[|[|i]]]]; cbn [drop]; try (now apply img_tag_needs_lt). lia.
Qed.

Lemma match_count_le_img_tag (rest : regex) (html : string) :
  match_count (Cat (lit "<img") (Cat (Chr is_space) rest)) html
  <= match_count Derived.img_tag html.
Proof.
  unfold match_count. apply Nat2Z.inj_le.
  apply count_from_le.
  - intros prev pos s. apply starts_with_img_tag.
  - apply img_tag_no_overlap.
  - intros i prev pos Hi. lia.
Qed.

End ImageTags.

(** X19. The images counted as having alt text are never more than the
    img elements counted, and those counted as having dimensions never
    more than twice as many (an element is counted once for each order
    of its two attributes). The alt-text check is therefore decided by
    the two counts as the four cases say: not applicable without images,
    done when the counts are equal, partial when some but not all images
    have alt text, missing when none has. *)
Theorem image_counts_are_bounded (auditSections : Checklist) (html : string) :
  0 <= imgWithAlt html <= imgTotal html
  /\ 0 <= imgWithDims html <= 2 * imgTotal html
  /\ Spec.count_status (imgWithAlt html) (imgTotal html)
     = Spec.status_of (auditOnPageSeo auditSections html) "2_07_image_alt_tags".
Proof.
  assert (Halt : imgWithAlt html <= imgTotal html).
  { unfold imgWithAlt, imgTotal. apply (match_count_le_img_tag _ html). }
  assert (Hd1 : match_count (img_dims "width" "height") html <= imgTotal html).
  { unfold imgTotal, img_dims.
    change (seq_of [lit "<img"; Chr is_space]) with Derived.img_tag.
    cbn [seq_of]. apply (match_count_le_img_tag _ html). }
  assert (Hd2 : match_count (img_dims "height" "width") html <= imgTotal html).
  { unfold imgTotal, img_dims.
    change (seq_of [lit "<img"; Chr is_space]) with Derived.img_tag.
    cbn [seq_of]. apply (match_count_le_img_tag _ html). }
  assert (H0 : 0 <= imgWithAlt html) by (unfold imgWithAlt, match_count; lia).
  assert (H1 : 0 <= imgWithDims html) by (unfold imgWithDims, match_count; lia).
  split; [lia|]. split; [unfold imgWithDims in *; lia|].
  read_status. unfold Spec.count_status.
  destruct (imgTotal html =? 0); [reflexivity|].
  destruct (imgWithAlt html =? imgTotal html) eqn:Eq; [reflexivity|].
  apply Z.eqb_neq in Eq.
  destruct (0 <? imgWithAlt html) eqn:Hpos.
  - replace (imgWithAlt html <? imgTotal html) with true
      by (symmetry; apply Z.ltb_lt; lia).
    reflexivity.
  - apply Z.ltb_ge in Hpos. cbn [andb].
    replace (imgWithAlt html =? 0) with true by (symmetry; apply Z.eqb_eq; lia).
    reflexivity.
Qed.

(** ** Repairs and the audit *)

Section Repairs.

Lemma append_assoc (a b c : string) : (a +:+ b) +:+ c = a +:+ (b +:+ c).
Proof.
  induction a as [|x a IH]; [reflexivity|].
  change ((String x a +:+ b) +:+ c) with (String x ((a +:+ b) +:+ c)).
  change (String x a +:+ (b +:+ c)) with (String x (a +:+ (b +:+ c))).
  now rewrite IH.
Qed.

(** A replacement at a literal anchor whose template holds, in its plain
    head, a text that the pattern matches gives a document the pattern
    matches. *)
Lemma replace_lit_found (r : regex) (w p x rest content : string) :
  test (lit w) content = true ->
  Derived.dollar_free (p +:+ x) = true ->
  (forall post prev pos, match_here r prev pos (x +:+ post) <> None) ->
  test r (replace (lit w) ((p +:+ x) +:+ rest) content) = true.
Proof.
  intros Ht Hp Hx. apply test_iff_exec. unfold replace.
  destruct (exec (lit w) content) as [[a b g]|] eqn:E;
    [|unfold test in Ht; rewrite E in Ht; discriminate].
  rewrite getSubstitution_plain_append by exact Hp.
  rewrite !append_assoc, <- (append_assoc (take a content) p).
  unfold exec. apply search_append. intros prev pos. apply Hx.
Qed.

Lemma canonical_found (post : string) prev pos :
  match_here (seq_of [lit "rel="; quote; lit "canonical"; quote]) prev pos
    (("rel=" +:+ dq +:+ "canonical" +:+ dq) +:+ post) <> None.
Proof. vm_compute. discriminate. Qed.

Lemma viewport_found (post : string) prev pos :
  match_here (seq_of [lit "name="; quote; lit "viewport"; quote]) prev pos
    (("name=" +:+ dq +:+ "viewport" +:+ dq) +:+ post) <> None.
Proof. vm_compute. discriminate. Qed.

Lemma charset_found (post : string) prev pos :
  match_here (seq_of [lit "charset="; opt is_quote; lit "UTF-8"; opt is_quote]) prev pos
    (("charset=" +:+ dq +:+ "UTF-8" +:+ dq) +:+ post) <> None.
Proof. vm_compute. discriminate. Qed.

Lemma lang_found (post : string) prev pos :
  match_here (seq_of [lit "<html"; Rep not_gt; lit "lang="; quote; Chr is_letter]) prev pos
    (("<html lang=" +:+ dq +:+ "en" +:+ dq) +:+ post) <> None.
Proof.
  unfold match_here.
  change (("<html lang=" +:+ dq +:+ "en" +:+ dq) +:+ post)
    with ("<html" +:+ String " " ("lang=" +:+ (dq +:+ "en" +:+ dq +:+ post))).
  cbn [seq_of run].
  match goal with
  | |- run (lit "<html") ?k ?cap ?pv ?ps (_ +:+ ?rest) <> None =>
      destruct (run_lit_self "<html" k cap pv ps rest) as [p1 ->]
  end.
  apply rep_one; [reflexivity|].
  match goal with
  | |- run (lit "lang=") ?k ?cap ?pv ?ps (_ +:+ ?rest) <> None =>
      destruct (run_lit_self "lang=" k cap pv ps rest) as [p2 ->]
  end.
  vm_compute. discriminate.
Qed.

End Repairs.

(** X20. A repair that is logged on a document holding its anchor is seen
    by the audit: after the canonical, viewport, charset or language fix
    has been applied to a document that has the closing title tag, the
    head tag or the html tag the fix inserts at, the audit of the new text
    gives the corresponding technical check as done. *)
Theorem applied_repairs_pass_the_audit (engine : Engine) (domain businessName : option string)
    (issue : FixIssue.t) (content content' : string) (changes changes' : list string)
    (prefix anchor check : string)
    (auditSections : Checklist) (url : string) (headers : gmap string string)
    (robotsTxt sitemapXml : option string) (timestamp : string) :
  In (prefix, anchor, check) Derived.repairs ->
  startsWith (FixIssue.check_id issue) prefix = true ->
  test (lit anchor) content = true ->
  apply_issue engine domain businessName issue (content, changes) = Ok (content', changes') ->
  changes' <> changes ->
  Derived.status_in
    (auditWebsite auditSections url content' headers robotsTxt sitemapXml timestamp)
    "1_technical_seo" check
  = Some done.
Proof.
  intros Hin Hid Ht H Hlog. cbn [In Derived.repairs] in Hin.
  unfold Derived.status_in. rewrite auditWebsite_sections.
  destruct Hin as [E|[E|[E|[E|[]]]]]; injection E as <- <- <-;
    cbv [allChecks rec_set rec_get map fst String.eqb Ascii.eqb Bool.eqb];
    cbn [Derived.section_result SectionResult.items snd];
    cbv [auditTechnicalSeo rec_set rec_get String.eqb Ascii.eqb Bool.eqb fmap option_fmap
         option_map item ItemResult.status checkHtml].
  - rewrite canonical_route in H by exact Hid. injection H as H.
    unfold fix_canonical in H.
    destruct (startsWith _ _ && _ && _); injection H as <- <-; [|congruence].
    match goal with
    | |- context [replace ?l (_ +:+ _ +:+ _ +:+ _ +:+ _ +:+ _ +:+ ?tail) content] =>
        change (replace l _ content)
          with (replace (lit "</title>")
                  ((("</title>" +:+ LF +:+ "    <link ")
                      +:+ ("rel=" +:+ dq +:+ "canonical" +:+ dq)) +:+ tail)
                  content)
    end.
    rewrite replace_lit_found; [reflexivity | exact Ht | reflexivity |].
    intros post prev pos. apply canonical_found.
  - rewrite viewport_route in H by exact Hid. injection H as H.
    unfold fix_viewport in H.
    destruct (startsWith _ _ && _); injection H as <- <-; [|congruence].
    match goal with
    | |- context [replace ?l ?t content] => change (replace l t content)
      with (replace (lit "<head>")
              ((("<head>" +:+ LF +:+ "    <meta ")
                  +:+ ("name=" +:+ dq +:+ "viewport" +:+ dq))
                 +:+ (" content=" +:+ dq +:+ "width=device-width, initial-scale=1.0"
                        +:+ dq +:+ ">"))
              content)
    end.
    rewrite replace_lit_found; [reflexivity | exact Ht | reflexivity |].
    intros post prev pos. apply viewport_found.
  - rewrite charset_route in H by exact Hid. injection H as H.
    unfold fix_charset in H.
    destruct (startsWith _ _ && _); injection H as <- <-; [|congruence].
    match goal with
    | |- context [replace ?l ?t content] => change (replace l t content)
      with (replace (lit "<head>")
              ((("<head>" +:+ LF +:+ "    <meta ")
                  +:+ ("charset=" +:+ dq +:+ "UTF-8" +:+ dq)) +:+ ">")
              content)
    end.
    rewrite replace_lit_found; [reflexivity | exact Ht | reflexivity |].
    intros post prev pos. apply charset_found.
  - rewrite lang_route in H by exact Hid. injection H as H.
    unfold fix_lang in H.
    destruct (startsWith _ _ && _); injection H as <- <-; [|congruence].
    match goal with
    | |- context [replace ?l ?t content] => change (replace l t content)
      with (replace (lit "<html")
              ((EmptyString +:+ ("<html lang=" +:+ dq +:+ "en" +:+ dq)) +:+ EmptyString)
              content)
    end.
    rewrite replace_lit_found; [reflexivity | exact Ht | reflexivity |].
    intros post prev pos. apply lang_found.
Qed.

Lemma applied_repairs_pass_the_audit_witness :
  Derived.status_in
    (auditWebsite ∅ "example.com"
       (take 6 Examples.bare_page
          +:+ ("<head>" +:+ LF +:+ "    <meta charset=" +:+ dq +:+ "UTF-8" +:+ dq +:+ ">")
          +:+ drop 12 Examples.bare_page)
       ∅ None None Examples.timestamp)
    "1_technical_seo" "1_14_charset"
  = Some done.
Proof.
  apply (applied_repairs_pass_the_audit Examples.no_engine None None
           (Examples.issue "1_14_charset" "declare the charset") Examples.bare_page _
           [] ["Added charset UTF-8"] "1_14" "<head>" "1_14_charset").
  - right. right. left. reflexivity.
  - reflexivity.
  - vm_compute. reflexivity.
  - vm_compute. reflexivity.
  - discriminate.
Defined.

(** ** What a call can throw *)



(** ** Pages without the text a pattern starts with *)

Section LiteralHead.
Variable w : string.
Variable rest : regex.

(** A pattern that starts with a literal text matches only where the
    literal text matches. *)
Lemma match_needs_head prev pos (s : string) :
  match_here (lit w) prev pos s = None -> match_here (Cat (lit w) rest) prev pos s = None.
Proof.
  intros H. destruct (match_here (Cat (lit w) rest) prev pos s) as [o|] eqn:E; [|reflexivity].
  exfalso. unfold match_here in *. cbn [run] in E.
  assert (Hm : run (lit w) accept None prev pos s <> None).
  { apply (run_mono (lit w) (run rest accept) accept) with (cap := None).
    - intros. unfold accept. discriminate.
    - congruence. }
  contradiction.
Qed.


Lemma count_needs_head (s : string) :
  forall prev pos skip,
    search (lit w) prev pos s = None -> count_from (Cat (lit w) rest) prev pos s skip = 0%nat.
Proof.
  induction s as [|c s IH]; intros prev pos skip H; cbn [search] in H.
  - destruct (match_here (lit w) prev pos EmptyString) as [[e g]|] eqn:E; [discriminate|].
    destruct skip; cbn [count_from]; [|reflexivity].
    now rewrite match_needs_head.
  - destruct (match_here (lit w) prev pos (String c s)) as [[e g]|] eqn:E; [discriminate|].
    destruct skip as [|skip]; cbn [count_from].
    + rewrite match_needs_head by exact E. now apply IH.
    + now apply IH.
Qed.

End LiteralHead.

(** X22. On a page that has no text [<img] in any letter case, the
    alt-text check and the dimensions check are not applicable, and
    neither has an entry in the priority queue. *)
Theorem page_without_img_has_no_image_fix (auditSections : Checklist) (url html : string)
    (headers : gmap string string) (robotsTxt sitemapXml : option string) (timestamp : string) :
  test (lit "<img") html = false ->
  let results := auditOnPageSeo auditSections html in
  let r := auditWebsite auditSections url html headers robotsTxt sitemapXml timestamp in
  imgTotal html = 0
  /\ Spec.status_of results "2_07_image_alt_tags" = Some not_applicable
  /\ Spec.status_of results "2_08_image_dimensions" = Some not_applicable
  /\ forall f : PriorityFix.t,
       In f (AuditResult.priority_fixes r) ->
       PriorityFix.check_id f <> "2_07_image_alt_tags"
       /\ PriorityFix.check_id f <> "2_08_image_dimensions".
Proof.
  intros Hno. cbv zeta.
  assert (Hm : imgTotal html = 0).
  { unfold imgTotal, match_count. cbn [seq_of].
    rewrite count_needs_head; [reflexivity|].
    unfold test, exec in Hno. destruct (search (lit "<img") None 0 html); congruence. }
  split; [exact Hm|].
  apply (no_counted_image_no_image_fix auditSections url html headers robotsTxt sitemapXml
           timestamp Hm).
Qed.

Lemma page_without_img_has_no_image_fix_witness :
  Spec.status_of (auditOnPageSeo ∅ Examples.bare_page) "2_08_image_dimensions"
  = Some not_applicable.
Proof.
  apply (page_without_img_has_no_image_fix ∅ "example.com" Examples.bare_page ∅ None None
           Examples.timestamp).
  vm_compute. reflexivity.
Defined.

(** ** The title the audit reads *)

Section FirstMatch.









End FirstMatch.


